(** * Consensus pharmacophore: a shallow embedding of
      [PyPharmer/Pharmacophores.py]: function
      [compute_concensus_pharmacophore] with its two local helpers, and
      of the rest of the module [save_pharmacophore_to_pymol], the row
      selection and the cone of [show_pharmacophoric_descriptors], and
      [parse_json_pharmacophore] from the decoded JSON on.

    Modelling decisions.

    - Numbers.  The program computes on IEEE binary64 values.  Every
      numeric definition below is written once, over a type [F] carrying
      the operations of the class [Number].  Two instances are given:
      [float] (Rocq's primitive binary64), on which the model runs, and
      [R], the exact reals.  Statements that do not depend on arithmetic
      (the store, the cluster ids, the unused parameter) are proved for
      every number type; the others are proved over [R], so that rounding,
      overflow and NaN are outside them.
    - pandas.  A DataFrame is a mutable object: the model keeps a store of
      DataFrames addressed by references.  [get_group] allocates a new
      object; column assignment mutates the object it is applied to.
      Rows are kept in positional order together with their index label;
      label-based access [table.loc[i, col] for i in table.index] is read
      positionally, which is what pandas does when labels are unique.
    - numpy / scipy / sklearn.  [distance_matrix], [pdist], [fcluster],
      [normalize], [np.average], [np.linalg.norm] are modelled from their
      documented behaviour.  The linkage matrix is read as the binary tree
      it encodes.  [sch.linkage] itself is a parameter of the model: the
      theorems hold for every linkage function that returns a dendrogram
      over the observations it is given, and [complete_linkage] is the
      textbook complete-linkage procedure used as an instance.
    - Files written by the diagnostic branch are recorded by name only.
    - PyMOL is the list of the [cmd] calls made; plotly, the PHARMIT
      subprocess of [get_ligand_receptor_pharmacophore] and
      [get_molecule_pharmacophore], and the JSON text written by
      [save_pharmacophore_to_json] are not modelled. *)

From Stdlib Require Import Floats.
From Stdlib Require Import Reals Lra Lia.
From Stdlib Require Import List String Ascii Bool Arith NArith ZArith Permutation Sorted.
Import ListNotations.

Set Implicit Arguments.
Set Warnings "-inexact-float".

(** ** Numbers *)

Class Number (F : Type) : Type := {
  nadd : F -> F -> F;
  nsub : F -> F -> F;
  nmul : F -> F -> F;
  ndiv : F -> F -> F;
  nabs : F -> F;
  nsqrt : F -> F;
  neqb : F -> F -> bool;
  nltb : F -> F -> bool;
  nleb : F -> F -> bool;
  of_nat : nat -> F;
  (** the literals of the program *)
  lit_0 : F;
  lit_1 : F;
  lit_2 : F;
  lit_0_5 : F;
  lit_1_5 : F;
  lit_0_17 : F
}.

Declare Scope num_scope.
Delimit Scope num_scope with num.
Notation "a + b" := (nadd a b) : num_scope.
Notation "a - b" := (nsub a b) : num_scope.
Notation "a * b" := (nmul a b) : num_scope.
Notation "a / b" := (ndiv a b) : num_scope.
Notation "a == b" := (neqb a b) (at level 70, no associativity) : num_scope.
Notation "a <? b" := (nltb a b) : num_scope.
Notation "a <=? b" := (nleb a b) : num_scope.

Definition Reqb (a b : R) : bool := if Req_dec_T a b then true else false.
Definition Rltb (a b : R) : bool := if Rlt_dec a b then true else false.
Definition Rleb (a b : R) : bool := if Rle_dec a b then true else false.

#[export] Instance Number_R : Number R := {
  nadd := Rplus; nsub := Rminus; nmul := Rmult; ndiv := Rdiv;
  nabs := Rabs; nsqrt := R_sqrt.sqrt;
  neqb := Reqb; nltb := Rltb; nleb := Rleb;
  of_nat := INR;
  lit_0 := 0%R; lit_1 := 1%R; lit_2 := 2%R;
  lit_0_5 := 0.5%R; lit_1_5 := 1.5%R; lit_0_17 := 0.17%R
}.

#[export] Instance Number_float : Number float := {
  nadd := PrimFloat.add; nsub := PrimFloat.sub;
  nmul := PrimFloat.mul; ndiv := PrimFloat.div;
  nabs := PrimFloat.abs; nsqrt := PrimFloat.sqrt;
  neqb := PrimFloat.eqb; nltb := PrimFloat.ltb; nleb := PrimFloat.leb;
  of_nat := fun n => PrimFloat.of_uint63 (Uint63.of_Z (Z.of_nat n));
  lit_0 := 0%float; lit_1 := 1%float; lit_2 := 2%float;
  lit_0_5 := 0.5%float; lit_1_5 := 1.5%float; lit_0_17 := 0.17%float
}.

(** ** Python exceptions and results *)

Inductive exn : Type :=
| UnboundLocalError (var : string)
| KeyError (key : string)
| IndexError
| ValueError
| ZeroDivisionError
| DanglingReference.

Inductive result (A : Type) : Type :=
| Ok (a : A)
| Raise (e : exn).
Arguments Ok {A} a.
Arguments Raise {A} e.

Definition result_bind {A B} (r : result A) (k : A -> result B) : result B :=
  match r with
  | Ok a => k a
  | Raise e => Raise e
  end.

(** ** Small list utilities used by the library models *)

(** [numpy.compress]: keep the entries whose mask bit is set. *)
Fixpoint compress {A} (mask : list bool) (l : list A) : list A :=
  match mask, l with
  | b :: mask', a :: l' => if b then a :: compress mask' l' else compress mask' l'
  | _, _ => []
  end.

(** Array store [T[i] = v]; the source never writes out of range, and the
    model leaves the array unchanged there. *)
Fixpoint array_set {A} (T : list A) (i : nat) (v : A) : list A :=
  match T, i with
  | [], _ => []
  | _ :: T', O => v :: T'
  | a :: T', S i' => a :: array_set T' i' v
  end.

(** Sorted distinct keys, as [DataFrame.groupby] orders its groups. *)
Fixpoint insert_key {A} (eqb leb : A -> A -> bool) (k : A) (l : list A) : list A :=
  match l with
  | [] => [k]
  | x :: r =>
      if eqb k x then l
      else if leb k x then k :: l
      else x :: insert_key eqb leb k r
  end.

Definition sorted_unique {A} (eqb leb : A -> A -> bool) (l : list A) : list A :=
  fold_left (fun acc k => insert_key eqb leb k acc) l [].

(** ** The linkage tree

    [scipy.cluster.hierarchy.linkage] returns an (n-1) x 4 matrix whose
    row [a, b, d, count] merges clusters [a] and [b] at distance [d].  The
    model reads that matrix as the tree it encodes. *)

Inductive Dendrogram (F : Type) : Type :=
| Leaf (i : nat)
| Merge (d : F) (l r : Dendrogram F).
Arguments Leaf {F} i.
Arguments Merge {F} d l r.

Fixpoint leaves {F} (t : Dendrogram F) : list nat :=
  match t with
  | Leaf i => [i]
  | Merge _ l r => leaves l ++ leaves r
  end.

Fixpoint n_merges {F} (t : Dendrogram F) : nat :=
  match t with
  | Leaf _ => 0
  | Merge _ l r => S (n_merges l + n_merges r)
  end.

(** Number of observations of a linkage matrix: [Z.shape[0] + 1]. *)
Definition num_obs_linkage {F} (t : Dendrogram F) : nat := S (n_merges t).

(** Number of observations of a condensed distance vector of length [k]:
    [d = ceil(sqrt(2 k))]. *)
Definition num_obs_y (k : nat) : nat := Nat.sqrt_up (2 * k).

Section Model.

Variable F : Type.

(** ** DataFrames *)

(** One row of the point table, with its index label. *)
Record Point : Type := mkPoint {
  p_index : nat;
  p_name : string;
  p_x : F;
  p_y : F;
  p_z : F;
  p_radius : F;
  p_color : string
}.

(** A point table: the rows, and the three columns that the clusterer adds
    (absent, or one value per row). *)
Record DataFrame : Type := mkDataFrame {
  df_rows : list Point;
  df_cluster : option (list nat);
  df_weight : option (list nat);
  df_balance : option (list F)
}.

(** One row of the [Concensus] table. *)
Record ConsensusPoint : Type := mkConsensusPoint {
  c_index : nat;
  c_name : string;
  c_cluster : nat;
  c_x : F;
  c_y : F;
  c_z : F;
  c_radius : F;
  c_color : string;
  c_weight : nat;
  c_balance : F
}.

(** One value of the [Links] dict: [{'matrix': ..., 'linkage': ...}]. *)
Record LinkEntry : Type := mkLinkEntry {
  link_matrix : list (list F);
  link_linkage : Dendrogram F
}.

(** Row selection by a boolean mask, columns included. *)
Definition take_rows (mask : list bool) (df : DataFrame) : DataFrame :=
  {| df_rows := compress mask (df_rows df);
     df_cluster := option_map (compress mask) (df_cluster df);
     df_weight := option_map (compress mask) (df_weight df);
     df_balance := option_map (compress mask) (df_balance df) |}.

(** [table.groupby('name').groups] and [.get_group(g)]. *)
Definition groups_by_name (df : DataFrame) : list string :=
  sorted_unique String.eqb String.leb (map p_name (df_rows df)).

Definition get_group_by_name (df : DataFrame) (g : string) : DataFrame :=
  take_rows (map (fun p => String.eqb (p_name p) g) (df_rows df)) df.

(** [table.groupby('cluster').groups] and [.get_group(cg)], given the
    cluster column. *)
Definition groups_by_cluster (clusters : list nat) : list nat :=
  sorted_unique Nat.eqb Nat.leb clusters.

Definition get_group_by_cluster (df : DataFrame) (clusters : list nat) (cg : nat) : DataFrame :=
  take_rows (map (fun c => Nat.eqb c cg) clusters) df.

(** [table[['x','y','z']]] as an n x 3 array. *)
Definition xyz (p : Point) : list F := [p_x p; p_y p; p_z p].

(** ** The store and the monad of the program *)

Definition ref : Type := nat.

Record World : Type := mkWorld {
  heap : list DataFrame;
  files : list string
}.

Definition M (A : Type) : Type := World -> result A * World.

Definition ret {A} (a : A) : M A := fun w => (Ok a, w).

Definition raise {A} (e : exn) : M A := fun w => (Raise e, w).

Definition bind {A B} (m : M A) (k : A -> M B) : M B :=
  fun w =>
    match m w with
    | (Ok a, w') => k a w'
    | (Raise e, w') => (Raise e, w')
    end.

Definition lift {A} (r : result A) : M A := fun w => (r, w).

End Model.

Arguments ret {F A} a.
Arguments raise {F A} e.
Arguments lift {F A} r.

Notation "x <- c ;; k" := (bind c (fun x => k))
  (at level 61, c at next level, right associativity).
Notation "' pat <- c ;; k" := (bind c (fun x => match x with pat => k end))
  (at level 61, pat pattern, c at next level, right associativity).
Notation "c ;;; k" := (bind c (fun _ => k))
  (at level 61, right associativity).

(** ** numpy, scipy and sklearn *)

Section Library.

Context {F : Type} {num : Number F}.
Local Open Scope num_scope.

(** [ndarray.sum()] of a one-dimensional array. *)
Definition np_sum (l : list F) : F := fold_left nadd l lit_0.

(** [ndarray.max()] and the builtin [max]: both fail on an empty argument
    and return the first greatest element otherwise. *)
Definition np_max (l : list F) : result F :=
  match l with
  | [] => Raise ValueError
  | x :: r => Ok (fold_left (fun m y => if m <? y then y else m) r x)
  end.

(** [scipy.spatial.minkowski_distance(x, y, p=2)]:
    [np.sum(np.abs(y - x) ** 2, axis=-1) ** (1 / 2)]. *)
Definition minkowski_distance (x y : list F) : F :=
  nsqrt (np_sum (map (fun ab => nabs (snd ab - fst ab) * nabs (snd ab - fst ab))
                     (combine x y))).

(** [scipy.spatial.distance_matrix(x, y)]: entry (i, j) is the distance
    between row i of [x] and row j of [y]. *)
Definition distance_matrix (x y : list (list F)) : list (list F) :=
  map (fun xi => map (fun yj => minkowski_distance xi yj) y) x.

(** Euclidean distance between two observation vectors. *)
Definition euclidean (u v : list F) : F :=
  nsqrt (np_sum (map (fun ab => (fst ab - snd ab) * (fst ab - snd ab))
                     (combine u v))).

(** [scipy.spatial.distance.pdist(X)]: the Euclidean distances between the
    ROWS of [X], row i against every later row j, in that order. *)
Fixpoint pdist (X : list (list F)) : list F :=
  match X with
  | [] => []
  | u :: rest => map (euclidean u) rest ++ pdist rest
  end.

(** Largest merge distance in the subtree of a non-singleton cluster
    ([get_max_dist_for_each_cluster]); leaves have none. *)
Fixpoint max_dist (t : Dendrogram F) : option F :=
  match t with
  | Leaf _ => None
  | Merge d l r =>
      let m := d in
      let m := match max_dist l with
               | Some ml => if m <? ml then ml else m
               | None => m
               end in
      let m := match max_dist r with
               | Some mr => if m <? mr then mr else m
               | None => m
               end in
      Some m
  end.

Definition is_leaf (t : Dendrogram F) : bool :=
  match t with Leaf _ => true | Merge _ _ _ => false end.

(** [cluster_monocrit]: the depth-first walk of scipy's [fcluster].
    [led] says that an ancestor is the current cluster leader, [nc] is the
    running cluster count [n_cluster] and [T] the array of flat cluster
    ids.  A node whose subtree's merge distances are all [<= cutoff], met
    while no leader is set, becomes the leader and opens a new cluster.
    Inner children are walked first (left, then right); leaf children are
    labelled afterwards (left, then right), each opening a cluster of its
    own when there is no leader. *)
Fixpoint cluster_monocrit (t : Dendrogram F) (cutoff : F) (led : bool)
         (nc : nat) (T : list nat) : nat * list nat :=
  match t with
  | Leaf _ => (nc, T)
  | Merge _ l r =>
      let here := negb led &&
                  match max_dist t with
                  | Some m => m <=? cutoff
                  | None => false
                  end in
      let nc := if here then S nc else nc in
      let led' := led || here in
      let '(nc, T) := if is_leaf l then (nc, T)
                      else cluster_monocrit l cutoff led' nc T in
      let '(nc, T) := if is_leaf r then (nc, T)
                      else cluster_monocrit r cutoff led' nc T in
      let '(nc, T) := match l with
                      | Leaf i => let nc := if led' then nc else S nc in
                                  (nc, array_set T i nc)
                      | _ => (nc, T)
                      end in
      let '(nc, T) := match r with
                      | Leaf i => let nc := if led' then nc else S nc in
                                  (nc, array_set T i nc)
                      | _ => (nc, T)
                      end in
      (nc, T)
  end.

(** [sch.fcluster(Z, t, 'distance')]. *)
Definition fcluster (Z : Dendrogram F) (t : F) : list nat :=
  let n := num_obs_linkage Z in
  snd (cluster_monocrit Z t false 0 (repeat 0 n)).

(** [sklearn.preprocessing.normalize([w], norm='l1')[0]]: each entry over
    the sum of absolute values, a zero sum being replaced by one. *)
Definition normalize_l1 (w : list F) : list F :=
  let norms := np_sum (map nabs w) in
  let norms := if norms == lit_0 then lit_1 else norms in
  map (fun wi => wi / norms) w.

(** [np.average(a, axis=1, weights=w)] for a two-dimensional [a] whose
    rows are as long as [w], as the columns of one DataFrame are. *)
Definition np_average (a : list (list F)) (w : list F) : result (list F) :=
  let scl := np_sum w in
  if scl == lit_0 then Raise ZeroDivisionError
  else Ok (map (fun row => np_sum (map (fun aw => fst aw * snd aw) (combine row w)) / scl) a).

(** [np.linalg.norm(v)] of a vector. *)
Definition np_linalg_norm (v : list F) : F :=
  nsqrt (np_sum (map (fun a => a * a) v)).

(** Elementwise [u - v]. *)
Definition np_subtract (u v : list F) : list F :=
  map (fun ab => fst ab - snd ab) (combine u v).

(** [Series.mean()]. *)
Definition series_mean (l : list F) : F := np_sum l / of_nat (List.length l).

(** The condensed form of a square matrix in the words of the
    specification: the upper triangle without the diagonal, row by row.
    This is what [scipy.spatial.distance.squareform] returns; the program
    does not call it. *)
Fixpoint spec_condensed_form (M : list (list F)) (i : nat) : list F :=
  match M with
  | [] => []
  | row :: rest => skipn (S i) row ++ spec_condensed_form rest (S i)
  end.

End Library.

(** ** The program *)

Section Program.

Context {F : Type} {num : Number F}.
Local Open Scope num_scope.

(** [sch.linkage(dm, method='complete')], a parameter of the model. *)
Variable sch_linkage : list F -> Dendrogram F.

(** *** Store primitives *)

Definition get_frame (r : ref) : M F (DataFrame F) :=
  fun w =>
    match nth_error (heap w) r with
    | Some df => (Ok df, w)
    | None => (Raise DanglingReference, w)
    end.

Definition put_frame (r : ref) (df : DataFrame F) : M F unit :=
  fun w => (Ok tt, {| heap := array_set (heap w) r df; files := files w |}).

(** A new DataFrame object. *)
Definition alloc (df : DataFrame F) : M F ref :=
  fun w => (Ok (List.length (heap w)),
            {| heap := heap w ++ [df]; files := files w |}).

Definition write_file (name : string) : M F unit :=
  fun w => (Ok tt, {| heap := heap w; files := files w ++ [name] |}).

(** Reading a local variable that may not have been assigned. *)
Definition local {A} (name : string) (v : option A) : M F A :=
  match v with
  | Some a => ret a
  | None => raise (UnboundLocalError name)
  end.

(** Reading a column that may be absent. *)
Definition column {A} (name : string) (c : option (list A)) : result (list A) :=
  match c with
  | Some v => Ok v
  | None => Raise (KeyError name)
  end.

(** [table['cluster'] = v], [table['weight'] = v], [table['balance'] = v]:
    the object behind [table] is mutated; pandas refuses a value whose
    length is not the number of rows. *)
Definition set_cluster (table : ref) (v : list nat) : M F unit :=
  df <- get_frame table ;;
  if Nat.eqb (List.length v) (List.length (df_rows df))
  then put_frame table {| df_rows := df_rows df; df_cluster := Some v;
                          df_weight := df_weight df; df_balance := df_balance df |}
  else raise ValueError.

Definition set_weight (table : ref) (v : list nat) : M F unit :=
  df <- get_frame table ;;
  if Nat.eqb (List.length v) (List.length (df_rows df))
  then put_frame table {| df_rows := df_rows df; df_cluster := df_cluster df;
                          df_weight := Some v; df_balance := df_balance df |}
  else raise ValueError.

Definition set_balance (table : ref) (v : list F) : M F unit :=
  df <- get_frame table ;;
  if Nat.eqb (List.length v) (List.length (df_rows df))
  then put_frame table {| df_rows := df_rows df; df_cluster := df_cluster df;
                          df_weight := df_weight df; df_balance := Some v |}
  else raise ValueError.

(** *** [__compute_cluster] (lines 322-342) *)

(** [0.17*dm.max()], the threshold handed to [fcluster]. *)
Definition cut_threshold (dm : list F) : result F :=
  result_bind (np_max dm) (fun m => Ok (lit_0_17 * m)).

(** [[len([distance for distance in row if distance <= 1.5]) for row in matrix]]. *)
Definition weights_of (matrix : list (list F)) : list nat :=
  map (fun row => List.length (filter (fun distance => distance <=? lit_1_5) row)) matrix.

Definition __compute_cluster (table : ref)
  : M F (Dendrogram F * list (list F) * ref) :=
  df <- get_frame table ;;
  ' (linkage, matrix) <-
    (if Nat.ltb 2 (List.length (df_rows df)) then
       let XYZ := map (@xyz F) (df_rows df) in
       let matrix := distance_matrix XYZ XYZ in
       let dm := pdist matrix in
       let linkage := sch_linkage dm in
       t <- lift (cut_threshold dm) ;;
       let clusters := fcluster linkage t in
       set_cluster table clusters ;;;
       let weight := weights_of matrix in
       set_weight table weight ;;;
       set_balance table (normalize_l1 (map of_nat weight)) ;;;
       ret (Some linkage, Some matrix)
     else ret (None, None)) ;;
  linkage <- local "linkage" linkage ;;
  matrix <- local "matrix" matrix ;;
  ret (linkage, matrix, table).

(** *** [__compute_center_of_mass_and_radius] (lines 344-354) *)

(** [max([np.linalg.norm(center_of_mass - point_i) for i in table.index])/2]. *)
Definition raw_radius (center_of_mass : list F) (rows : list (Point F)) : result F :=
  result_bind
    (np_max (map (fun p => np_linalg_norm (np_subtract center_of_mass (xyz p))) rows))
    (fun m => Ok (m / lit_2)).

Definition has_hydrophobic (names : list string) : bool :=
  existsb (String.eqb "Hydrophobic") names.

(** The [if radius<1 and ... elif radius<0.5 and ...] clamp. *)
Definition clamp_radius (names : list string) (radius : F) : F :=
  if (radius <? lit_1) && has_hydrophobic names then lit_1
  else if (radius <? lit_0_5) && negb (has_hydrophobic names) then lit_0_5
  else radius.

Definition __compute_center_of_mass_and_radius (table : DataFrame F)
  : result (list F * F) :=
  let rows := df_rows table in
  result_bind (column "weight" (df_weight table)) (fun weight =>
  result_bind (np_average [map (@p_x F) rows; map (@p_y F) rows; map (@p_z F) rows]
                          (map of_nat weight)) (fun center_of_mass =>
  result_bind (raw_radius center_of_mass rows) (fun radius =>
  Ok (center_of_mass, clamp_radius (map (@p_name F) rows) radius)))).

(** *** The diagnostic branch (lines 365-372) *)

(** [save_pharmacophore_to_pymol(table, out_file, select='cluster')]: reads
    the added columns of every row, then saves the session file. *)
Definition save_pharmacophore_to_pymol (table : ref) (out_file : string) : M F unit :=
  df <- get_frame table ;;
  match df_rows df with
  | [] => ret tt
  | _ :: _ =>
      _ <- lift (column "cluster" (df_cluster df)) ;;
      _ <- lift (column "weight" (df_weight df)) ;;
      _ <- lift (column "balance" (df_balance df)) ;;
      ret tt
  end ;;;
  write_file out_file.

(** [sns.clustermap(...)] followed by [fig.savefig(...)]. *)
Definition save_clustermap (out_file : string) : M F unit :=
  write_file out_file.

(** *** [compute_concensus_pharmacophore] (lines 357-391) *)

(** [for x in xs: ...] threading the loop variables. *)
Fixpoint for_each {A S} (xs : list A) (body : S -> A -> M F S) (s : S) : M F S :=
  match xs with
  | [] => ret s
  | x :: xs' => s' <- body s x ;; for_each xs' body s'
  end.

(** The same loop for code that touches no DataFrame object. *)
Fixpoint for_each_pure {A S} (xs : list A) (body : S -> A -> result S) (s : S) : result S :=
  match xs with
  | [] => Ok s
  | x :: xs' => result_bind (body s x) (for_each_pure xs' body)
  end.

(** [Links[group] = entry] on an insertion-ordered dict. *)
Fixpoint dict_set {V} (d : list (string * V)) (k : string) (v : V) : list (string * V) :=
  match d with
  | [] => [(k, v)]
  | (k', v') :: d' =>
      if String.eqb k' k then (k', v) :: d' else (k', v') :: dict_set d' k v
  end.

(** The body of [for cg in clusters.groups] (lines 379-390). *)
Definition reduce_cluster (group : string) (descriptor_cluster : DataFrame F)
           (cluster_column : list nat)
           (acc : list (ConsensusPoint F) * nat) (cg : nat)
  : result (list (ConsensusPoint F) * nat) :=
  let '(Concensus, index) := acc in
  let clus := get_group_by_cluster descriptor_cluster cluster_column cg in
  result_bind (__compute_center_of_mass_and_radius clus) (fun cr =>
  let '(center_of_mass, radius) := cr in
  result_bind (match df_rows clus with
               | [] => Raise IndexError
               | p :: _ => Ok (p_color p)
               end) (fun color =>
  result_bind (column "balance" (df_balance clus)) (fun balance =>
  Ok (Concensus ++
      [{| c_index := index;
          c_name := group;
          c_cluster := cg;
          c_x := nth 0 center_of_mass lit_0;
          c_y := nth 1 center_of_mass lit_0;
          c_z := nth 2 center_of_mass lit_0;
          c_radius := radius;
          c_color := color;
          c_weight := List.length (df_rows clus);
          c_balance := series_mean balance |}],
      S index)))).

(** The body of [for group in Descriptors.groups] (lines 362-390). *)
Definition process_group (table : DataFrame F) (save_data_per_descriptor : bool)
           (out_folder : string)
           (acc : list (ConsensusPoint F) * list (string * LinkEntry F) * nat)
           (group : string)
  : M F (list (ConsensusPoint F) * list (string * LinkEntry F) * nat) :=
  let '(Concensus, Links, index) := acc in
  g <- alloc (get_group_by_name table group) ;;
  ' (linkage, matrix, descriptor_cluster) <- __compute_cluster g ;;
  let Links := dict_set Links group
                 {| link_matrix := matrix; link_linkage := linkage |} in
  (if save_data_per_descriptor then
     save_pharmacophore_to_pymol descriptor_cluster
       (out_folder ++ "/" ++ group ++ "_clusters.pse")%string ;;;
     save_clustermap (out_folder ++ "/" ++ group ++ "_clusters.png")%string
   else ret tt) ;;;
  dc <- get_frame descriptor_cluster ;;
  cluster_column <- lift (column "cluster" (df_cluster dc)) ;;
  ' (Concensus, index) <-
    lift (for_each_pure (groups_by_cluster cluster_column)
                        (reduce_cluster group dc cluster_column)
                        (Concensus, index)) ;;
  ret (Concensus, Links, index).

Definition compute_concensus_pharmacophore (table : ref)
           (save_data_per_descriptor : bool) (out_folder : string) (h_dist : F)
  : M F (list (ConsensusPoint F) * list (string * LinkEntry F)) :=
  df <- get_frame table ;;
  ' (Concensus, Links, _) <-
    for_each (groups_by_name df)
             (process_group df save_data_per_descriptor out_folder)
             ([], [], 1) ;;
  ret (Concensus, Links).

(** The defaults of the signature (line 290). *)
Definition default_save_data_per_descriptor : bool := true.
Definition default_out_folder : string := ".".
Definition default_h_dist : F := lit_0_17.

(** The cluster ids of a group in the words of the specification: linkage
    on the condensed form of the point-distance matrix, cut at [h_dist]
    times its greatest entry.  The program does not compute this; it is
    here to be compared with what [__compute_cluster] stores. *)
Definition spec_cluster_ids (h_dist : F) (rows : list (Point F)) : result (list nat) :=
  let XYZ := map (@xyz F) rows in
  let matrix := distance_matrix XYZ XYZ in
  let condensed := spec_condensed_form matrix 0 in
  result_bind (np_max condensed) (fun m =>
  Ok (fcluster (sch_linkage condensed) (h_dist * m))).

End Program.

(** ** Complete linkage, as an instance of the [sch_linkage] parameter

    The textbook agglomerative procedure: start from singletons; while two
    clusters remain, merge the pair at the smallest complete-linkage
    distance (the greatest distance between a member of one and a member of
    the other), the first such pair on a tie.  The new cluster takes the
    next free id, and the merged cluster with the smaller id becomes the
    left child, as in the rows of scipy's linkage matrix.  scipy's own
    tie-breaking is not modelled. *)

Section CompleteLinkage.

Context {F : Type} {num : Number F}.
Local Open Scope num_scope.

(** Position of the pair (a, b), a < b, in a condensed vector over [n]
    observations. *)
Definition condensed_index (n a b : nat) : nat :=
  (n * a - a * (a + 1) / 2 + (b - a - 1))%nat.

Definition condensed_get (n : nat) (y : list F) (a b : nat) : F :=
  if Nat.ltb a b then nth (condensed_index n a b) y lit_0
  else if Nat.ltb b a then nth (condensed_index n b a) y lit_0
  else lit_0.

Definition max_of (l : list F) : F :=
  match l with
  | [] => lit_0
  | x :: r => fold_left (fun m v => if m <? v then v else m) r x
  end.

Definition complete_distance (n : nat) (y : list F) (A B : Dendrogram F) : F :=
  max_of (map (fun ab => condensed_get n y (fst ab) (snd ab))
              (list_prod (leaves A) (leaves B))).

(** Every element of a list together with the others. *)
Fixpoint picks {A} (l : list A) : list (A * list A) :=
  match l with
  | [] => []
  | a :: r => (a, r) :: map (fun br => (fst br, a :: snd br)) (picks r)
  end.

(** Every pair of elements, in list order, together with the others. *)
Fixpoint pairs {A} (l : list A) : list (A * A * list A) :=
  match l with
  | [] => []
  | a :: r =>
      map (fun br => (a, fst br, snd br)) (picks r)
      ++ map (fun xyr => (fst (fst xyr), snd (fst xyr), a :: snd xyr)) (pairs r)
  end.

(** An active cluster is a pair of its id and its tree. *)

Definition pair_distance (n : nat) (y : list F)
           (c : (nat * Dendrogram F) * (nat * Dendrogram F) * list (nat * Dendrogram F)) : F :=
  complete_distance n y (snd (fst (fst c))) (snd (snd (fst c))).

Definition closest (n : nat) (y : list F)
           (cands : list ((nat * Dendrogram F) * (nat * Dendrogram F) * list (nat * Dendrogram F)))
  : option ((nat * Dendrogram F) * (nat * Dendrogram F) * list (nat * Dendrogram F)) :=
  match cands with
  | [] => None
  | c :: r =>
      Some (fold_left (fun best c' =>
                         if pair_distance n y c' <? pair_distance n y best
                         then c' else best) r c)
  end.

Definition merge_clusters (n : nat) (y : list F) (next_id : nat)
           (a b : nat * Dendrogram F) : nat * Dendrogram F :=
  let d := complete_distance n y (snd a) (snd b) in
  if Nat.ltb (fst a) (fst b)
  then (next_id, Merge d (snd a) (snd b))
  else (next_id, Merge d (snd b) (snd a)).

Fixpoint agglomerate (steps : nat) (n : nat) (y : list F) (next_id : nat)
         (active : list (nat * Dendrogram F)) : list (nat * Dendrogram F) :=
  match steps with
  | O => active
  | S steps' =>
      match closest n y (pairs active) with
      | None => active
      | Some (a, b, rest) =>
          agglomerate steps' n y (S next_id)
                      (rest ++ [merge_clusters n y next_id a b])
      end
  end.

Definition complete_linkage (y : list F) : Dendrogram F :=
  let n := num_obs_y (List.length y) in
  match agglomerate (n - 1) n y n (map (fun i => (i, Leaf i)) (seq 0 n)) with
  | [c] => snd c
  | _ => Leaf 0
  end.

End CompleteLinkage.

(** ** The model at work on binary64 *)

Module Run.

Definition pt (i : nat) (name : string) (x y z : float) : Point float :=
  {| p_index := i; p_name := name; p_x := x; p_y := y; p_z := z;
     p_radius := 1%float; p_color := "green" |}.

Definition frame (rows : list (Point float)) : DataFrame float :=
  {| df_rows := rows; df_cluster := None; df_weight := None; df_balance := None |}.

(** Two tight pairs of Hydrophobic points, far apart. *)
Definition two_pairs : DataFrame float :=
  frame [pt 0 "Hydrophobic" 0 0 0; pt 1 "Hydrophobic" 0.1 0 0;
         pt 2 "Hydrophobic" 10 0 0; pt 3 "Hydrophobic" 10.1 0 0].

(** Three Hydrophobic points on a line, at x = 0, 1.6 and 10. *)
Definition spread : DataFrame float :=
  frame [pt 0 "Hydrophobic" 0 0 0; pt 1 "Hydrophobic" 1.6 0 0;
         pt 2 "Hydrophobic" 10 0 0].

(** Three Hydrophobic points and a group of two Aromatic points. *)
Definition with_small_group : DataFrame float :=
  frame [pt 0 "Hydrophobic" 0 0 0; pt 1 "Aromatic" 1.6 0 0;
         pt 2 "Hydrophobic" 10 0 0; pt 3 "Hydrophobic" 10 1 0;
         pt 4 "Aromatic" 1.6 0 0].

(** Two feature types of three points each. *)
Definition two_types : DataFrame float :=
  frame [pt 0 "Hydrophobic" 0 0 0; pt 1 "Aromatic" 5 0 0;
         pt 2 "Hydrophobic" 0 0 0; pt 3 "Aromatic" 5 0 0;
         pt 4 "Hydrophobic" 0 0 0; pt 5 "Aromatic" 5 0 0].

Definition run_with (h_dist : float) (df : DataFrame float) :=
  compute_concensus_pharmacophore complete_linkage 0 true "out" h_dist
    {| heap := [df]; files := [] |}.

Definition run_on (df : DataFrame float) := run_with default_h_dist df.

(** What a run returns, row by row: index, name, cluster, weight, x,
    radius, balance. *)
Definition summary (r : result (list (ConsensusPoint float)
                                * list (string * LinkEntry float)))
  : option (list (nat * string * nat * nat * float * float * float)) :=
  match r with
  | Ok (Concensus, _) =>
      Some (map (fun c => (c_index c, c_name c, c_cluster c, c_weight c,
                           c_x c, c_radius c, c_balance c)) Concensus)
  | Raise _ => None
  end.

(** The cluster column of the first group frame that a run allocated. *)
Definition first_group_clusters (w : World float) : option (list nat) :=
  match nth_error (heap w) 1 with
  | Some df => df_cluster df
  | None => None
  end.

End Run.

(** ** Vocabulary of the statements *)

Definition Rsum (l : list R) : R := fold_right Rplus 0%R l.

(** Euclidean distance between two points of the table. *)
Definition point_distance (p q : Point R) : R :=
  sqrt ((p_x p - p_x q) * (p_x p - p_x q)
        + (p_y p - p_y q) * (p_y p - p_y q)
        + (p_z p - p_z q) * (p_z p - p_z q))%R.

(** The points of [rows] within 1.5 distance units of [p]. *)
Definition neighbours (rows : list (Point R)) (p : Point R) : list (Point R) :=
  filter (fun q => Rleb (point_distance p q) 1.5%R) rows.

(** The matrix of pairwise point distances of a group. *)
Definition point_distances (rows : list (Point R)) : list (list R) :=
  map (fun p => map (fun q => point_distance p q) rows) rows.

(** What the model asks of [sch.linkage]: on a condensed vector over [n]
    observations, that is of length n (n - 1) / 2, it returns a tree whose
    leaves are the observations [0 .. n-1], each once. *)
Definition linkage_contract {F} (linkage : list F -> Dendrogram F) : Prop :=
  forall (n : nat) (y : list F),
    (2 <= n)%nat -> (2 * List.length y = n * (n - 1))%nat ->
    Permutation (leaves (linkage y)) (seq 0 n).

(** [w'] still holds, unchanged, the first [n] objects of [w]. *)
Definition keeps {F} (n : nat) (w w' : World F) : Prop :=
  (List.length (heap w) <= List.length (heap w'))%nat /\
  forall r, (r < n)%nat -> nth_error (heap w') r = nth_error (heap w) r.

(** A computation that leaves the first [n] objects alone, and whose
    result, when it returns, satisfies [Q]. *)
Definition frames {F A} (n : nat) (m : M F A) (Q : A -> Prop) : Prop :=
  forall w, (n <= List.length (heap w))%nat ->
    keeps n w (snd (m w)) /\ forall a, fst (m w) = Ok a -> Q a.

(** Weighted average of [vals] with the counts [wts] as weights. *)
Definition weighted_mean (vals : list R) (wts : list nat) : R :=
  (Rsum (map (fun vw => fst vw * INR (snd vw)) (combine vals wts))
   / INR (list_sum wts))%R.

(** Euclidean distance from the position (cx, cy, cz) to a point. *)
Definition distance_to (cx cy cz : R) (p : Point R) : R :=
  sqrt ((cx - p_x p) * (cx - p_x p)
        + (cy - p_y p) * (cy - p_y p)
        + (cz - p_z p) * (cz - p_z p))%R.

Ltac Rnum :=
  cbn [nadd nsub nmul ndiv nabs nsqrt neqb nltb nleb of_nat
       lit_0 lit_1 lit_2 lit_0_5 lit_1_5 lit_0_17 Number_R] in *.

(** *** The walk of [fcluster] *)

Section FlatClustersVocabulary.

Context {F : Type} {num : Number F}.
Variable cutoff : F.

(** The merge distances of the subtree are all at most the cutoff. *)
Definition below (t : Dendrogram F) : bool :=
  match max_dist t with
  | Some m => (m <=? cutoff)%num
  | None => false
  end.

(** Observations [i] and [j] are both under a merge of [t] whose subtree
    has all its merge distances at most the cutoff. *)
Fixpoint joined (t : Dendrogram F) (i j : nat) : Prop :=
  match t with
  | Leaf _ => False
  | Merge _ l r =>
      (below t = true /\ In i (leaves t) /\ In j (leaves t))
      \/ joined l i j \/ joined r i j
  end.

(** What the walk does for one child of a node: an inner child is walked,
    a leaf child is labelled. *)
Definition label_child (t : Dendrogram F) (led : bool) (nc : nat) (T : list nat)
  : nat * list nat :=
  match t with
  | Leaf i => let nc' := if led then nc else S nc in (nc', array_set T i nc')
  | Merge _ _ _ => cluster_monocrit t cutoff led nc T
  end.

(** The effect of labelling the observations [L], with [J] their "joined"
    relation, from count [nc] and array [T] to count [nc'] and array [T']. *)
Definition labelled (L : list nat) (J : nat -> nat -> Prop) (led : bool)
           (nc : nat) (T : list nat) (nc' : nat) (T' : list nat) : Prop :=
  List.length T' = List.length T /\
  (forall i, ~ In i L -> nth i T' 0 = nth i T 0) /\
  if led then
    nc' = nc /\ forall i, In i L -> nth i T' 0 = nc
  else
    (nc < nc')%nat /\
    (forall i, In i L -> (nc < nth i T' 0 <= nc')%nat) /\
    (forall v, (nc < v <= nc')%nat -> exists i, In i L /\ nth i T' 0 = v) /\
    (forall i j, In i L -> In j L ->
                 (nth i T' 0 = nth j T' 0 <-> i = j \/ J i j)).

End FlatClustersVocabulary.

(** The observations under the active clusters. *)
Definition forest_leaves {F} (active : list (nat * Dendrogram F)) : list nat :=
  flat_map (fun c => leaves (snd c)) active.

(** *** What is fed to the linkage *)

(** [d a b] for every pair of elements, each element against the later
    ones, in list order. *)
Fixpoint pairwise {A B} (d : A -> A -> B) (l : list A) : list B :=
  match l with
  | [] => []
  | a :: r => map (d a) r ++ pairwise d r
  end.

(** The row of the distance matrix that belongs to [p]: its distances to
    all the points of the group. *)
Definition distance_profile (rows : list (Point R)) (p : Point R) : list R :=
  map (fun q => point_distance p q) rows.

(** Euclidean distance between the distance profiles of [p] and [q]. *)
Definition profile_distance (rows : list (Point R)) (p q : Point R) : R :=
  sqrt (Rsum (map (fun s => (point_distance p s - point_distance q s)
                            * (point_distance p s - point_distance q s))%R rows)).

(** The threshold in the words of the specification: [h_dist] times the
    greatest pairwise distance between points of the group. *)
Definition spec_cut_threshold (h_dist : R) (rows : list (Point R)) : result R :=
  result_bind (np_max (pairwise point_distance rows)) (fun m => Ok (h_dist * m)%R).

(** *** Concrete tables over the reals *)

Definition hydrophobic (i : nat) (x y z : R) : Point R :=
  {| p_index := i; p_name := "Hydrophobic"; p_x := x; p_y := y; p_z := z;
     p_radius := 1%R; p_color := "green" |}.

(** A table without the added columns. *)
Definition new_frame (rows : list (Point R)) : DataFrame R :=
  {| df_rows := rows; df_cluster := None; df_weight := None; df_balance := None |}.

(** Three Hydrophobic points: two at the origin, one at (1, 0, 0). *)
Definition three_points : list (Point R) :=
  [hydrophobic 0 0 0 0; hydrophobic 1 0 0 0; hydrophobic 2 1 0 0].

(** Two Hydrophobic points. *)
Definition two_points : list (Point R) :=
  [hydrophobic 0 0 0 0; hydrophobic 1 1 0 0].

(** The store holding only the three-point table, at reference 0. *)
Definition three_points_world : World R :=
  {| heap := [new_frame three_points]; files := [] |}.

(** A cluster of two Hydrophobic points with weights 2 and 1. *)
Definition small_cluster : DataFrame R :=
  {| df_rows := [hydrophobic 0 0 0 0; hydrophobic 1 3 0 0];
     df_cluster := Some [1; 1]%nat;
     df_weight := Some [2; 1]%nat;
     df_balance := Some [0.4; 0.2]%R |}.

(** ** The rest of the module *)

(** *** [save_pharmacophore_to_pymol] in full (lines 212-263)

    The PyMOL session is the list of [cmd.*] calls made so far, together
    with what was printed.  The constant arguments [chain='P'],
    [elem='PS'] and [hetatm=1] of [cmd.pseudoatom] are left out of the
    record.  Rows are visited by position, as [for point in table.index]
    does when labels are unique. *)

Module PyMOL.

Section Pseudoatoms.

Context {F : Type}.

(** [object=] and [label=]: [int(cluster)] or the name. *)
Inductive atom_name : Type :=
| NameInt (n : nat)
| NameStr (s : string).

Record pseudoatom_call : Type := mkPseudoatom {
  pa_object : atom_name;
  pa_resn : string;
  pa_resi : nat;
  pa_label : atom_name;
  pa_vdw : F;
  pa_color : string;
  pa_b : option nat;
  pa_q : option F;
  pa_pos : list F
}.

Inductive command : Type :=
| Pseudoatom (call : pseudoatom_call)
| Group (name members : string)
| Show (representation : string)
| Center (selection : string)
| Save (file format : string)
| Remove (selection : string)
| Reinitialize (what : string).

Record Session : Type := mkSession {
  commands : list command;
  printed : list string
}.

(** [table.loc[point, name]] on an added column. *)
Definition loc {A} (name : string) (col : option (list A)) (i : nat) : result A :=
  match col with
  | None => Raise (KeyError name)
  | Some v =>
      match nth_error v i with
      | Some a => Ok a
      | None => Raise IndexError
      end
  end.

(** The [cmd.pseudoatom] call of each branch, its arguments read in the
    order in which Python evaluates them. *)
Definition atom_cluster (table : DataFrame F) (i : nat) (p : Point F)
  : result (list command) :=
  result_bind (loc "cluster" (df_cluster table) i) (fun cluster =>
  result_bind (loc "weight" (df_weight table) i) (fun weight =>
  result_bind (loc "balance" (df_balance table) i) (fun balance =>
  Ok [Pseudoatom {| pa_object := NameInt cluster; pa_resn := p_name p;
                    pa_resi := p_index p; pa_label := NameInt cluster;
                    pa_vdw := p_radius p; pa_color := p_color p;
                    pa_b := Some weight; pa_q := Some balance;
                    pa_pos := xyz p |};
      Group (p_name p) "*"]))).

Definition atom_concensus (table : DataFrame F) (i : nat) (p : Point F)
  : result (list command) :=
  result_bind (loc "weight" (df_weight table) i) (fun weight =>
  result_bind (loc "balance" (df_balance table) i) (fun balance =>
  Ok [Pseudoatom {| pa_object := NameStr (p_name p); pa_resn := p_name p;
                    pa_resi := p_index p; pa_label := NameStr (p_name p);
                    pa_vdw := p_radius p; pa_color := p_color p;
                    pa_b := Some weight; pa_q := Some balance;
                    pa_pos := xyz p |};
      Group "Concensus" "*"])).

Definition atom_all (table : DataFrame F) (i : nat) (p : Point F)
  : result (list command) :=
  Ok [Pseudoatom {| pa_object := NameStr (p_name p); pa_resn := p_name p;
                    pa_resi := p_index p; pa_label := NameStr (p_name p);
                    pa_vdw := p_radius p; pa_color := p_color p;
                    pa_b := None; pa_q := None;
                    pa_pos := xyz p |}].

(** [for point in table.index: ...], from position [i] on: the calls of a
    row are made as soon as its arguments are read; an exception stops
    the loop and leaves the calls already made. *)
Fixpoint export_rows (atom : nat -> Point F -> result (list command))
         (i : nat) (rows : list (Point F)) (s : Session) : result unit * Session :=
  match rows with
  | [] => (Ok tt, s)
  | p :: rest =>
      match atom i p with
      | Ok calls =>
          export_rows atom (S i) rest
                      {| commands := commands s ++ calls; printed := printed s |}
      | Raise e => (Raise e, s)
      end
  end.

(** Lines 259-263. *)
Definition closing (out_file : string) : list command :=
  [Show "spheres"; Center "all"; Save out_file "pse"; Remove "all";
   Reinitialize "everything"].

Definition select_message : string :=
  "parameter select must be 'all', 'cluster' or 'concensus'".

Definition save_pharmacophore_to_pymol (table : DataFrame F)
           (out_file : string) (select : string) (s : Session)
  : result unit * Session :=
  let '(r, s) :=
    if String.eqb select "cluster" then
      export_rows (atom_cluster table) 0 (df_rows table) s
    else if String.eqb select "concensus" then
      export_rows (atom_concensus table) 0 (df_rows table) s
    else if String.eqb select "all" then
      export_rows (atom_all table) 0 (df_rows table) s
    else
      (Ok tt, {| commands := commands s;
                 printed := printed s ++ [select_message] |}) in
  match r with
  | Ok _ => (Ok tt, {| commands := commands s ++ closing out_file;
                        printed := printed s |})
  | Raise e => (Raise e, s)
  end.

(** The defaults of the signature (line 212). *)
Definition default_out_file : string := "pharmacophore.pse".
Definition default_select : string := "all".


(** The pseudoatoms that the session created. *)
Definition pseudoatoms (s : Session) : list pseudoatom_call :=
  flat_map (fun c => match c with Pseudoatom a => [a] | _ => [] end) (commands s).

End Pseudoatoms.

End PyMOL.

(** *** [show_pharmacophoric_descriptors]: the rows shown (lines 159-164)
    and the cone of vectors (lines 179-192)

    The table is one that has the [enabled] and [svector] columns of the
    docstring.  A cell of [enabled] is a boolean or missing; a cell of
    [svector] is missing, a dict (which may lack a key) or something
    else.  The plotly calls are not modelled. *)

Module Show.

Section Descriptors.

Context {F : Type}.

Inductive svector_cell : Type :=
| SvMissing
| SvDict (x y z : option F)
| SvOther.

Record Descriptor : Type := mkDescriptor {
  d_point : Point F;
  d_enabled : option bool;
  d_svector : svector_cell
}.

(** [table.enabled == b], row by row; a missing cell equals nothing. *)
Definition enabled_is (b : bool) (d : Descriptor) : bool :=
  match d_enabled d with
  | Some e => Bool.eqb e b
  | None => false
  end.

(** Lines 159-164. *)
Definition selected (table : list Descriptor) (selection : string) : list Descriptor :=
  let table := if String.eqb selection "enabled"
               then filter (enabled_is true) table else table in
  let table := if String.eqb selection "disabled"
               then filter (enabled_is false) table else table in
  let table := if String.eqb selection "all" then table else table in
  table.

(** [[sv[key] for sv in table.svector if isinstance(sv, dict)]]. *)
Fixpoint components (key : string) (get : option F * option F * option F -> option F)
         (table : list Descriptor) : result (list F) :=
  match table with
  | [] => Ok []
  | d :: rest =>
      match d_svector d with
      | SvDict x y z =>
          match get (x, y, z) with
          | Some c => result_bind (components key get rest) (fun cs => Ok (c :: cs))
          | None => Raise (KeyError key)
          end
      | _ => components key get rest
      end
  end.

(** [table.dropna(subset=['svector'])]. *)
Definition dropna_svector (table : list Descriptor) : list Descriptor :=
  filter (fun d => match d_svector d with SvMissing => false | _ => true end) table.

(** The arguments of [go.Cone]. *)
Record Cone : Type := mkCone {
  cone_x : list F;
  cone_y : list F;
  cone_z : list F;
  cone_u : list F;
  cone_v : list F;
  cone_w : list F
}.

(** Lines 180-192. *)
Definition cone (table : list Descriptor) : result Cone :=
  result_bind (components "x" (fun c => fst (fst c)) table) (fun u =>
  result_bind (components "y" (fun c => snd (fst c)) table) (fun v =>
  result_bind (components "z" (fun c => snd c) table) (fun w =>
  Ok {| cone_x := map (fun d => p_x (d_point d)) (dropna_svector table);
        cone_y := map (fun d => p_y (d_point d)) (dropna_svector table);
        cone_z := map (fun d => p_z (d_point d)) (dropna_svector table);
        cone_u := u; cone_v := v; cone_w := w |}))).

(** Every [svector] cell is missing or a dict with its three keys. *)
Definition clean_svectors (table : list Descriptor) : Prop :=
  Forall (fun d => match d_svector d with
                   | SvMissing => True
                   | SvDict (Some _) (Some _) (Some _) => True
                   | _ => False
                   end) table.

End Descriptors.

End Show.

(** *** [parse_json_pharmacophore] after [json.load] (lines 116-137)

    [data] is the decoded JSON object: its ['points'] entry, when present,
    is a list of objects, of which only the ['name'] key matters here; the
    other keys of a point are carried along as [jp_rest]. *)

Module Parse.

Local Open Scope string_scope.



Section Table.

Context {A : Type}.






End Table.

End Parse.

(** *** Vocabulary of the further statements *)

(** The order of the consensus rows: by name, then by cluster id. *)
Definition consensus_before {F} (a b : ConsensusPoint F) : Prop :=
  (String.leb (c_name a) (c_name b) = true /\ c_name a <> c_name b)
  \/ (c_name a = c_name b /\ (c_cluster a < c_cluster b)%nat).

(** The files of the diagnostic branch for one feature type. *)
Definition diagnostic_files (out_folder group : string) : list string :=
  [(out_folder ++ "/" ++ group ++ "_clusters.pse")%string;
   (out_folder ++ "/" ++ group ++ "_clusters.png")%string].

(** The [Links] entry of one feature type. *)
Definition link_entry_of {F} {num : Number F} (linkage : list F -> Dendrogram F)
           (table : DataFrame F) (group : string) : string * LinkEntry F :=
  let XYZ := map (@xyz F) (df_rows (get_group_by_name table group)) in
  let matrix := distance_matrix XYZ XYZ in
  (group, {| link_matrix := matrix; link_linkage := linkage (pdist matrix) |}).

(** A computation that writes no file. *)
Definition quiet {F A} (m : M F A) : Prop :=
  forall w, files (snd (m w)) = files w.

(** The frame that [__compute_cluster] leaves for a group, cut at [t]. *)
Definition cluster_ids {F} {num : Number F} (linkage : list F -> Dendrogram F)
           (gdf : DataFrame F) (t : F) : list nat :=
  let XYZ := map (@xyz F) (df_rows gdf) in
  fcluster (linkage (pdist (distance_matrix XYZ XYZ))) t.

Definition clustered {F} {num : Number F} (linkage : list F -> Dendrogram F)
           (gdf : DataFrame F) (t : F) : DataFrame F :=
  let XYZ := map (@xyz F) (df_rows gdf) in
  let matrix := distance_matrix XYZ XYZ in
  {| df_rows := df_rows gdf;
     df_cluster := Some (cluster_ids linkage gdf t);
     df_weight := Some (weights_of matrix);
     df_balance := Some (normalize_l1 (map of_nat (weights_of matrix))) |}.

(** The rows that the loop over [clusters.groups] adds for the cluster
    keys [keys]. *)
Inductive reduced {F} {num : Number F} (group : string) (dc : DataFrame F)
          (cl : list nat) : nat -> list nat -> list (ConsensusPoint F) -> Prop :=
| reduced_nil : forall i, reduced group dc cl i [] []
| reduced_cons : forall i cg keys row rows com p rest,
    c_index row = i -> c_name row = group -> c_cluster row = cg ->
    df_rows (get_group_by_cluster dc cl cg) = p :: rest ->
    c_color row = p_color p ->
    c_weight row = List.length (df_rows (get_group_by_cluster dc cl cg)) ->
    __compute_center_of_mass_and_radius (get_group_by_cluster dc cl cg)
    = Ok (com, c_radius row) ->
    [c_x row; c_y row; c_z row] = [nth 0 com lit_0; nth 1 com lit_0; nth 2 com lit_0] ->
    (exists b, df_balance (get_group_by_cluster dc cl cg) = Some b /\
               c_balance row = series_mean b) ->
    reduced group dc cl (S i) keys rows ->
    reduced group dc cl i (cg :: keys) (row :: rows).

(** The rows that the loop over [Descriptors.groups] adds for the feature
    types [groups], the first row taking index [i]. *)
Inductive assembled {F} {num : Number F} (linkage : list F -> Dendrogram F)
          (table : DataFrame F)
  : nat -> list string -> list (ConsensusPoint F) -> Prop :=
| assembled_nil : forall i, assembled linkage table i [] []
| assembled_cons : forall i g groups t rows more,
    (2 < List.length (df_rows (get_group_by_name table g)))%nat ->
    cut_threshold
      (pdist (distance_matrix
                (map (@xyz F) (df_rows (get_group_by_name table g)))
                (map (@xyz F) (df_rows (get_group_by_name table g))))) = Ok t ->
    List.length (cluster_ids linkage (get_group_by_name table g) t)
    = List.length (df_rows (get_group_by_name table g)) ->
    reduced g (clustered linkage (get_group_by_name table g) t)
            (cluster_ids linkage (get_group_by_name table g) t)
            i (groups_by_cluster (cluster_ids linkage (get_group_by_name table g) t))
            rows ->
    assembled linkage table (i + List.length rows) groups more ->
    assembled linkage table i (g :: groups) (rows ++ more).

(** Strictly before, in the order that [leb] gives the keys. *)
Definition key_lt {A} (leb : A -> A -> bool) (a b : A) : Prop :=
  leb a b = true /\ a <> b.

(** *** The pseudoatoms of an export *)






(** *** The height of the last merge *)

(** The 'complete' method ends at the greatest distance it was given: the
    greatest merge distance of the tree is at least every entry of the
    condensed vector. *)
Definition linkage_reaches_max (linkage : list R -> Dendrogram R) : Prop :=
  forall (n : nat) (y : list R),
    (2 <= n)%nat -> (2 * List.length y = n * (n - 1))%nat ->
    exists m, max_dist (linkage y) = Some m /\ Forall (fun v => (v <= m)%R) y.

(** Every two observations of a tree are at most its greatest merge
    distance apart. *)
Definition covered (n : nat) (y : list R) (t : Dendrogram R) : Prop :=
  forall a b, In a (leaves t) -> In b (leaves t) -> a <> b ->
    exists m, max_dist t = Some m /\ (condensed_get n y a b <= m)%R.



(** ** Basic facts *)

Lemma Rleb_true (a b : R) : Rleb a b = true <-> (a <= b)%R.
Proof. unfold Rleb. destruct (Rle_dec a b); split; intros; auto; discriminate. Qed.

Lemma Rltb_true (a b : R) : Rltb a b = true <-> (a < b)%R.
Proof. unfold Rltb. destruct (Rlt_dec a b); split; intros; auto; discriminate. Qed.

Lemma Rltb_false (a b : R) : Rltb a b = false <-> (b <= a)%R.
Proof.
  unfold Rltb. destruct (Rlt_dec a b); split; intros; auto; try discriminate; lra.
Qed.

Lemma Reqb_true (a b : R) : Reqb a b = true <-> a = b.
Proof. unfold Reqb. destruct (Req_dec_T a b); split; intros; auto; discriminate. Qed.

Lemma Reqb_false (a b : R) : Reqb a b = false <-> a <> b.
Proof.
  unfold Reqb. destruct (Req_dec_T a b); split; intros; auto; try discriminate.
  contradiction.
Qed.

Lemma fold_left_Rplus (l : list R) (a : R) :
  fold_left Rplus l a = (a + Rsum l)%R.
Proof.
  revert a. induction l as [|x l IH]; intros a; simpl.
  - lra.
  - rewrite IH. lra.
Qed.

Lemma np_sum_Rsum (l : list R) : np_sum l = Rsum l.
Proof. unfold np_sum. simpl. rewrite fold_left_Rplus. lra. Qed.

Lemma fold_max_spec (l : list R) (a : R) :
  let m := fold_left (fun m y => if Rltb m y then y else m) l a in
  (a <= m)%R /\ Forall (fun x => (x <= m)%R) l /\ (m = a \/ In m l).
Proof.
  revert a. induction l as [|x l IH]; intros a; simpl.
  - repeat split; auto. lra.
  - destruct (IH (if Rltb a x then x else a)) as (H1 & H2 & H3).
    destruct (Rltb a x) eqn:E.
    + apply Rltb_true in E. repeat split.
      * lra.
      * constructor; auto.
      * destruct H3; auto.
    + apply Rltb_false in E. repeat split.
      * lra.
      * constructor; auto. lra.
      * destruct H3; auto.
Qed.

Lemma np_max_spec (l : list R) :
  l <> [] ->
  exists m, np_max l = Ok m /\ In m l /\ Forall (fun x => (x <= m)%R) l.
Proof.
  destruct l as [|a l]; [congruence|]. intros _.
  simpl. eexists. split; [reflexivity|].
  destruct (fold_max_spec l a) as (H1 & H2 & H3).
  split.
  - destruct H3 as [-> | H3]; [left; reflexivity | right; exact H3].
  - constructor; auto.
Qed.

(** ** The store *)

Lemma length_array_set {A} (T : list A) (i : nat) (v : A) :
  List.length (array_set T i v) = List.length T.
Proof.
  revert i. induction T as [|a T IH]; intros [|i]; simpl; auto.
Qed.

Lemma nth_error_array_set_same {A} (T : list A) (i : nat) (v : A) :
  (i < List.length T)%nat -> nth_error (array_set T i v) i = Some v.
Proof.
  revert i. induction T as [|a T IH]; intros [|i] Hi; simpl in *; try lia; auto.
  apply IH. lia.
Qed.

Lemma nth_error_array_set_other {A} (T : list A) (i j : nat) (v : A) :
  i <> j -> nth_error (array_set T i v) j = nth_error T j.
Proof.
  revert i j. induction T as [|a T IH]; intros [|i] [|j] Hij; simpl; auto.
  congruence.
Qed.

Lemma array_set_twice {A} (T : list A) (i : nat) (u v : A) :
  array_set (array_set T i u) i v = array_set T i v.
Proof.
  revert i. induction T as [|a T IH]; intros [|i]; simpl; auto.
  now rewrite IH.
Qed.

Lemma nth_array_set_same (T : list nat) (i v d : nat) :
  (i < List.length T)%nat -> nth i (array_set T i v) d = v.
Proof.
  revert i. induction T as [|a T IH]; intros [|i] Hi; simpl in *; try lia; auto.
  apply IH. lia.
Qed.

Lemma nth_array_set_other (T : list nat) (i j v d : nat) :
  i <> j -> nth j (array_set T i v) d = nth j T d.
Proof.
  revert i j. induction T as [|a T IH]; intros [|i] [|j] Hij; simpl; auto.
  congruence.
Qed.

(** ** Shapes *)

Lemma length_leaves {F} (t : Dendrogram F) :
  List.length (leaves t) = S (n_merges t).
Proof.
  induction t as [i|d l IHl r IHr]; simpl; auto.
  rewrite length_app, IHl, IHr. lia.
Qed.

Lemma length_cluster_monocrit {F} {num : Number F} (t : Dendrogram F)
      (cutoff : F) (led : bool) (nc : nat) (T : list nat) :
  List.length (snd (cluster_monocrit t cutoff led nc T)) = List.length T.
Proof.
  revert led nc T.
  induction t as [i|d l IHl r IHr]; intros led nc T; simpl; auto.
  set (here := negb led && _).
  set (nc0 := if here then S nc else nc).
  set (led' := led || here).
  destruct (is_leaf l) eqn:El.
  - destruct (is_leaf r) eqn:Er.
    + destruct l; try discriminate. destruct r; try discriminate.
      simpl. now rewrite !length_array_set.
    + specialize (IHr led' nc0 T).
      destruct (cluster_monocrit r cutoff led' nc0 T) as [nc1 T1].
      destruct l; try discriminate. destruct r; try discriminate.
      simpl in *. now rewrite length_array_set.
  - specialize (IHl led' nc0 T).
    destruct (cluster_monocrit l cutoff led' nc0 T) as [nc1 T1].
    destruct (is_leaf r) eqn:Er.
    + destruct l; try discriminate. destruct r; try discriminate.
      simpl in *. now rewrite length_array_set.
    + specialize (IHr led' nc1 T1).
      destruct (cluster_monocrit r cutoff led' nc1 T1) as [nc2 T2].
      destruct l; try discriminate. destruct r; try discriminate.
      simpl in *. congruence.
Qed.

Lemma length_fcluster {F} {num : Number F} (Z : Dendrogram F) (t : F) :
  List.length (fcluster Z t) = num_obs_linkage Z.
Proof.
  unfold fcluster. rewrite length_cluster_monocrit. apply repeat_length.
Qed.

Lemma length_pdist {F} {num : Number F} (X : list (list F)) :
  (2 * List.length (pdist X) = List.length X * (List.length X - 1))%nat.
Proof.
  induction X as [|u X IH]; simpl; auto.
  rewrite length_app, length_map.
  rewrite Nat.sub_0_r.
  destruct X as [|v X]; simpl in *; [lia|].
  rewrite Nat.sub_0_r in IH. nia.
Qed.

Lemma length_distance_matrix {F} {num : Number F} (x y : list (list F)) :
  List.length (distance_matrix x y) = List.length x.
Proof. unfold distance_matrix. apply length_map. Qed.

Lemma length_weights_of {F} {num : Number F} (m : list (list F)) :
  List.length (weights_of m) = List.length m.
Proof. unfold weights_of. apply length_map. Qed.

Lemma length_normalize_l1 {F} {num : Number F} (w : list F) :
  List.length (normalize_l1 w) = List.length w.
Proof. unfold normalize_l1. apply length_map. Qed.

(** ** [__compute_cluster] on a group of more than two points *)

Lemma np_max_nonempty {F} {num : Number F} (l : list F) :
  l <> [] -> exists m, np_max l = Ok m.
Proof. destruct l; [congruence|]. simpl. eauto. Qed.

(** The frame that [__compute_cluster] leaves behind [table]. *)
Lemma compute_cluster_large {F} {num : Number F}
      (linkage : list F -> Dendrogram F)
      (w : World F) (table : ref) (df : DataFrame F) :
  linkage_contract linkage ->
  nth_error (heap w) table = Some df ->
  (2 < List.length (df_rows df))%nat ->
  let matrix := distance_matrix (map (@xyz F) (df_rows df)) (map (@xyz F) (df_rows df)) in
  let dm := pdist matrix in
  exists t,
    cut_threshold dm = Ok t /\
    __compute_cluster linkage table w =
    (Ok (linkage dm, matrix, table),
     {| heap := array_set (heap w) table
                  {| df_rows := df_rows df;
                     df_cluster := Some (fcluster (linkage dm) t);
                     df_weight := Some (weights_of matrix);
                     df_balance := Some (normalize_l1 (map of_nat (weights_of matrix))) |};
        files := files w |}).
Proof.
  intros Hc Hdf Hn matrix dm.
  assert (Hlt : (table < List.length (heap w))%nat)
    by (apply nth_error_Some; congruence).
  assert (Hm : List.length matrix = List.length (df_rows df))
    by (unfold matrix; now rewrite length_distance_matrix, length_map).
  assert (Hdm : (2 * List.length dm
                 = List.length (df_rows df) * (List.length (df_rows df) - 1))%nat)
    by (unfold dm; now rewrite length_pdist, Hm).
  assert (Hne : dm <> []) by (intros E; rewrite E in Hdm; simpl in Hdm; nia).
  destruct (np_max_nonempty Hne) as (m & Hmax).
  exists (lit_0_17 * m)%num. split.
  { unfold cut_threshold. rewrite Hmax. reflexivity. }
  assert (Hfc : List.length (fcluster (linkage dm) (lit_0_17 * m)%num)
                = List.length (df_rows df)).
  { rewrite length_fcluster. unfold num_obs_linkage.
    rewrite <- length_leaves.
    rewrite (Permutation_length (Hc (List.length (df_rows df)) dm ltac:(lia) Hdm)).
    apply length_seq. }
  unfold __compute_cluster, bind, get_frame at 1. rewrite Hdf.
  apply Nat.ltb_lt in Hn. rewrite Hn.
  fold matrix. fold dm.
  unfold lift, cut_threshold. rewrite Hmax. simpl result_bind. cbv iota beta.
  unfold set_cluster, bind, get_frame, put_frame. rewrite Hdf.
  simpl heap. rewrite Hfc, Nat.eqb_refl.
  unfold set_weight, bind, get_frame, put_frame. simpl heap. simpl files.
  rewrite (nth_error_array_set_same _ _ Hlt). simpl df_rows.
  rewrite length_weights_of, Hm, Nat.eqb_refl.
  unfold set_balance, bind, get_frame, put_frame. simpl heap. simpl files.
  rewrite nth_error_array_set_same by (now rewrite length_array_set).
  simpl df_rows.
  rewrite length_normalize_l1, length_map, length_weights_of, Hm, Nat.eqb_refl.
  simpl. rewrite !array_set_twice. reflexivity.
Qed.

(** ** Frame reasoning on the store *)

Lemma keeps_refl {F} (n : nat) (w : World F) : keeps n w w.
Proof. split; auto. Qed.

Lemma keeps_trans {F} (n : nat) (w1 w2 w3 : World F) :
  keeps n w1 w2 -> keeps n w2 w3 -> keeps n w1 w3.
Proof.
  intros [L1 H1] [L2 H2]. split; [lia|].
  intros r Hr. rewrite H2, H1; auto.
Qed.

Lemma frames_ret {F A} (n : nat) (a : A) (Q : A -> Prop) :
  Q a -> frames (F:=F) n (ret a) Q.
Proof.
  intros HQ w _. split; [apply keeps_refl|].
  simpl. intros a' E. now inversion E; subst.
Qed.

Lemma frames_raise {F A} (n : nat) (e : exn) (Q : A -> Prop) :
  frames (F:=F) n (raise e) Q.
Proof. intros w _. split; [apply keeps_refl|]. simpl. discriminate. Qed.

Lemma frames_lift {F A} (n : nat) (r : result A) :
  frames (F:=F) n (lift r) (fun _ => True).
Proof. intros w _. split; [apply keeps_refl|]. auto. Qed.

Lemma frames_bind {F A B} (n : nat) (m : M F A) (k : A -> M F B)
      (Q : A -> Prop) (Q' : B -> Prop) :
  frames n m Q -> (forall a, Q a -> frames n (k a) Q') ->
  frames n (bind m k) Q'.
Proof.
  intros Hm Hk w Hw. unfold bind.
  destruct (Hm w Hw) as [K R].
  destruct (m w) as [[a|e] w1] eqn:E; simpl in *.
  - specialize (Hk a (R a eq_refl) w1 ltac:(destruct K; lia)).
    destruct Hk as [K' R']. split; auto.
    eapply keeps_trans; eauto.
  - split; auto. discriminate.
Qed.

Lemma frames_get_frame {F} (n : nat) (r : ref) :
  frames (F:=F) n (get_frame r) (fun _ => True).
Proof.
  intros w _. unfold get_frame.
  destruct (nth_error (heap w) r); simpl; split; auto using keeps_refl.
Qed.

Lemma frames_put_frame {F} (n : nat) (r : ref) (df : DataFrame F) :
  (n <= r)%nat -> frames n (put_frame r df) (fun _ => True).
Proof.
  intros Hr w _. unfold put_frame; simpl. split; auto.
  split; simpl.
  - now rewrite length_array_set.
  - intros r' Hr'. apply nth_error_array_set_other. lia.
Qed.

Lemma frames_alloc {F} (n : nat) (df : DataFrame F) :
  frames n (alloc df) (fun g => (n <= g)%nat).
Proof.
  intros w Hw. unfold alloc; simpl. split.
  - split; simpl.
    + rewrite length_app. lia.
    + intros r Hr. apply nth_error_app1. lia.
  - intros a E. inversion E; subst. exact Hw.
Qed.

Lemma frames_write_file {F} (n : nat) (name : string) :
  frames (F:=F) n (write_file name) (fun _ => True).
Proof. intros w _. unfold write_file; simpl. split; auto. split; auto. Qed.

Create HintDb frames.

#[local] Hint Resolve frames_ret frames_raise frames_get_frame frames_put_frame
  frames_write_file : frames.

Lemma frames_set_cluster {F} (n : nat) (r : ref) (v : list nat) :
  (n <= r)%nat -> frames (F:=F) n (set_cluster r v) (fun _ => True).
Proof.
  intros Hr. unfold set_cluster.
  eapply frames_bind; [apply frames_get_frame|]. intros df _.
  destruct (Nat.eqb _ _); auto with frames.
Qed.

Lemma frames_set_weight {F} (n : nat) (r : ref) (v : list nat) :
  (n <= r)%nat -> frames (F:=F) n (set_weight r v) (fun _ => True).
Proof.
  intros Hr. unfold set_weight.
  eapply frames_bind; [apply frames_get_frame|]. intros df _.
  destruct (Nat.eqb _ _); auto with frames.
Qed.

Lemma frames_set_balance {F} (n : nat) (r : ref) (v : list F) :
  (n <= r)%nat -> frames (F:=F) n (set_balance r v) (fun _ => True).
Proof.
  intros Hr. unfold set_balance.
  eapply frames_bind; [apply frames_get_frame|]. intros df _.
  destruct (Nat.eqb _ _); auto with frames.
Qed.

Lemma frames_local {F A} (n : nat) (name : string) (v : option A) :
  frames (F:=F) n (local name v) (fun _ => True).
Proof. destruct v; simpl; auto with frames. Qed.

Lemma frames_compute_cluster {F} {num : Number F}
      (linkage : list F -> Dendrogram F) (n : nat) (g : ref) :
  (n <= g)%nat ->
  frames n (__compute_cluster linkage g) (fun res => snd res = g).
Proof.
  intros Hg. unfold __compute_cluster.
  eapply frames_bind; [apply frames_get_frame|]. intros df _.
  eapply frames_bind with (Q := fun _ => True).
  - destruct (Nat.ltb _ _); [|apply frames_ret; exact I].
    eapply frames_bind; [apply frames_lift|]. intros t _.
    eapply frames_bind; [apply frames_set_cluster; exact Hg|]. intros _ _.
    eapply frames_bind; [apply frames_set_weight; exact Hg|]. intros _ _.
    eapply frames_bind; [apply frames_set_balance; exact Hg|]. intros _ _.
    apply frames_ret; exact I.
  - intros [l m] _.
    eapply frames_bind; [apply frames_local|]. intros l' _.
    eapply frames_bind; [apply frames_local|]. intros m' _.
    apply frames_ret. reflexivity.
Qed.

Lemma frames_save_pymol {F} (n : nat) (r : ref) (out : string) :
  frames (F:=F) n (save_pharmacophore_to_pymol r out) (fun _ => True).
Proof.
  unfold save_pharmacophore_to_pymol.
  eapply frames_bind; [apply frames_get_frame|]. intros df _.
  eapply frames_bind with (Q := fun _ => True); [|intros; apply frames_write_file].
  destruct (df_rows df); [apply frames_ret; exact I|].
  eapply frames_bind; [apply frames_lift|]. intros _ _.
  eapply frames_bind; [apply frames_lift|]. intros _ _.
  eapply frames_bind; [apply frames_lift|]. intros _ _.
  apply frames_ret; exact I.
Qed.

Lemma frames_process_group {F} {num : Number F}
      (linkage : list F -> Dendrogram F) (n : nat) (table : DataFrame F)
      (save : bool) (out : string) acc (group : string) :
  frames n (process_group linkage table save out acc group) (fun _ => True).
Proof.
  unfold process_group. destruct acc as [[Concensus Links] index].
  eapply frames_bind; [apply frames_alloc|]. intros g Hg.
  eapply frames_bind; [apply frames_compute_cluster; exact Hg|].
  intros [[l m] dc] Hdc. simpl in Hdc. subst dc.
  eapply frames_bind with (Q := fun _ => True).
  { destruct save; [|apply frames_ret; exact I].
    eapply frames_bind; [apply frames_save_pymol|]. intros _ _.
    apply frames_write_file. }
  intros _ _.
  eapply frames_bind; [apply frames_get_frame|]. intros dc _.
  eapply frames_bind; [apply frames_lift|]. intros cc _.
  eapply frames_bind; [apply frames_lift|]. intros [C i] _.
  apply frames_ret; exact I.
Qed.

Lemma frames_for_each {F A S} (n : nat) (xs : list A) (body : S -> A -> M F S) (s : S) :
  (forall s x, frames n (body s x) (fun _ => True)) ->
  frames n (for_each xs body s) (fun _ => True).
Proof.
  intros Hb. revert s. induction xs as [|x xs IH]; intros s; simpl.
  - apply frames_ret; exact I.
  - eapply frames_bind; [apply Hb|]. intros s' _. apply IH.
Qed.

Lemma frames_compute_concensus {F} {num : Number F}
      (linkage : list F -> Dendrogram F) (n : nat) (table : ref)
      (save : bool) (out : string) (h_dist : F) :
  frames n (compute_concensus_pharmacophore linkage table save out h_dist)
         (fun _ => True).
Proof.
  unfold compute_concensus_pharmacophore.
  eapply frames_bind; [apply frames_get_frame|]. intros df _.
  eapply frames_bind.
  - apply frames_for_each. intros s x. apply frames_process_group.
  - intros [[C L] i] _. apply frames_ret; exact I.
Qed.

(** C9: every DataFrame object that exists when
    [compute_concensus_pharmacophore] is called, the caller's input table
    among them, is the same after the call, whether the call returns or
    raises: the cluster, weight and balance columns are only ever set on
    the objects returned by [get_group].  This holds for every number
    type, binary64 included. *)
Theorem C9_input_table_unchanged :
  forall (F : Type) (num : Number F)
         (linkage : list F -> Dendrogram F) (w : World F) (table : ref)
         (save_data_per_descriptor : bool) (out_folder : string) (h_dist : F),
    let w' := snd (compute_concensus_pharmacophore
                     linkage table save_data_per_descriptor out_folder h_dist w) in
    nth_error (heap w') table = nth_error (heap w) table /\
    forall r, (r < List.length (heap w))%nat ->
              nth_error (heap w') r = nth_error (heap w) r.
Proof.
  intros F num linkage w table save out h_dist w'.
  assert (K : keeps (List.length (heap w)) w w').
  { apply (@frames_compute_concensus F num linkage (List.length (heap w)) table
             save out h_dist w (Nat.le_refl _)). }
  split; [|apply K].
  destruct (Nat.lt_ge_cases table (List.length (heap w))) as [Hlt|Hge].
  - now apply K.
  - subst w'. unfold compute_concensus_pharmacophore, bind, get_frame.
    apply nth_error_None in Hge. rewrite Hge. simpl. exact Hge.
Qed.

(** C10: the value of [h_dist] has no effect on the call: the returned
    [Concensus] table and [Links] dict, and the store and files left
    behind, are the same for any two values.  The parameter is bound by
    the signature and never read: the threshold is [0.17*dm.max()].  This
    holds for every number type, binary64 included. *)
Theorem C10_result_independent_of_h_dist :
  forall (F : Type) (num : Number F)
         (linkage : list F -> Dendrogram F) (w : World F) (table : ref)
         (save_data_per_descriptor : bool) (out_folder : string) (a b : F),
    compute_concensus_pharmacophore linkage table save_data_per_descriptor out_folder a w
    = compute_concensus_pharmacophore linkage table save_data_per_descriptor out_folder b w.
Proof. reflexivity. Qed.

(** ** The Cluster Reducer *)

Lemma Rsum_map_INR (W : list nat) : Rsum (map INR W) = INR (list_sum W).
Proof.
  induction W as [|k W IH]; simpl; auto.
  rewrite plus_INR, IH. reflexivity.
Qed.

Lemma combine_map_r {A B C} (f : B -> C) (l : list A) (l' : list B) :
  combine l (map f l') = map (fun ab => (fst ab, f (snd ab))) (combine l l').
Proof.
  revert l'. induction l as [|a l IH]; intros [|b l']; simpl; auto.
  now rewrite IH.
Qed.

Lemma weighted_sum_INR (vals : list R) (W : list nat) :
  np_sum (map (fun aw => (fst aw * snd aw)%num) (combine vals (map (@of_nat R _) W)))
  = Rsum (map (fun vw => fst vw * INR (snd vw))%R (combine vals W)).
Proof.
  rewrite np_sum_Rsum, combine_map_r, map_map. reflexivity.
Qed.

Lemma np_average_weighted_mean (xs ys zs : list R) (W : list nat) :
  (0 < list_sum W)%nat ->
  np_average [xs; ys; zs] (map (@of_nat R _) W)
  = Ok [weighted_mean xs W; weighted_mean ys W; weighted_mean zs W].
Proof.
  intros Hpos. unfold np_average.
  assert (Hs : np_sum (map (@of_nat R _) W) = INR (list_sum W)).
  { rewrite np_sum_Rsum. apply Rsum_map_INR. }
  rewrite Hs. Rnum.
  assert (Hne : INR (list_sum W) <> 0%R).
  { apply not_0_INR. lia. }
  apply Reqb_false in Hne. rewrite Hne.
  simpl map. rewrite !weighted_sum_INR. reflexivity.
Qed.

Lemma norm_distance_to (cx cy cz : R) (p : Point R) :
  np_linalg_norm (np_subtract [cx; cy; cz] (xyz p)) = distance_to cx cy cz p.
Proof.
  unfold np_linalg_norm, np_subtract, distance_to, xyz.
  rewrite np_sum_Rsum. simpl. Rnum. f_equal. lra.
Qed.

Lemma raw_radius_spec (cx cy cz : R) (rows : list (Point R)) :
  rows <> [] ->
  exists raw,
    raw_radius [cx; cy; cz] rows = Ok raw /\
    (forall p, In p rows -> (distance_to cx cy cz p / 2 <= raw)%R) /\
    (exists p, In p rows /\ raw = (distance_to cx cy cz p / 2)%R).
Proof.
  intros Hne. unfold raw_radius.
  set (ds := map _ rows).
  assert (Hds : ds = map (distance_to cx cy cz) rows).
  { unfold ds. apply map_ext. intros p. apply norm_distance_to. }
  assert (Hne' : ds <> []).
  { rewrite Hds. destruct rows; [congruence|discriminate]. }
  destruct (np_max_spec Hne') as (m & Hm & Hin & Hall).
  rewrite Hm. simpl. Rnum. eexists. split; [reflexivity|]. split.
  - intros p Hp. rewrite Forall_forall in Hall.
    assert (distance_to cx cy cz p <= m)%R.
    { apply Hall. rewrite Hds. now apply in_map. }
    lra.
  - rewrite Hds in Hin. apply in_map_iff in Hin. destruct Hin as (p & Hp & Hin).
    exists p. split; auto. now rewrite Hp.
Qed.

Lemma clamp_radius_floor (names : list string) (radius : R) :
  (has_hydrophobic names = true -> 1 <= clamp_radius names radius)%R /\
  (has_hydrophobic names = false -> 0.5 <= clamp_radius names radius)%R.
Proof.
  unfold clamp_radius. Rnum.
  destruct (has_hydrophobic names); simpl; split; intros E; try discriminate.
  - destruct (Rltb radius 1) eqn:L; simpl.
    + lra.
    + apply Rltb_false in L. rewrite andb_false_r. exact L.
  - rewrite andb_false_r, andb_true_r.
    destruct (Rltb radius 0.5) eqn:L.
    + lra.
    + apply Rltb_false in L. exact L.
Qed.

Lemma has_hydrophobic_uniform (rows : list (Point R)) (ty : string) :
  rows <> [] -> Forall (fun p => p_name p = ty) rows ->
  has_hydrophobic (map (@p_name R) rows) = String.eqb "Hydrophobic" ty.
Proof.
  intros Hne Hall. unfold has_hydrophobic.
  induction Hall as [|p rows Hp Hall IH]; [congruence|].
  cbn [map existsb]. rewrite Hp.
  destruct (String.eqb "Hydrophobic" ty) eqn:E; cbn [orb]; auto.
  destruct rows as [|q rows]; [reflexivity|].
  apply IH. discriminate.
Qed.

Lemma reducer_returns (table : DataFrame R) (W : list nat) :
  df_weight table = Some W ->
  df_rows table <> [] ->
  (0 < list_sum W)%nat ->
  let rows := df_rows table in
  let cx := weighted_mean (map (@p_x R) rows) W in
  let cy := weighted_mean (map (@p_y R) rows) W in
  let cz := weighted_mean (map (@p_z R) rows) W in
  exists raw,
    raw_radius [cx; cy; cz] rows = Ok raw /\
    __compute_center_of_mass_and_radius table
    = Ok ([cx; cy; cz], clamp_radius (map (@p_name R) rows) raw).
Proof.
  intros HW Hne Hpos rows cx cy cz.
  destruct (raw_radius_spec cx cy cz Hne) as (raw & Hraw & _).
  exists raw. split; [exact Hraw|].
  unfold __compute_center_of_mass_and_radius. rewrite HW. simpl.
  rewrite np_average_weighted_mean by exact Hpos. simpl.
  unfold cx, cy, cz, rows in Hraw. rewrite Hraw. reflexivity.
Qed.

(** The consensus row built from what the Cluster Reducer returns. *)
Lemma reduce_cluster_row {F} {num : Number F} (group : string)
      (dc : DataFrame F) (clusters : list nat) (cg : nat)
      (Concensus : list (ConsensusPoint F)) (index : nat)
      (center_of_mass : list F) (radius : F) (p : Point F)
      (rest : list (Point F)) (B : list F) :
  let clus := get_group_by_cluster dc clusters cg in
  __compute_center_of_mass_and_radius clus = Ok (center_of_mass, radius) ->
  df_rows clus = p :: rest ->
  df_balance clus = Some B ->
  reduce_cluster group dc clusters (Concensus, index) cg
  = Ok (Concensus ++
        [{| c_index := index;
            c_name := group;
            c_cluster := cg;
            c_x := nth 0 center_of_mass lit_0;
            c_y := nth 1 center_of_mass lit_0;
            c_z := nth 2 center_of_mass lit_0;
            c_radius := radius;
            c_color := p_color p;
            c_weight := S (List.length rest);
            c_balance := series_mean B |}],
        S index).
Proof.
  intros clus Hred Hrows HB. unfold reduce_cluster. fold clus.
  rewrite Hred. cbn [result_bind]. rewrite Hrows. cbn [result_bind].
  rewrite HB. reflexivity.
Qed.



(** ** Weights and balances *)

Lemma Rabs_mul_self (a : R) : (Rabs a * Rabs a = a * a)%R.
Proof. unfold Rabs. destruct (Rcase_abs a); ring. Qed.

Lemma minkowski_point_distance (p q : Point R) :
  minkowski_distance (xyz p) (xyz q) = point_distance p q.
Proof.
  unfold minkowski_distance, point_distance, xyz.
  rewrite np_sum_Rsum. simpl. Rnum. rewrite !Rabs_mul_self. f_equal. ring.
Qed.

Lemma distance_matrix_points (rows : list (Point R)) :
  distance_matrix (map (@xyz R) rows) (map (@xyz R) rows) = point_distances rows.
Proof.
  unfold distance_matrix, point_distances.
  rewrite map_map. apply map_ext. intros p.
  rewrite map_map. apply map_ext. intros q.
  apply minkowski_point_distance.
Qed.

Lemma length_filter_map {A B} (f : B -> bool) (g : A -> B) (l : list A) :
  List.length (filter f (map g l)) = List.length (filter (fun a => f (g a)) l).
Proof.
  induction l as [|a l IH]; simpl; auto.
  destruct (f (g a)); simpl; auto.
Qed.

Lemma weights_of_points (rows : list (Point R)) :
  weights_of (point_distances rows)
  = map (fun p => List.length (neighbours rows p)) rows.
Proof.
  unfold weights_of, point_distances, neighbours.
  rewrite map_map. apply map_ext. intros p.
  apply length_filter_map.
Qed.

Lemma point_distance_self (p : Point R) : point_distance p p = 0%R.
Proof.
  unfold point_distance.
  replace ((p_x p - p_x p) * (p_x p - p_x p) + (p_y p - p_y p) * (p_y p - p_y p)
           + (p_z p - p_z p) * (p_z p - p_z p))%R with 0%R by ring.
  apply sqrt_0.
Qed.

Lemma neighbours_self (rows : list (Point R)) (p : Point R) :
  In p rows -> In p (neighbours rows p).
Proof.
  intros Hin. unfold neighbours. apply filter_In. split; auto.
  apply Rleb_true. rewrite point_distance_self. lra.
Qed.

Lemma neighbours_count_positive (rows : list (Point R)) (p : Point R) :
  In p rows -> (1 <= List.length (neighbours rows p))%nat.
Proof.
  intros Hin. apply neighbours_self in Hin.
  destruct (neighbours rows p); [contradiction|simpl; lia].
Qed.

Lemma weights_positive (rows : list (Point R)) :
  Forall (fun k => (1 <= k)%nat) (weights_of (point_distances rows)).
Proof.
  rewrite weights_of_points. apply Forall_forall. intros k Hk.
  apply in_map_iff in Hk. destruct Hk as (p & <- & Hp).
  now apply neighbours_count_positive.
Qed.

Lemma list_sum_positive (W : list nat) :
  W <> [] -> Forall (fun k => (1 <= k)%nat) W -> (0 < list_sum W)%nat.
Proof.
  intros Hne Hall. destruct Hall; [congruence|]. simpl. lia.
Qed.

Lemma Rsum_map_div (W : list nat) (s : R) :
  Rsum (map (fun k => INR k / s)%R W) = (INR (list_sum W) / s)%R.
Proof.
  induction W as [|k W IH]; simpl.
  - lra.
  - rewrite IH, plus_INR. lra.
Qed.

Lemma normalize_l1_counts (W : list nat) :
  (0 < list_sum W)%nat ->
  normalize_l1 (map (@of_nat R _) W)
  = map (fun k => INR k / INR (list_sum W))%R W.
Proof.
  intros Hpos. unfold normalize_l1.
  assert (Hs : np_sum (map (@nabs R _) (map (@of_nat R _) W)) = INR (list_sum W)).
  { rewrite np_sum_Rsum, map_map. Rnum.
    rewrite <- Rsum_map_INR. f_equal. apply map_ext.
    intros k. apply Rabs_pos_eq, pos_INR. }
  rewrite Hs. Rnum.
  assert (Hne : INR (list_sum W) <> 0%R) by (apply not_0_INR; lia).
  apply Reqb_false in Hne. rewrite Hne. apply map_map.
Qed.

(** C5: on a group of more than two points, [__compute_cluster] stores as
    each point's weight the number of points of the group, the point itself
    included, whose Euclidean distance to it is at most 1.5; every weight
    is at least 1. *)
Theorem C5_weight_counts_points_within_1_5 :
  forall (linkage : list R -> Dendrogram R) (w : World R) (table : ref)
         (df : DataFrame R),
    linkage_contract linkage ->
    nth_error (heap w) table = Some df ->
    (2 < List.length (df_rows df))%nat ->
    exists tree matrix w' df',
      __compute_cluster linkage table w = (Ok (tree, matrix, table), w') /\
      nth_error (heap w') table = Some df' /\
      df_rows df' = df_rows df /\
      df_weight df'
      = Some (map (fun p => List.length (neighbours (df_rows df) p)) (df_rows df)) /\
      (forall p, In p (df_rows df) -> In p (neighbours (df_rows df) p)) /\
      (forall p, In p (df_rows df) ->
                 (1 <= List.length (neighbours (df_rows df) p))%nat).
Proof.
  intros linkage w table df Hc Hdf Hn.
  destruct (compute_cluster_large w table Hc Hdf Hn) as (t & _ & Hrun).
  do 4 eexists. split; [exact Hrun|].
  split.
  { simpl. apply nth_error_array_set_same. apply nth_error_Some. congruence. }
  split; [reflexivity|]. split.
  { simpl. now rewrite distance_matrix_points, weights_of_points. }
  split; intros p Hp.
  - now apply neighbours_self.
  - now apply neighbours_count_positive.
Qed.

(** C4: on a group of more than two points, [__compute_cluster] stores as
    each point's balance its weight divided by the sum of the weights of
    the group, and the balances of the group add up to 1. *)
Theorem C4_balance_is_weight_over_sum :
  forall (linkage : list R -> Dendrogram R) (w : World R) (table : ref)
         (df : DataFrame R),
    linkage_contract linkage ->
    nth_error (heap w) table = Some df ->
    (2 < List.length (df_rows df))%nat ->
    exists tree matrix w' df' weight balance,
      __compute_cluster linkage table w = (Ok (tree, matrix, table), w') /\
      nth_error (heap w') table = Some df' /\
      df_weight df' = Some weight /\
      df_balance df' = Some balance /\
      List.length weight = List.length (df_rows df) /\
      balance = map (fun k => INR k / INR (list_sum weight))%R weight /\
      Rsum balance = 1%R.
Proof.
  intros linkage w table df Hc Hdf Hn.
  destruct (compute_cluster_large w table Hc Hdf Hn) as (t & _ & Hrun).
  set (W := weights_of (distance_matrix (map (@xyz R) (df_rows df))
                                        (map (@xyz R) (df_rows df)))) in *.
  assert (HlenW : List.length W = List.length (df_rows df)).
  { unfold W. now rewrite length_weights_of, length_distance_matrix, length_map. }
  assert (Hpos : (0 < list_sum W)%nat).
  { apply list_sum_positive.
    - intros E. rewrite E in HlenW. simpl in HlenW. lia.
    - unfold W. rewrite distance_matrix_points. apply weights_positive. }
  exists (linkage (pdist (distance_matrix (map (@xyz R) (df_rows df))
                                           (map (@xyz R) (df_rows df))))).
  do 3 eexists. exists W. eexists.
  split; [exact Hrun|]. split.
  { simpl. apply nth_error_array_set_same. apply nth_error_Some. congruence. }
  split; [reflexivity|]. split; [reflexivity|]. split; [exact HlenW|].
  rewrite normalize_l1_counts by exact Hpos. split; [reflexivity|].
  rewrite Rsum_map_div. apply Rdiv_diag. apply not_0_INR. lia.
Qed.

(** ** The walk of [fcluster] *)

Section FlatClusters.

Context {F : Type} {num : Number F}.
Variable cutoff : F.

Lemma label_child_inner (t : Dendrogram F) (led : bool) (nc : nat) (T : list nat) :
  is_leaf t = false ->
  label_child cutoff t led nc T = cluster_monocrit t cutoff led nc T.
Proof. destruct t; [discriminate|reflexivity]. Qed.

Lemma cluster_monocrit_merge (d : F) (l r : Dendrogram F) (led : bool)
      (nc : nat) (T : list nat) :
  cluster_monocrit (Merge d l r) cutoff led nc T =
  let here := negb led && below cutoff (Merge d l r) in
  let nc0 := if here then S nc else nc in
  let led' := led || here in
  if is_leaf l && negb (is_leaf r) then
    label_child cutoff l led' (fst (label_child cutoff r led' nc0 T))
                (snd (label_child cutoff r led' nc0 T))
  else
    label_child cutoff r led' (fst (label_child cutoff l led' nc0 T))
                (snd (label_child cutoff l led' nc0 T)).
Proof.
  unfold below. cbn [cluster_monocrit]. cbv zeta.
  destruct (is_leaf l) eqn:El; destruct (is_leaf r) eqn:Er; cbn [andb negb].
  - destruct l; try discriminate. destruct r; try discriminate. reflexivity.
  - rewrite (label_child_inner r) by exact Er.
    match goal with
    | |- context [cluster_monocrit r cutoff ?a ?b ?c] =>
        destruct (cluster_monocrit r cutoff a b c) as [nc1 T1]
    end.
    destruct l; try discriminate. destruct r; try discriminate. reflexivity.
  - rewrite (label_child_inner l) by exact El.
    match goal with
    | |- context [cluster_monocrit l cutoff ?a ?b ?c] =>
        destruct (cluster_monocrit l cutoff a b c) as [nc1 T1]
    end.
    destruct l; try discriminate. destruct r; try discriminate. reflexivity.
  - rewrite (label_child_inner l) by exact El.
    match goal with
    | |- context [cluster_monocrit l cutoff ?a ?b ?c] =>
        destruct (cluster_monocrit l cutoff a b c) as [nc1 T1]
    end.
    cbn [fst snd].
    rewrite (label_child_inner r) by exact Er.
    match goal with
    | |- context [cluster_monocrit r cutoff ?a ?b ?c] =>
        destruct (cluster_monocrit r cutoff a b c) as [nc2 T2]
    end.
    destruct l; try discriminate. destruct r; try discriminate. reflexivity.
Qed.

Lemma labelled_leaf (i : nat) (led : bool) (nc : nat) (T : list nat) :
  (i < List.length T)%nat ->
  labelled [i] (fun _ _ => False) led nc T
           (if led then nc else S nc)
           (array_set T i (if led then nc else S nc)).
Proof.
  intros Hi. split; [apply length_array_set|]. split.
  - intros k Hk. apply nth_array_set_other. intros E. apply Hk. now left.
  - destruct led.
    + split; auto. intros k [<-|[]]. now apply nth_array_set_same.
    + split; [lia|]. split; [|split].
      * intros k [<-|[]]. rewrite nth_array_set_same by exact Hi. lia.
      * intros v Hv. exists i. split; [now left|].
        rewrite nth_array_set_same by exact Hi. lia.
      * intros a b [<-|[]] [<-|[]]. split; auto.
Qed.

Lemma labelled_seq_led (La Lb Lt : list nat) (Ja Jb Jt : nat -> nat -> Prop)
      (nc nc1 nc2 : nat) (T T1 T2 : list nat) :
  (forall i, In i Lt <-> In i La \/ In i Lb) ->
  labelled La Ja true nc T nc1 T1 ->
  labelled Lb Jb true nc1 T1 nc2 T2 ->
  labelled Lt Jt true nc T nc2 T2.
Proof.
  intros Hu (LenA & FrA & EA & SetA) (LenB & FrB & EB & SetB).
  split; [congruence|]. split; [|split; [congruence|]].
  - intros i Hi. rewrite FrB, FrA; auto; intros Hin; apply Hi, Hu; auto.
  - intros i Hi. apply Hu in Hi.
    destruct (in_dec Nat.eq_dec i Lb) as [Hb|Hb].
    + rewrite SetB by exact Hb. congruence.
    + destruct Hi as [Ha|Hb']; [|contradiction].
      rewrite FrB by exact Hb. now apply SetA.
Qed.

Lemma labelled_leader (Lt : list nat) (J Jt : nat -> nat -> Prop)
      (nc nc2 : nat) (T T2 : list nat) :
  Lt <> [] ->
  (forall i j, In i Lt -> In j Lt -> Jt i j) ->
  labelled Lt J true (S nc) T nc2 T2 ->
  labelled Lt Jt false nc T nc2 T2.
Proof.
  intros Hne HJ (Len & Fr & E & Set').
  split; [exact Len|]. split; [exact Fr|]. subst nc2.
  split; [lia|]. split; [|split].
  - intros i Hi. rewrite Set' by exact Hi. lia.
  - intros v Hv. destruct Lt as [|i Lt]; [congruence|].
    exists i. split; [now left|]. rewrite Set' by (now left). lia.
  - intros i j Hi Hj. rewrite !Set' by assumption. split; auto.
Qed.

Lemma labelled_seq_free (La Lb Lt : list nat) (Ja Jb Jt : nat -> nat -> Prop)
      (nc nc1 nc2 : nat) (T T1 T2 : list nat) :
  (forall i, In i Lt <-> In i La \/ In i Lb) ->
  (forall i, In i La -> In i Lb -> False) ->
  (forall i j, Ja i j -> In i La /\ In j La) ->
  (forall i j, Jb i j -> In i Lb /\ In j Lb) ->
  (forall i j, Jt i j <-> Ja i j \/ Jb i j) ->
  labelled La Ja false nc T nc1 T1 ->
  labelled Lb Jb false nc1 T1 nc2 T2 ->
  labelled Lt Jt false nc T nc2 T2.
Proof.
  intros Hu Hd HJa HJb HJt (LenA & FrA & LtA & RaA & SuA & EqA)
         (LenB & FrB & LtB & RaB & SuB & EqB).
  assert (KeepA : forall i, In i La -> nth i T2 0 = nth i T1 0).
  { intros i Hi. apply FrB. intros Hb. exact (Hd i Hi Hb). }
  split; [congruence|]. split; [|split; [lia|split; [|split]]].
  - intros i Hi. rewrite FrB, FrA; auto; intros Hin; apply Hi, Hu; auto.
  - intros i Hi. apply Hu in Hi. destruct Hi as [Ha|Hb].
    + rewrite KeepA by exact Ha. specialize (RaA i Ha). lia.
    + specialize (RaB i Hb). lia.
  - intros v Hv. destruct (Nat.le_gt_cases v nc1) as [Hle|Hgt].
    + destruct (SuA v ltac:(lia)) as (i & Hi & Hv').
      exists i. split; [apply Hu; now left|]. now rewrite KeepA.
    + destruct (SuB v ltac:(lia)) as (i & Hi & Hv').
      exists i. split; [apply Hu; now right|]. exact Hv'.
  - intros i j Hi Hj. apply Hu in Hi. apply Hu in Hj. rewrite HJt.
    destruct Hi as [Hia|Hib], Hj as [Hja|Hjb].
    + rewrite !KeepA by assumption. rewrite EqA by assumption.
      split; [intros [E|E]; auto|].
      intros [E|[E|E]]; auto.
      destruct (HJb _ _ E) as [Hib _]. destruct (Hd i Hia Hib).
    + specialize (RaA i Hia). specialize (RaB j Hjb).
      rewrite KeepA by exact Hia. split.
      * intros E. lia.
      * intros [E|[E|E]].
        -- subst j. destruct (Hd i Hia Hjb).
        -- destruct (HJa _ _ E) as [_ Hja]. destruct (Hd j Hja Hjb).
        -- destruct (HJb _ _ E) as [Hib _]. destruct (Hd i Hia Hib).
    + specialize (RaB i Hib). specialize (RaA j Hja).
      rewrite (KeepA j) by exact Hja. split.
      * intros E. lia.
      * intros [E|[E|E]].
        -- subst j. destruct (Hd i Hja Hib).
        -- destruct (HJa _ _ E) as [Hia _]. destruct (Hd i Hia Hib).
        -- destruct (HJb _ _ E) as [_ Hjb]. destruct (Hd j Hja Hjb).
    + rewrite EqB by assumption.
      split; [intros [E|E]; auto|].
      intros [E|[E|E]]; auto.
      destruct (HJa _ _ E) as [Hia _]. destruct (Hd i Hia Hib).
Qed.

Lemma NoDup_app_disjoint (l l' : list nat) (a : nat) :
  NoDup (l ++ l') -> In a l -> In a l' -> False.
Proof.
  induction l as [|x l IH]; simpl; [tauto|].
  intros Hnd [->|Hl] Hl'.
  - inversion Hnd; subst. apply H1, in_or_app. now right.
  - inversion Hnd; subst. now apply IH.
Qed.

Lemma joined_leaves (t : Dendrogram F) (i j : nat) :
  joined cutoff t i j -> In i (leaves t) /\ In j (leaves t).
Proof.
  induction t as [k|d l IHl r IHr]; simpl; [tauto|].
  intros [(_ & Hi & Hj)|[H|H]].
  - auto.
  - destruct (IHl H). split; apply in_or_app; auto.
  - destruct (IHr H). split; apply in_or_app; auto.
Qed.

Lemma leaves_nonempty (t : Dendrogram F) : leaves t <> [].
Proof.
  intros E. apply (f_equal (@List.length nat)) in E.
  rewrite length_leaves in E. discriminate.
Qed.

(** The walk labels the observations under a node as [labelled] says. *)
Lemma label_child_labelled (t : Dendrogram F) :
  NoDup (leaves t) ->
  forall (led : bool) (nc : nat) (T : list nat),
    (forall i, In i (leaves t) -> (i < List.length T)%nat) ->
    labelled (leaves t) (joined cutoff t) led nc T
             (fst (label_child cutoff t led nc T)) (snd (label_child cutoff t led nc T)).
Proof.
  induction t as [k|d l IHl r IHr]; intros Hnd led nc T Hin.
  - cbn [label_child fst snd leaves].
    assert (Hk : (k < List.length T)%nat) by (apply Hin; now left).
    exact (@labelled_leaf k led nc T Hk).
  - cbn [leaves] in Hnd, Hin.
    assert (Hndl : NoDup (leaves l)) by (eapply NoDup_app_remove_r; eauto).
    assert (Hndr : NoDup (leaves r)) by (eapply NoDup_app_remove_l; eauto).
    specialize (IHl Hndl). specialize (IHr Hndr).
    assert (Hd : forall i, In i (leaves l) -> In i (leaves r) -> False).
    { intros i Hl Hr. exact (NoDup_app_disjoint _ _ _ Hnd Hl Hr). }
    assert (Hinl : forall T' : list nat, List.length T' = List.length T ->
                   forall i, In i (leaves l) -> (i < List.length T')%nat).
    { intros T' E i Hi. rewrite E. apply Hin, in_or_app; auto. }
    assert (Hinr : forall T' : list nat, List.length T' = List.length T ->
                   forall i, In i (leaves r) -> (i < List.length T')%nat).
    { intros T' E i Hi. rewrite E. apply Hin, in_or_app; auto. }
    assert (Hu : forall i, In i (leaves (Merge d l r))
                           <-> In i (leaves l) \/ In i (leaves r)).
    { intros i. cbn [leaves]. apply in_app_iff. }
    assert (Hu' : forall i, In i (leaves (Merge d l r))
                            <-> In i (leaves r) \/ In i (leaves l)).
    { intros i. rewrite Hu. tauto. }
    change (label_child cutoff (Merge d l r) led nc T)
      with (cluster_monocrit (Merge d l r) cutoff led nc T).
    rewrite cluster_monocrit_merge. cbv zeta.
    set (here := negb led && below cutoff (Merge d l r)).
    set (nc0 := if here then S nc else nc).
    set (led' := led || here).
    (* the two children, in the order in which the walk takes them *)
    assert (Two : forall a b,
      (forall i, In i (leaves (Merge d l r)) <-> In i (leaves a) \/ In i (leaves b)) ->
      (forall i, In i (leaves a) -> In i (leaves b) -> False) ->
      (forall i j, joined cutoff (Merge d l r) i j <->
                   (below cutoff (Merge d l r) = true /\ In i (leaves (Merge d l r))
                    /\ In j (leaves (Merge d l r)))
                   \/ joined cutoff a i j \/ joined cutoff b i j) ->
      (forall led nc T, (forall i, In i (leaves a) -> (i < List.length T)%nat) ->
         labelled (leaves a) (joined cutoff a) led nc T
                  (fst (label_child cutoff a led nc T)) (snd (label_child cutoff a led nc T))) ->
      (forall led nc T, (forall i, In i (leaves b) -> (i < List.length T)%nat) ->
         labelled (leaves b) (joined cutoff b) led nc T
                  (fst (label_child cutoff b led nc T)) (snd (label_child cutoff b led nc T))) ->
      (forall T' : list nat, List.length T' = List.length T ->
                  forall i, In i (leaves a) -> (i < List.length T')%nat) ->
      (forall T' : list nat, List.length T' = List.length T ->
                  forall i, In i (leaves b) -> (i < List.length T')%nat) ->
      labelled (leaves (Merge d l r)) (joined cutoff (Merge d l r)) led nc T
        (fst (label_child cutoff b led' (fst (label_child cutoff a led' nc0 T))
                          (snd (label_child cutoff a led' nc0 T))))
        (snd (label_child cutoff b led' (fst (label_child cutoff a led' nc0 T))
                          (snd (label_child cutoff a led' nc0 T))))).
    { intros a b Hab Hdab HJ IHa IHb Hina Hinb.
      pose proof (IHa led' nc0 T (Hina T eq_refl)) as LA.
      destruct (label_child cutoff a led' nc0 T) as [nc1 T1]. cbn [fst snd] in *.
      assert (Len1 : List.length T1 = List.length T) by (apply LA).
      pose proof (IHb led' nc1 T1 (Hinb T1 Len1)) as LB.
      destruct (label_child cutoff b led' nc1 T1) as [nc2 T2]. cbn [fst snd] in *.
      destruct led.
      - (* under a leader set above *)
        subst here led' nc0. cbn [negb andb orb] in *.
        eapply labelled_seq_led; eauto.
      - destruct (below cutoff (Merge d l r)) eqn:Hb.
        + (* this node becomes the leader *)
          subst here led' nc0. cbn [negb andb orb] in *.
          apply labelled_leader with (J := joined cutoff (Merge d l r)).
          * apply leaves_nonempty.
          * intros i j Hi Hj. apply HJ. left. auto.
          * eapply labelled_seq_led; eauto.
        + (* no leader here: the children open their own clusters *)
          subst here led' nc0. cbn [negb andb orb] in *.
          eapply labelled_seq_free with (Ja := joined cutoff a) (Jb := joined cutoff b); eauto.
          * apply joined_leaves.
          * apply joined_leaves.
          * intros i j. rewrite HJ. split; [|tauto].
            intros [(E & _)|H]; [discriminate|exact H]. }
    destruct (is_leaf l && negb (is_leaf r)).
    + apply (Two r l); auto.
      * intros i Hr Hl. exact (Hd i Hl Hr).
      * intros i j. cbn [joined]. tauto.
    + apply (Two l r); auto.
      intros i j. cbn [joined]. tauto.
Qed.

End FlatClusters.

(** The flat clusters of a dendrogram over the observations [0 .. n-1]:
    ids are dense in [1, k], and two observations share an id exactly when
    they are joined at or below the cutoff. *)
Lemma fcluster_spec {F} {num : Number F} (Z : Dendrogram F) (t : F) (n : nat) :
  (2 <= n)%nat ->
  Permutation (leaves Z) (seq 0 n) ->
  List.length (fcluster Z t) = n /\
  exists k,
    (1 <= k)%nat /\
    (forall i, (i < n)%nat -> (1 <= nth i (fcluster Z t) 0 <= k)%nat) /\
    (forall v, (1 <= v <= k)%nat ->
               exists i, (i < n)%nat /\ nth i (fcluster Z t) 0 = v) /\
    (forall i j, (i < n)%nat -> (j < n)%nat ->
                 (nth i (fcluster Z t) 0 = nth j (fcluster Z t) 0
                  <-> i = j \/ joined t Z i j)).
Proof.
  intros Hn Hperm.
  assert (Hlen : num_obs_linkage Z = n).
  { unfold num_obs_linkage. rewrite <- length_leaves.
    rewrite (Permutation_length Hperm). apply length_seq. }
  assert (Hnd : NoDup (leaves Z)).
  { eapply Permutation_NoDup; [apply Permutation_sym; exact Hperm|].
    apply seq_NoDup. }
  assert (Hin : forall i, In i (leaves Z) <-> (i < n)%nat).
  { intros i. split; intros H.
    - eapply Permutation_in in H; [|exact Hperm]. apply in_seq in H. lia.
    - eapply Permutation_in; [apply Permutation_sym; exact Hperm|].
      apply in_seq. lia. }
  split; [now rewrite length_fcluster|].
  destruct Z as [i|d l r].
  { unfold num_obs_linkage in Hlen. simpl in Hlen. lia. }
  unfold fcluster. rewrite Hlen.
  pose proof (@label_child_labelled F num t (Merge d l r) Hnd false 0 (repeat 0 n)) as L.
  change (label_child t (Merge d l r) false 0 (repeat 0 n))
    with (cluster_monocrit (Merge d l r) t false 0 (repeat 0 n)) in L.
  destruct (cluster_monocrit (Merge d l r) t false 0 (repeat 0 n)) as [k T].
  cbn [fst snd] in *.
  destruct L as (_ & _ & Hk & Hra & Hsu & Heq).
  { intros i Hi. rewrite repeat_length. now apply Hin. }
  exists k. split; [lia|]. split; [|split].
  - intros i Hi. apply Hin in Hi. specialize (Hra i Hi). lia.
  - intros v Hv. destruct (Hsu v ltac:(lia)) as (i & Hi & E).
    exists i. split; auto. now apply Hin.
  - intros i j Hi Hj. apply Heq; now apply Hin.
Qed.

(** C8: on a group of more than two points, [__compute_cluster] stores one
    cluster id per point, and the ids used are exactly 1, ..., k for some
    k >= 1.  This holds for every number type, binary64 included. *)
Theorem C8_cluster_ids_dense :
  forall (F : Type) (num : Number F)
         (linkage : list F -> Dendrogram F) (w : World F) (table : ref)
         (df : DataFrame F),
    linkage_contract linkage ->
    nth_error (heap w) table = Some df ->
    (2 < List.length (df_rows df))%nat ->
    exists tree matrix w' df' clusters k,
      __compute_cluster linkage table w = (Ok (tree, matrix, table), w') /\
      nth_error (heap w') table = Some df' /\
      df_rows df' = df_rows df /\
      df_cluster df' = Some clusters /\
      List.length clusters = List.length (df_rows df) /\
      (1 <= k)%nat /\
      (forall c, In c clusters -> (1 <= c <= k)%nat) /\
      (forall v, (1 <= v <= k)%nat -> In v clusters).
Proof.
  intros F num linkage w table df Hc Hdf Hn.
  destruct (compute_cluster_large w table Hc Hdf Hn) as (t & _ & Hrun).
  set (matrix := distance_matrix (map (@xyz F) (df_rows df))
                                 (map (@xyz F) (df_rows df))) in *.
  set (n := List.length (df_rows df)) in *.
  assert (Hdm : (2 * List.length (pdist matrix) = n * (n - 1))%nat).
  { rewrite length_pdist. unfold matrix.
    now rewrite length_distance_matrix, length_map. }
  destruct (@fcluster_spec F num (linkage (pdist matrix)) t n ltac:(lia)
              (Hc n (pdist matrix) ltac:(lia) Hdm))
    as (Hlen & k & Hk & Hra & Hsu & _).
  exists (linkage (pdist matrix)), matrix. do 2 eexists.
  exists (fcluster (linkage (pdist matrix)) t), k.
  split; [exact Hrun|]. split.
  { simpl. apply nth_error_array_set_same. apply nth_error_Some. congruence. }
  split; [reflexivity|]. split; [reflexivity|]. split; [exact Hlen|].
  split; [exact Hk|]. split.
  - intros c Hin. destruct (In_nth _ _ 0%nat Hin) as (i & Hi & <-).
    apply Hra. now rewrite <- Hlen.
  - intros v Hv. destruct (Hsu v Hv) as (i & Hi & <-).
    apply nth_In. now rewrite Hlen.
Qed.

(** ** [complete_linkage] meets the contract *)

Section CompleteLinkageFacts.

Context {F : Type} {num : Number F}.

Lemma picks_permutation {A} (l : list A) (a : A) (rest : list A) :
  In (a, rest) (picks l) -> Permutation (a :: rest) l.
Proof.
  revert a rest. induction l as [|x l IH]; intros a rest; simpl; [tauto|].
  intros [E|Hin].
  - inversion E; subst. apply Permutation_refl.
  - apply in_map_iff in Hin. destruct Hin as ([b r] & E & Hin).
    simpl in E. inversion E; subst.
    apply IH in Hin.
    eapply Permutation_trans; [apply perm_swap|].
    now apply perm_skip.
Qed.

Lemma pairs_permutation {A} (l : list A) (a b : A) (rest : list A) :
  In (a, b, rest) (pairs l) -> Permutation (a :: b :: rest) l.
Proof.
  revert a b rest. induction l as [|x l IH]; intros a b rest; simpl; [tauto|].
  intros Hin. apply in_app_or in Hin. destruct Hin as [Hin|Hin].
  - apply in_map_iff in Hin. destruct Hin as ([c r] & E & Hin).
    simpl in E. inversion E; subst.
    apply perm_skip. now apply picks_permutation.
  - apply in_map_iff in Hin. destruct Hin as ([[c e] r] & E & Hin).
    simpl in E. inversion E; subst.
    apply IH in Hin.
    eapply Permutation_trans; [|apply perm_skip; exact Hin].
    eapply Permutation_trans; [apply perm_skip, perm_swap|].
    apply perm_swap.
Qed.

Lemma pairs_nonempty {A} (l : list A) :
  (2 <= List.length l)%nat -> pairs l <> [].
Proof.
  destruct l as [|a [|b l]]; simpl; try lia. discriminate.
Qed.

Lemma closest_in (n : nat) (y : list F) cands c :
  closest n y cands = Some c -> In c cands.
Proof.
  destruct cands as [|c0 r]; simpl; [discriminate|].
  intros E. inversion E; subst; clear E.
  revert c0. induction r as [|c1 r IH]; intros c0; simpl; [now left|].
  destruct (IH (if (pair_distance n y c1 <? pair_distance n y c0)%num
                then c1 else c0)) as [E|Hin].
  - destruct (pair_distance n y c1 <? pair_distance n y c0)%num; auto.
  - auto.
Qed.

Lemma leaves_merge_clusters (n : nat) (y : list F) (id : nat)
      (a b : nat * Dendrogram F) :
  Permutation (leaves (snd (merge_clusters n y id a b)))
              (leaves (snd a) ++ leaves (snd b)).
Proof.
  unfold merge_clusters. destruct (Nat.ltb (fst a) (fst b)); simpl.
  - apply Permutation_refl.
  - apply Permutation_app_comm.
Qed.

Lemma forest_leaves_permutation (l l' : list (nat * Dendrogram F)) :
  Permutation l l' -> Permutation (forest_leaves l) (forest_leaves l').
Proof. apply Permutation_flat_map. Qed.

Lemma agglomerate_spec (steps n : nat) (y : list F) :
  forall (id : nat) (active : list (nat * Dendrogram F)),
    (steps < List.length active)%nat ->
    List.length (agglomerate steps n y id active)
    = (List.length active - steps)%nat /\
    Permutation (forest_leaves (agglomerate steps n y id active))
                (forest_leaves active).
Proof.
  induction steps as [|steps IH]; intros id active Hlen; simpl.
  - split; [lia|apply Permutation_refl].
  - destruct (closest n y (pairs active)) as [[[a b] rest]|] eqn:E.
    + apply closest_in, pairs_permutation in E.
      pose proof (Permutation_length E) as HL. simpl in HL.
      destruct (IH (S id) (rest ++ [merge_clusters n y id a b])) as [L P].
      { rewrite length_app. simpl. lia. }
      split.
      * rewrite L, length_app. simpl. lia.
      * eapply Permutation_trans; [exact P|].
        eapply Permutation_trans;
          [|apply forest_leaves_permutation; exact E].
        unfold forest_leaves. rewrite flat_map_app. simpl.
        rewrite app_nil_r.
        eapply Permutation_trans; [apply Permutation_app_comm|].
        rewrite app_assoc. apply Permutation_app_tail.
        apply leaves_merge_clusters.
    + exfalso. destruct (pairs active) eqn:P.
      * apply pairs_nonempty in P; [exact P|lia].
      * discriminate.
Qed.

Lemma num_obs_y_condensed (n k : nat) :
  (2 <= n)%nat -> (2 * k = n * (n - 1))%nat -> num_obs_y k = n.
Proof.
  intros Hn Hk. unfold num_obs_y. rewrite Hk.
  apply Nat.sqrt_up_unique; [lia|].
  destruct n as [|n]; [lia|]. simpl. rewrite Nat.sub_0_r. nia.
Qed.

Lemma forest_leaves_singletons (start len : nat) :
  forest_leaves (map (fun i => (i, @Leaf F i)) (seq start len)) = seq start len.
Proof.
  revert start. induction len as [|len IH]; intros start; simpl; auto.
  now rewrite IH.
Qed.

Lemma complete_linkage_leaves (n : nat) (y : list F) :
  (2 <= n)%nat -> (2 * List.length y = n * (n - 1))%nat ->
  Permutation (leaves (complete_linkage y)) (seq 0 n).
Proof.
  intros Hn Hy. unfold complete_linkage.
  rewrite (@num_obs_y_condensed n (List.length y) Hn Hy).
  destruct (@agglomerate_spec (n - 1) n y n
              (map (fun i => (i, Leaf i)) (seq 0 n))) as [L P].
  { rewrite length_map, length_seq. lia. }
  rewrite length_map, length_seq in L.
  rewrite forest_leaves_singletons in P.
  destruct (agglomerate (n - 1) n y n (map (fun i => (i, Leaf i)) (seq 0 n)))
    as [|c [|c' rest]]; simpl in L; try lia.
  unfold forest_leaves in P. simpl in P. now rewrite app_nil_r in P.
Qed.

End CompleteLinkageFacts.

Lemma complete_linkage_contract {F} {num : Number F} :
  linkage_contract (@complete_linkage F num).
Proof. intros n y Hn Hy. now apply complete_linkage_leaves. Qed.

(** ** What is fed to the linkage: facts *)

Lemma pdist_map {A} (f : A -> list R) (l : list A) :
  pdist (map f l) = pairwise (fun a b => euclidean (f a) (f b)) l.
Proof.
  induction l as [|a l IH]; simpl; auto.
  now rewrite map_map, IH.
Qed.

Lemma combine_map_same {A B C} (f : A -> B) (g : A -> C) (l : list A) :
  combine (map f l) (map g l) = map (fun a => (f a, g a)) l.
Proof. induction l as [|a l IH]; simpl; auto. now rewrite IH. Qed.

Lemma euclidean_profiles (rows : list (Point R)) (p q : Point R) :
  euclidean (distance_profile rows p) (distance_profile rows q)
  = profile_distance rows p q.
Proof.
  unfold euclidean, distance_profile, profile_distance.
  rewrite np_sum_Rsum, combine_map_same, map_map. reflexivity.
Qed.

Lemma pdist_point_distances (rows : list (Point R)) :
  pdist (point_distances rows) = pairwise (profile_distance rows) rows.
Proof.
  unfold point_distances.
  change (map (fun p => map (fun q => point_distance p q) rows) rows)
    with (map (distance_profile rows) rows).
  rewrite pdist_map.
  assert (E : forall l, pairwise (fun a b => euclidean (distance_profile rows a)
                                                       (distance_profile rows b)) l
                        = pairwise (profile_distance rows) l).
  { induction l as [|a l IH]; cbn [pairwise]; auto.
    rewrite IH. f_equal. apply map_ext. intros b. apply euclidean_profiles. }
  apply E.
Qed.

Lemma spec_condensed_form_shift (d : Point R -> Point R -> R)
      (pre rest : list (Point R)) :
  spec_condensed_form (map (fun p => map (d p) (pre ++ rest)) rest) (List.length pre)
  = pairwise d rest.
Proof.
  revert pre. induction rest as [|a rest IH]; intros pre;
    cbn [map spec_condensed_form pairwise]; auto.
  f_equal.
  - rewrite map_app. cbn [map].
    replace (List.length pre) with (List.length (map (d a) pre))
      by apply length_map.
    change (d a a :: map (d a) rest) with ([d a a] ++ map (d a) rest).
    rewrite app_assoc.
    replace (S (List.length (map (d a) pre)))
      with (List.length (map (d a) pre ++ [d a a]))
      by (rewrite length_app; simpl; lia).
    now rewrite skipn_app, skipn_all, Nat.sub_diag.
  - specialize (IH (pre ++ [a])).
    rewrite length_app in IH. cbn [List.length] in IH.
    rewrite Nat.add_1_r in IH. rewrite <- IH.
    f_equal. apply map_ext. intros p. now rewrite <- app_assoc.
Qed.

(** The condensed form of the point-distance matrix lists the pairwise
    point distances. *)
Lemma spec_condensed_form_points (rows : list (Point R)) :
  spec_condensed_form (point_distances rows) 0 = pairwise point_distance rows.
Proof. exact (spec_condensed_form_shift point_distance [] rows). Qed.

(** ** Concrete tables over the reals *)

Lemma sqrt_is (a b : R) : (0 <= b)%R -> a = (b * b)%R -> sqrt a = b.
Proof. intros Hb ->. now apply sqrt_square. Qed.

Lemma point_distances_three_points :
  point_distances three_points = [[0; 0; 1]; [0; 0; 1]; [1; 1; 0]]%R.
Proof.
  unfold point_distances, three_points, point_distance, hydrophobic.
  cbn [map p_x p_y p_z].
  repeat f_equal; apply sqrt_is; lra.
Qed.

Lemma pdist_three_points :
  pdist (point_distances three_points) = [0; sqrt 3; sqrt 3]%R.
Proof.
  rewrite point_distances_three_points.
  unfold pdist, euclidean. cbn [map combine app fst snd].
  rewrite !np_sum_Rsum. cbn [Rsum map fold_right]. Rnum.
  f_equal; [apply sqrt_is; lra|].
  f_equal; [f_equal; lra|].
  f_equal. f_equal. lra.
Qed.

Lemma sqrt_3_gt_1 : (1 < sqrt 3)%R.
Proof.
  rewrite <- sqrt_1 at 1. apply sqrt_lt_1; lra.
Qed.

Lemma np_max_pdist_three_points :
  np_max (pdist (point_distances three_points)) = Ok (sqrt 3).
Proof.
  rewrite pdist_three_points. unfold np_max. cbn [fold_left]. Rnum.
  pose proof sqrt_3_gt_1 as H.
  assert (E1 : Rltb 0 (sqrt 3) = true) by (apply Rltb_true; lra).
  assert (E2 : Rltb (sqrt 3) (sqrt 3) = false) by (apply Rltb_false; lra).
  now rewrite E1, E2.
Qed.

Lemma np_max_pairwise_three_points :
  np_max (pairwise point_distance three_points) = Ok 1%R.
Proof.
  rewrite <- spec_condensed_form_points, point_distances_three_points.
  cbn [spec_condensed_form skipn app]. unfold np_max. cbn [fold_left]. Rnum.
  assert (E1 : Rltb 0 1 = true) by (apply Rltb_true; lra).
  assert (E2 : Rltb 1 1 = false) by (apply Rltb_false; lra).
  now rewrite E1, E2.
Qed.

(** ** Claims C2 and C3 *)

(** C3, as stated, fails: for the three points (0,0,0), (0,0,0), (1,0,0)
    the program hands [linkage] the vector [0, sqrt 3, sqrt 3], whereas the
    condensed form of their distance matrix is [0, 1, 1]. *)
Lemma C3_counterexample :
  exists w',
    __compute_cluster complete_linkage 0
      {| heap := [new_frame three_points]; files := [] |}
    = (Ok (complete_linkage [0; sqrt 3; sqrt 3]%R,
           [[0; 0; 1]; [0; 0; 1]; [1; 1; 0]]%R, 0%nat), w') /\
    spec_condensed_form [[0; 0; 1]; [0; 0; 1]; [1; 1; 0]]%R 0 = [0; 1; 1]%R /\
    [0; sqrt 3; sqrt 3]%R <> [0; 1; 1]%R.
Proof.
  destruct (@compute_cluster_large R _ complete_linkage
              {| heap := [new_frame three_points]; files := [] |} 0
              (new_frame three_points) complete_linkage_contract eq_refl)
    as (t & _ & Hrun).
  { simpl. lia. }
  cbn [df_rows new_frame] in Hrun.
  rewrite distance_matrix_points, pdist_three_points,
    point_distances_three_points in Hrun.
  eexists. split; [exact Hrun|]. split; [reflexivity|].
  intros E. inversion E as [[E1 E2]].
  pose proof sqrt_3_gt_1. lra.
Qed.

(** C3, amended: on a group of more than two points the complete-linkage
    clustering is run on the pairwise Euclidean distances between the ROWS
    of the matrix of point distances, that is between the points' distance
    profiles, each point against the later ones; the matrix returned is
    the matrix of pairwise point distances. *)
Theorem C3_linkage_runs_on_distances_between_matrix_rows :
  forall (linkage : list R -> Dendrogram R) (w : World R) (table : ref)
         (df : DataFrame R),
    linkage_contract linkage ->
    nth_error (heap w) table = Some df ->
    (2 < List.length (df_rows df))%nat ->
    exists w',
      __compute_cluster linkage table w
      = (Ok (linkage (pairwise (profile_distance (df_rows df)) (df_rows df)),
             point_distances (df_rows df), table), w') /\
      pdist (point_distances (df_rows df))
      = pairwise (profile_distance (df_rows df)) (df_rows df).
Proof.
  intros linkage w table df Hc Hdf Hn.
  destruct (compute_cluster_large w table Hc Hdf Hn) as (t & _ & Hrun).
  rewrite distance_matrix_points, pdist_point_distances in Hrun.
  eexists. split; [exact Hrun|]. apply pdist_point_distances.
Qed.

(** C2, as stated, fails: for the three points (0,0,0), (0,0,0), (1,0,0),
    whose greatest pairwise distance is 1, the cut is made at
    0.17 * sqrt 3, which is neither 0.17 * 1 (h_dist = 0.17) nor 0.5 * 1
    (h_dist = 0.5). *)
Lemma C2_counterexample :
  exists w' df',
    __compute_cluster complete_linkage 0
      {| heap := [new_frame three_points]; files := [] |}
    = (Ok (complete_linkage [0; sqrt 3; sqrt 3]%R,
           [[0; 0; 1]; [0; 0; 1]; [1; 1; 0]]%R, 0%nat), w') /\
    nth_error (heap w') 0 = Some df' /\
    df_cluster df'
    = Some (fcluster (complete_linkage [0; sqrt 3; sqrt 3]%R) (0.17 * sqrt 3)%R) /\
    spec_cut_threshold 0.17 three_points = Ok (0.17 * 1)%R /\
    spec_cut_threshold 0.5 three_points = Ok (0.5 * 1)%R /\
    (0.17 * sqrt 3 <> 0.17 * 1)%R /\
    (0.17 * sqrt 3 <> 0.5 * 1)%R.
Proof.
  destruct (@compute_cluster_large R _ complete_linkage
              {| heap := [new_frame three_points]; files := [] |} 0
              (new_frame three_points) complete_linkage_contract eq_refl)
    as (t & Ht & Hrun).
  { simpl. lia. }
  cbn [df_rows new_frame] in Hrun, Ht.
  rewrite distance_matrix_points in Hrun, Ht.
  unfold cut_threshold in Ht. rewrite np_max_pdist_three_points in Ht.
  cbn [result_bind] in Ht. Rnum. inversion Ht; subst t; clear Ht.
  rewrite pdist_three_points, point_distances_three_points in Hrun.
  do 2 eexists. split; [exact Hrun|]. split; [reflexivity|].
  split; [reflexivity|].
  unfold spec_cut_threshold. rewrite np_max_pairwise_three_points.
  split; [reflexivity|]. split; [reflexivity|].
  pose proof sqrt_3_gt_1.
  assert (sqrt 3 < 2)%R.
  { rewrite <- (sqrt_square 2) by lra. apply sqrt_lt_1; lra. }
  split; lra.
Qed.

(** C2, amended: on a group of more than two points, and for [h_dist] at
    its default 0.17, the dendrogram is cut at [h_dist] times the greatest
    of the distances fed to the linkage (the distances between the rows of
    the point-distance matrix); two points get the same cluster id exactly
    when they are under a merge whose subtree has all its merge distances
    at or below that threshold. *)
Theorem C2_cut_at_default_fraction_of_max_linkage_distance :
  forall (linkage : list R -> Dendrogram R) (w : World R) (table : ref)
         (df : DataFrame R) (h_dist : R),
    linkage_contract linkage ->
    nth_error (heap w) table = Some df ->
    (2 < List.length (df_rows df))%nat ->
    h_dist = default_h_dist ->
    let dm := pairwise (profile_distance (df_rows df)) (df_rows df) in
    exists m w' df' clusters,
      In m dm /\ Forall (fun d => (d <= m)%R) dm /\
      __compute_cluster linkage table w
      = (Ok (linkage dm, point_distances (df_rows df), table), w') /\
      nth_error (heap w') table = Some df' /\
      df_cluster df' = Some clusters /\
      clusters = fcluster (linkage dm) (h_dist * m)%R /\
      forall i j, (i < List.length (df_rows df))%nat ->
                  (j < List.length (df_rows df))%nat ->
                  (nth i clusters 0%nat = nth j clusters 0%nat
                   <-> i = j \/ joined (h_dist * m)%R (linkage dm) i j).
Proof.
  intros linkage w table df h_dist Hc Hdf Hn Hh dm.
  destruct (compute_cluster_large w table Hc Hdf Hn) as (t & Ht & Hrun).
  rewrite distance_matrix_points, pdist_point_distances in Hrun, Ht.
  fold dm in Hrun, Ht.
  assert (Hdm : (2 * List.length dm
                 = List.length (df_rows df) * (List.length (df_rows df) - 1))%nat).
  { unfold dm. rewrite <- pdist_point_distances, length_pdist.
    unfold point_distances. now rewrite length_map. }
  assert (Hne : dm <> []) by (intros E; rewrite E in Hdm; simpl in Hdm; nia).
  destruct (np_max_spec Hne) as (m & Hmax & Hin & Hall).
  unfold cut_threshold in Ht. rewrite Hmax in Ht. cbn [result_bind] in Ht.
  Rnum. inversion Ht; subst t; clear Ht.
  destruct (@fcluster_spec R _ (linkage dm) (0.17 * m)%R
              (List.length (df_rows df)) ltac:(lia)
              (Hc (List.length (df_rows df)) dm ltac:(lia) Hdm))
    as (_ & k & _ & _ & _ & Hsame).
  exists m. do 2 eexists. exists (fcluster (linkage dm) (0.17 * m)%R).
  split; [exact Hin|]. split; [exact Hall|]. split; [exact Hrun|].
  split.
  { simpl. apply nth_error_array_set_same. apply nth_error_Some. congruence. }
  split; [reflexivity|]. subst h_dist. split; [reflexivity|].
  exact Hsame.
Qed.

(** ** Groups of two points or fewer *)


(** C1 (the code departs from the claim): called on a table whose only
    group has two points, [compute_concensus_pharmacophore] does not
    return an empty table: it raises [UnboundLocalError] for [linkage],
    having written no file. *)
Theorem C1_two_point_group_raises :
  forall (save_data_per_descriptor : bool) (out_folder : string) (h_dist : R),
    compute_concensus_pharmacophore complete_linkage 0
      save_data_per_descriptor out_folder h_dist
      {| heap := [new_frame two_points]; files := [] |}
    = (Raise (UnboundLocalError "linkage"),
       {| heap := [new_frame two_points; new_frame two_points]; files := [] |}).
Proof. intros. reflexivity. Qed.

(** ** The theorems at concrete tables *)

(** C2, amended, at the three-point table with [complete_linkage]. *)
Lemma C2_witness :
  (linkage_contract complete_linkage /\
   nth_error (heap three_points_world) 0 = Some (new_frame three_points) /\
   (2 < List.length (df_rows (new_frame three_points)))%nat /\
   0.17%R = default_h_dist) /\
  let dm := pairwise (profile_distance three_points) three_points in
  exists m w' df' clusters,
    In m dm /\ Forall (fun d => (d <= m)%R) dm /\
    __compute_cluster complete_linkage 0 three_points_world
    = (Ok (complete_linkage dm, point_distances three_points, 0%nat), w') /\
    nth_error (heap w') 0 = Some df' /\
    df_cluster df' = Some clusters /\
    clusters = fcluster (complete_linkage dm) (0.17 * m)%R /\
    forall i j, (i < 3)%nat -> (j < 3)%nat ->
                (nth i clusters 0%nat = nth j clusters 0%nat
                 <-> i = j \/ joined (0.17 * m)%R (complete_linkage dm) i j).
Proof.
  assert (H1 : nth_error (heap three_points_world) 0 = Some (new_frame three_points))
    by reflexivity.
  assert (H2 : (2 < List.length (df_rows (new_frame three_points)))%nat)
    by (simpl; lia).
  split; [repeat split; [apply complete_linkage_contract|exact H2]|].
  exact (C2_cut_at_default_fraction_of_max_linkage_distance
           three_points_world 0 complete_linkage_contract H1 H2 eq_refl).
Defined.

(** C3, amended, at the three-point table with [complete_linkage]. *)
Lemma C3_witness :
  (linkage_contract complete_linkage /\
   nth_error (heap three_points_world) 0 = Some (new_frame three_points) /\
   (2 < List.length (df_rows (new_frame three_points)))%nat) /\
  exists w',
    __compute_cluster complete_linkage 0 three_points_world
    = (Ok (complete_linkage (pairwise (profile_distance three_points) three_points),
           point_distances three_points, 0%nat), w') /\
    pdist (point_distances three_points)
    = pairwise (profile_distance three_points) three_points.
Proof.
  assert (H1 : nth_error (heap three_points_world) 0 = Some (new_frame three_points))
    by reflexivity.
  assert (H2 : (2 < List.length (df_rows (new_frame three_points)))%nat)
    by (simpl; lia).
  split; [repeat split; [apply complete_linkage_contract|exact H2]|].
  exact (C3_linkage_runs_on_distances_between_matrix_rows
           three_points_world 0 complete_linkage_contract H1 H2).
Defined.

(** C4 at the three-point table with [complete_linkage]. *)
Lemma C4_witness :
  (linkage_contract complete_linkage /\
   nth_error (heap three_points_world) 0 = Some (new_frame three_points) /\
   (2 < List.length (df_rows (new_frame three_points)))%nat) /\
  exists tree matrix w' df' weight balance,
    __compute_cluster complete_linkage 0 three_points_world
    = (Ok (tree, matrix, 0%nat), w') /\
    nth_error (heap w') 0 = Some df' /\
    df_weight df' = Some weight /\
    df_balance df' = Some balance /\
    List.length weight = 3%nat /\
    balance = map (fun k => INR k / INR (list_sum weight))%R weight /\
    Rsum balance = 1%R.
Proof.
  assert (H1 : nth_error (heap three_points_world) 0 = Some (new_frame three_points))
    by reflexivity.
  assert (H2 : (2 < List.length (df_rows (new_frame three_points)))%nat)
    by (simpl; lia).
  split; [repeat split; [apply complete_linkage_contract|exact H2]|].
  exact (C4_balance_is_weight_over_sum
           three_points_world 0 complete_linkage_contract H1 H2).
Defined.

(** C5 at the three-point table with [complete_linkage]. *)
Lemma C5_witness :
  (linkage_contract complete_linkage /\
   nth_error (heap three_points_world) 0 = Some (new_frame three_points) /\
   (2 < List.length (df_rows (new_frame three_points)))%nat) /\
  exists tree matrix w' df',
    __compute_cluster complete_linkage 0 three_points_world
    = (Ok (tree, matrix, 0%nat), w') /\
    nth_error (heap w') 0 = Some df' /\
    df_rows df' = three_points /\
    df_weight df'
    = Some (map (fun p => List.length (neighbours three_points p)) three_points) /\
    (forall p, In p three_points -> In p (neighbours three_points p)) /\
    (forall p, In p three_points ->
               (1 <= List.length (neighbours three_points p))%nat).
Proof.
  assert (H1 : nth_error (heap three_points_world) 0 = Some (new_frame three_points))
    by reflexivity.
  assert (H2 : (2 < List.length (df_rows (new_frame three_points)))%nat)
    by (simpl; lia).
  split; [repeat split; [apply complete_linkage_contract|exact H2]|].
  exact (C5_weight_counts_points_within_1_5
           three_points_world 0 complete_linkage_contract H1 H2).
Defined.



(** C8 at the three-point table with [complete_linkage], over the reals. *)
Lemma C8_witness :
  (linkage_contract complete_linkage /\
   nth_error (heap three_points_world) 0 = Some (new_frame three_points) /\
   (2 < List.length (df_rows (new_frame three_points)))%nat) /\
  exists tree matrix w' df' clusters k,
    __compute_cluster complete_linkage 0 three_points_world
    = (Ok (tree, matrix, 0%nat), w') /\
    nth_error (heap w') 0 = Some df' /\
    df_rows df' = three_points /\
    df_cluster df' = Some clusters /\
    List.length clusters = 3%nat /\
    (1 <= k)%nat /\
    (forall c, In c clusters -> (1 <= c <= k)%nat) /\
    (forall v, (1 <= v <= k)%nat -> In v clusters).
Proof.
  assert (H1 : nth_error (heap three_points_world) 0 = Some (new_frame three_points))
    by reflexivity.
  assert (H2 : (2 < List.length (df_rows (new_frame three_points)))%nat)
    by (simpl; lia).
  split; [repeat split; [apply complete_linkage_contract|exact H2]|].
  exact (@C8_cluster_ids_dense R _ complete_linkage three_points_world 0
           (new_frame three_points) complete_linkage_contract H1 H2).
Defined.

(** ** The whole call: which groups return and which raise *)

Lemma in_insert_key {A} (eqb leb : A -> A -> bool) (k x : A) (l : list A) :
  In x (insert_key eqb leb k l) -> x = k \/ In x l.
Proof.
  induction l as [|y l IH]; simpl.
  - intros [E|[]]; auto.
  - destruct (eqb k y); [simpl; tauto|].
    destruct (leb k y); simpl.
    + intros [E|H]; [left; congruence|right; exact H].
    + intros [E|H]; auto. destruct (IH H); auto.
Qed.

Lemma insert_key_keeps {A} (eqb leb : A -> A -> bool) (k x : A) (l : list A) :
  In x l -> In x (insert_key eqb leb k l).
Proof.
  induction l as [|y l IH]; simpl; [tauto|].
  destruct (eqb k y); [simpl; tauto|].
  destruct (leb k y); simpl; [tauto|].
  intros [E|H]; auto.
Qed.

Lemma insert_key_has {A} (eqb leb : A -> A -> bool) (k : A) (l : list A) :
  (forall a b, eqb a b = true -> a = b) ->
  In k (insert_key eqb leb k l).
Proof.
  intros Heq. induction l as [|y l IH]; simpl; auto.
  destruct (eqb k y) eqn:E.
  - apply Heq in E. subst. now left.
  - destruct (leb k y); simpl; auto.
Qed.

Lemma in_sorted_unique {A} (eqb leb : A -> A -> bool) (l : list A) (x : A) :
  (forall a b, eqb a b = true -> a = b) ->
  (In x (sorted_unique eqb leb l) <-> In x l).
Proof.
  intros Heq. unfold sorted_unique.
  assert (G : forall acc, In x (fold_left (fun acc k => insert_key eqb leb k acc) l acc)
                          <-> In x acc \/ In x l).
  { induction l as [|k l IH]; intros acc; simpl; [tauto|].
    rewrite IH. split.
    - intros [H|H]; auto. apply in_insert_key in H. destruct H; auto.
    - intros [H|[E|H]]; auto.
      + left. now apply insert_key_keeps.
      + subst. left. now apply insert_key_has. }
  rewrite G. simpl. tauto.
Qed.

Lemma compress_map_nonempty {A B} (f : B -> bool) (keys : list B) (l : list A) :
  List.length keys = List.length l ->
  (exists k, In k keys /\ f k = true) ->
  compress (map f keys) l <> [].
Proof.
  revert l. induction keys as [|k keys IH]; intros [|a l] Hlen (k0 & Hin & Hk);
    simpl in *; try lia; try contradiction.
  destruct (f k) eqn:E; [discriminate|].
  destruct Hin as [->|Hin]; [congruence|].
  apply IH; [lia|]. eauto.
Qed.

Lemma compress_Forall {A} (P : A -> Prop) (mask : list bool) (l : list A) :
  Forall P l -> Forall P (compress mask l).
Proof.
  intros H. revert mask. induction H as [|a l Ha Hl IH]; intros [|b mask]; simpl;
    try constructor.
  destruct b; auto.
Qed.

Lemma reduce_clusters_return (group : string) (dc : DataFrame R)
      (clusters W : list nat) (B : list R) :
  df_weight dc = Some W ->
  df_balance dc = Some B ->
  List.length clusters = List.length (df_rows dc) ->
  List.length clusters = List.length W ->
  Forall (fun k => (1 <= k)%nat) W ->
  forall keys acc,
    (forall cg, In cg keys -> In cg clusters) ->
    exists res,
      for_each_pure keys (reduce_cluster group dc clusters) acc = Ok res.
Proof.
  intros HW HB Hrows HlenW Hpos keys.
  induction keys as [|cg keys IH]; intros acc Hin; simpl; [eauto|].
  assert (Hcg : exists k, In k clusters /\ Nat.eqb k cg = true).
  { exists cg. split; [apply Hin; now left|apply Nat.eqb_refl]. }
  destruct acc as [Concensus index].
  unfold reduce_cluster at 1.
  set (clus := get_group_by_cluster dc clusters cg).
  assert (Hne : df_rows clus <> []).
  { unfold clus, get_group_by_cluster, take_rows. simpl.
    now apply compress_map_nonempty. }
  assert (HW' : df_weight clus
                = Some (compress (map (fun c => Nat.eqb c cg) clusters) W)).
  { unfold clus, get_group_by_cluster, take_rows. simpl. now rewrite HW. }
  assert (Hsum : (0 < list_sum (compress (map (fun c => Nat.eqb c cg) clusters) W))%nat).
  { apply list_sum_positive.
    - now apply compress_map_nonempty.
    - now apply compress_Forall. }
  destruct (@reducer_returns clus _ HW' Hne Hsum) as (raw & _ & Hret).
  rewrite Hret. cbn [result_bind].
  destruct (df_rows clus) as [|p rows] eqn:Er; [congruence|].
  cbn [result_bind].
  assert (HB' : exists b, df_balance clus = Some b).
  { unfold clus, get_group_by_cluster, take_rows. simpl. rewrite HB. simpl. eauto. }
  destruct HB' as (b & HB'). rewrite HB'. cbn [column result_bind].
  apply IH. intros c Hc. apply Hin. now right.
Qed.

(** A group of more than two points is processed to the end. *)
Lemma process_group_large (linkage : list R -> Dendrogram R)
      (table : DataFrame R) (save : bool) (out : string)
      acc (group : string) (w : World R) :
  linkage_contract linkage ->
  (2 < List.length (df_rows (get_group_by_name table group)))%nat ->
  exists res w',
    process_group linkage table save out acc group w = (Ok res, w').
Proof.
  intros Hc Hn. destruct acc as [[Concensus Links] index].
  unfold process_group.
  set (gdf := get_group_by_name table group) in *.
  unfold bind at 1. unfold alloc at 1.
  set (w1 := {| heap := heap w ++ [gdf]; files := files w |}).
  assert (Hg : nth_error (heap w1) (List.length (heap w)) = Some gdf).
  { simpl. rewrite nth_error_app2 by lia. now rewrite Nat.sub_diag. }
  destruct (compute_cluster_large w1 _ Hc Hg Hn) as (t & _ & Hrun).
  unfold bind at 1. rewrite Hrun.
  set (matrix := distance_matrix (map (@xyz R) (df_rows gdf))
                                 (map (@xyz R) (df_rows gdf))) in *.
  set (df2 := {| df_rows := df_rows gdf;
                 df_cluster := Some (fcluster (linkage (pdist matrix)) t);
                 df_weight := Some (weights_of matrix);
                 df_balance := Some (normalize_l1 (map (@of_nat R _) (weights_of matrix))) |}).
  set (w2 := {| heap := array_set (heap w1) (List.length (heap w)) df2;
                files := files w1 |}).
  assert (Hg2 : nth_error (heap w2) (List.length (heap w)) = Some df2).
  { simpl. apply nth_error_array_set_same. rewrite length_app. simpl. lia. }
  assert (Hrows : df_rows df2 <> []).
  { unfold df2. cbn [df_rows]. intros E. rewrite E in Hn. simpl in Hn. lia. }
  assert (Hsave : exists fs,
    (if save
     then save_pharmacophore_to_pymol (F:=R) (List.length (heap w))
            (out ++ "/" ++ group ++ "_clusters.pse")%string ;;;
          save_clustermap (out ++ "/" ++ group ++ "_clusters.png")%string
     else ret tt) w2
    = (Ok tt, {| heap := heap w2; files := fs |})).
  { destruct save.
    - unfold save_pharmacophore_to_pymol, save_clustermap, bind, get_frame,
        write_file, lift.
      rewrite Hg2. destruct (df_rows df2) eqn:E; [congruence|].
      simpl. eauto.
    - exists (files w2). reflexivity. }
  destruct Hsave as (fs & Hsave).
  unfold bind at 1. rewrite Hsave.
  unfold bind at 1. unfold get_frame at 1. cbn [heap].
  rewrite Hg2.
  unfold bind at 1. unfold lift at 1. cbn [column df_cluster df2].
  assert (Hlen : List.length (fcluster (linkage (pdist matrix)) t)
                 = List.length (df_rows df2)).
  { assert (Hdm : (2 * List.length (pdist matrix)
                   = List.length (df_rows gdf) * (List.length (df_rows gdf) - 1))%nat).
    { rewrite length_pdist. unfold matrix.
      now rewrite length_distance_matrix, length_map. }
    rewrite length_fcluster. unfold num_obs_linkage. rewrite <- length_leaves.
    rewrite (Permutation_length
               (Hc (List.length (df_rows gdf)) (pdist matrix) ltac:(lia) Hdm)).
    apply length_seq. }
  destruct (@reduce_clusters_return group df2
              (fcluster (linkage (pdist matrix)) t)
              (weights_of matrix) (normalize_l1 (map (@of_nat R _) (weights_of matrix)))
              eq_refl eq_refl Hlen)
    with (keys := groups_by_cluster (fcluster (linkage (pdist matrix)) t))
         (acc := (Concensus, index))
    as ([C i] & Hred).
  { rewrite Hlen. unfold matrix. simpl.
    now rewrite length_weights_of, length_distance_matrix, length_map. }
  { unfold matrix. rewrite distance_matrix_points. apply weights_positive. }
  { intros cg Hcg. unfold groups_by_cluster in Hcg.
    apply in_sorted_unique in Hcg; auto. intros a b. apply Nat.eqb_eq. }
  unfold bind at 1. unfold lift at 1. rewrite Hred.
  unfold ret. eauto.
Qed.



Lemma for_each_groups_return (linkage : list R -> Dendrogram R)
      (table : DataFrame R) (save : bool) (out : string) (groups : list string) :
  linkage_contract linkage ->
  (forall g, In g groups ->
             (2 < List.length (df_rows (get_group_by_name table g)))%nat) ->
  forall acc w,
    exists res w',
      for_each groups (process_group linkage table save out) acc w
      = (Ok res, w').
Proof.
  intros Hc. induction groups as [|g groups IH]; intros Hall acc w.
  - simpl. unfold ret. eauto.
  - simpl. unfold bind.
    destruct (@process_group_large linkage table save out acc g w Hc)
      as (res & w1 & E).
    { apply Hall. now left. }
    rewrite E. apply IH. intros g' Hg'. apply Hall. now right.
Qed.


(** Every table whose feature-type groups all have more than two points
    makes the call return. *)
Lemma large_groups_return (linkage : list R -> Dendrogram R) (w : World R)
      (table : ref) (df : DataFrame R) (save : bool) (out : string) (h_dist : R) :
  linkage_contract linkage ->
  nth_error (heap w) table = Some df ->
  (forall p, In p (df_rows df) ->
             (2 < List.length (df_rows (get_group_by_name df (p_name p))))%nat) ->
  exists Concensus Links w',
    compute_concensus_pharmacophore linkage table save out h_dist w
    = (Ok (Concensus, Links), w').
Proof.
  intros Hc Hdf Hall.
  unfold compute_concensus_pharmacophore, bind, get_frame. rewrite Hdf.
  destruct (@for_each_groups_return linkage df save out (groups_by_name df) Hc)
    with (acc := (@nil (ConsensusPoint R), @nil (string * LinkEntry R), 1%nat))
         (w := w) as ([[C L] i] & w' & E).
  { intros g Hg. unfold groups_by_name in Hg.
    apply in_sorted_unique in Hg; [|intros a b; apply String.eqb_eq].
    apply in_map_iff in Hg. destruct Hg as (p & <- & Hp). now apply Hall. }
  rewrite E. unfold ret. eauto.
Qed.

(** ** Runs on binary64 *)

(** Two tight pairs far apart give two consensus points, one per pair,
    with the Hydrophobic floor as radius. *)
Example run_two_pairs :
  Run.summary (fst (Run.run_on Run.two_pairs))
  = Some [(1%nat, "Hydrophobic"%string, 1%nat, 2%nat,
           10.050000000000001%float, 1%float, 0.25%float);
          (2%nat, "Hydrophobic"%string, 2%nat, 2%nat,
           0.050000000000000003%float, 1%float, 0.25%float)]
  /\ Run.first_group_clusters (snd (Run.run_on Run.two_pairs)) = Some [2; 2; 1; 1]
  /\ files (snd (Run.run_on Run.two_pairs))
     = ["out/Hydrophobic_clusters.pse"%string; "out/Hydrophobic_clusters.png"%string].
Proof. vm_compute. repeat split; reflexivity. Qed.

(** Cluster ids restart at 1 in every feature type; groups are taken in
    the sorted order of their names. *)
Example run_two_types :
  Run.summary (fst (Run.run_on Run.two_types))
  = Some [(1%nat, "Aromatic"%string, 1%nat, 3%nat,
           5%float, 0.5%float, 0.33333333333333331%float);
          (2%nat, "Hydrophobic"%string, 1%nat, 3%nat,
           0%float, 1%float, 0.33333333333333331%float)].
Proof. vm_compute. reflexivity. Qed.

(** A group of two points stops the run before any file is written, the
    larger group after it in name order being never reached. *)
Example run_with_small_group :
  fst (Run.run_on Run.with_small_group) = Raise (UnboundLocalError "linkage")
  /\ files (snd (Run.run_on Run.with_small_group)) = [].
Proof. vm_compute. split; reflexivity. Qed.

(** Points at x = 0, 1.6 and 10: the program keeps the three apart, where
    the specification's reading (cut at 0.17 times the greatest point
    distance, 1.7, on the point distances) joins the first two. *)
Example run_spread :
  Run.first_group_clusters (snd (Run.run_on Run.spread)) = Some [1; 2; 3]
  /\ spec_cluster_ids complete_linkage default_h_dist (df_rows Run.spread)
     = Ok [1; 1; 2].
Proof. vm_compute. split; reflexivity. Qed.

(** The same run with [h_dist = 0.5]: nothing changes. *)
Example run_spread_other_h_dist :
  Run.run_with 0.5%float Run.spread = Run.run_on Run.spread.
Proof. reflexivity. Qed.

(** ** The assembler: what a normal return tells *)

(** A normal return of [__compute_cluster] can only come from the branch
    of more than two points, with every column set. *)
Lemma compute_cluster_ok_inv {F} {num : Number F}
      (linkage : list F -> Dendrogram F) (table : ref) (w w' : World F)
      (l : Dendrogram F) (m : list (list F)) (r : ref) :
  __compute_cluster linkage table w = (Ok (l, m, r), w') ->
  exists df t,
    nth_error (heap w) table = Some df /\
    (2 < List.length (df_rows df))%nat /\
    r = table /\
    m = distance_matrix (map (@xyz F) (df_rows df)) (map (@xyz F) (df_rows df)) /\
    l = linkage (pdist m) /\
    cut_threshold (pdist m) = Ok t /\
    List.length (fcluster l t) = List.length (df_rows df) /\
    w' = {| heap := array_set (heap w) table
                      {| df_rows := df_rows df;
                         df_cluster := Some (fcluster l t);
                         df_weight := Some (weights_of m);
                         df_balance := Some (normalize_l1 (map of_nat (weights_of m))) |};
            files := files w |}.
Proof.
  unfold __compute_cluster, bind, get_frame at 1.
  destruct (nth_error (heap w) table) as [df|] eqn:Hdf; [|discriminate].
  assert (Hlt : (table < List.length (heap w))%nat)
    by (apply nth_error_Some; congruence).
  destruct (Nat.ltb 2 (List.length (df_rows df))) eqn:Hn;
    [|simpl; discriminate].
  apply Nat.ltb_lt in Hn.
  set (matrix := distance_matrix (map (@xyz F) (df_rows df))
                                 (map (@xyz F) (df_rows df))).
  unfold lift.
  destruct (cut_threshold (pdist matrix)) as [t|e] eqn:Ht; [|discriminate].
  unfold set_cluster, bind, get_frame, put_frame. rewrite Hdf.
  destruct (Nat.eqb (List.length (fcluster (linkage (pdist matrix)) t))
                    (List.length (df_rows df))) eqn:E1;
    [|simpl; discriminate].
  apply Nat.eqb_eq in E1.
  unfold set_weight, bind, get_frame, put_frame. cbn [heap files fst snd].
  rewrite (nth_error_array_set_same _ _ Hlt). cbn [df_rows].
  destruct (Nat.eqb (List.length (weights_of matrix)) (List.length (df_rows df)))
    eqn:E2; [|simpl; discriminate].
  unfold set_balance, bind, get_frame, put_frame. cbn [heap files fst snd].
  rewrite nth_error_array_set_same by (now rewrite length_array_set).
  cbn [df_rows].
  destruct (Nat.eqb (List.length (normalize_l1 (map of_nat (weights_of matrix))))
                    (List.length (df_rows df))) eqn:E3; [|simpl; discriminate].
  simpl. rewrite !array_set_twice. intros E. inversion E; subst.
  exists df, t. repeat split; auto.
Qed.

(** What one turn of the loop over [clusters.groups] adds. *)
Lemma reduce_cluster_ok_inv {F} {num : Number F} (group : string)
      (dc : DataFrame F) (cl : list nat) (C C' : list (ConsensusPoint F))
      (i i' cg : nat) :
  reduce_cluster group dc cl (C, i) cg = Ok (C', i') ->
  exists row com p rest,
    C' = C ++ [row] /\ i' = S i /\
    c_index row = i /\ c_name row = group /\ c_cluster row = cg /\
    df_rows (get_group_by_cluster dc cl cg) = p :: rest /\
    c_color row = p_color p /\
    c_weight row = List.length (df_rows (get_group_by_cluster dc cl cg)) /\
    __compute_center_of_mass_and_radius (get_group_by_cluster dc cl cg)
    = Ok (com, c_radius row) /\
    [c_x row; c_y row; c_z row] = [nth 0 com lit_0; nth 1 com lit_0; nth 2 com lit_0] /\
    (exists b, df_balance (get_group_by_cluster dc cl cg) = Some b /\
               c_balance row = series_mean b).
Proof.
  unfold reduce_cluster.
  set (clus := get_group_by_cluster dc cl cg).
  destruct (__compute_center_of_mass_and_radius clus) as [[com radius]|e] eqn:Hred;
    [|discriminate].
  cbn [result_bind].
  destruct (df_rows clus) as [|p rest] eqn:Hrows; [discriminate|].
  cbn [result_bind].
  destruct (df_balance clus) as [b|] eqn:Hb; [|discriminate].
  cbn [column result_bind]. intros E. inversion E; subst; clear E.
  eexists. exists com, p, rest.
  split; [reflexivity|].
  cbn [c_index c_name c_cluster c_color c_weight c_radius c_balance c_x c_y c_z].
  repeat split; eauto.
Qed.

Lemma reduce_loop_ok_inv {F} {num : Number F} (group : string)
      (dc : DataFrame F) (cl : list nat) (keys : list nat) :
  forall (C C' : list (ConsensusPoint F)) (i i' : nat),
    for_each_pure keys (reduce_cluster group dc cl) (C, i) = Ok (C', i') ->
    exists rows,
      reduced group dc cl i keys rows /\
      C' = C ++ rows /\ i' = (i + List.length rows)%nat.
Proof.
  induction keys as [|cg keys IH]; intros C C' i i'; cbn [for_each_pure].
  - intros E. inversion E; subst. exists []. split; [constructor|].
    rewrite app_nil_r. split; auto.
  - destruct (reduce_cluster group dc cl (C, i) cg) as [[C1 i1]|e] eqn:E1;
      [|discriminate].
    cbn [result_bind]. intros E.
    apply reduce_cluster_ok_inv in E1.
    destruct E1 as (row & com & p & rest & -> & -> & H1 & H2 & H3 & H4 & H5 & H6 & H7 & H8 & H9).
    apply IH in E. destruct E as (rows & Hred & -> & ->).
    exists (row :: rows). split.
    + econstructor; eauto.
    + split; [now rewrite <- app_assoc|simpl; lia].
Qed.

Lemma reduced_length {F} {num : Number F} (group : string) (dc : DataFrame F)
      (cl : list nat) (i : nat) (keys : list nat) (rows : list (ConsensusPoint F)) :
  reduced group dc cl i keys rows -> List.length rows = List.length keys.
Proof. induction 1; simpl; auto. Qed.

(** What one normal turn of the loop over [Descriptors.groups] does. *)
Lemma process_group_ok_inv {F} {num : Number F}
      (linkage : list F -> Dendrogram F) (table : DataFrame F)
      (save : bool) (out : string) (group : string) (w w' : World F)
      (C C' : list (ConsensusPoint F)) (L L' : list (string * LinkEntry F))
      (i i' : nat) :
  process_group linkage table save out (C, L, i) group w = (Ok (C', L', i'), w') ->
  exists t rows,
    (2 < List.length (df_rows (get_group_by_name table group)))%nat /\
    cut_threshold
      (pdist (distance_matrix
                (map (@xyz F) (df_rows (get_group_by_name table group)))
                (map (@xyz F) (df_rows (get_group_by_name table group))))) = Ok t /\
    List.length (cluster_ids linkage (get_group_by_name table group) t)
    = List.length (df_rows (get_group_by_name table group)) /\
    reduced group (clustered linkage (get_group_by_name table group) t)
            (cluster_ids linkage (get_group_by_name table group) t)
            i (groups_by_cluster (cluster_ids linkage (get_group_by_name table group) t))
            rows /\
    C' = C ++ rows /\ i' = (i + List.length rows)%nat /\
    L' = dict_set L group (snd (link_entry_of linkage table group)) /\
    heap w' = heap w ++ [clustered linkage (get_group_by_name table group) t] /\
    files w' = files w ++ (if save then diagnostic_files out group else []).
Proof.
  unfold process_group.
  set (gdf := get_group_by_name table group).
  unfold bind at 1. unfold alloc at 1.
  set (w1 := {| heap := heap w ++ [gdf]; files := files w |}).
  unfold bind at 1.
  destruct (__compute_cluster linkage (List.length (heap w)) w1)
    as [[[[l m] r]|e] w2] eqn:Hcc; [|discriminate].
  apply compute_cluster_ok_inv in Hcc.
  destruct Hcc as (df & t & Hdf & Hn & -> & -> & -> & Ht & Hlen & ->).
  assert (df = gdf).
  { unfold w1 in Hdf. cbn [heap] in Hdf.
    rewrite nth_error_app2 in Hdf by lia.
    rewrite Nat.sub_diag in Hdf. simpl in Hdf. congruence. }
  subst df.
  assert (Harr : array_set (heap w1) (List.length (heap w))
                   (clustered linkage gdf t)
                 = heap w ++ [clustered linkage gdf t]).
  { unfold w1. cbn [heap]. clear.
    induction (heap w) as [|a h IH]; simpl; auto. now rewrite IH. }
  change {| df_rows := df_rows gdf;
            df_cluster := Some (fcluster (linkage (pdist (distance_matrix
                               (map (@xyz F) (df_rows gdf))
                               (map (@xyz F) (df_rows gdf))))) t);
            df_weight := Some (weights_of (distance_matrix
                               (map (@xyz F) (df_rows gdf))
                               (map (@xyz F) (df_rows gdf))));
            df_balance := Some (normalize_l1 (map of_nat (weights_of
                               (distance_matrix (map (@xyz F) (df_rows gdf))
                                                (map (@xyz F) (df_rows gdf)))))) |}
    with (clustered linkage gdf t).
  rewrite Harr.
  set (w2 := {| heap := heap w ++ [clustered linkage gdf t]; files := files w1 |}).
  assert (Hg2 : nth_error (heap w2) (List.length (heap w))
                = Some (clustered linkage gdf t)).
  { unfold w2. cbn [heap]. rewrite nth_error_app2 by lia.
    now rewrite Nat.sub_diag. }
  assert (Hrows : df_rows (clustered linkage gdf t) <> []).
  { unfold clustered. cbn [df_rows]. intros E. rewrite E in Hn. simpl in Hn. lia. }
  assert (Hsave :
    (if save
     then save_pharmacophore_to_pymol (F:=F) (List.length (heap w))
            (out ++ "/" ++ group ++ "_clusters.pse")%string ;;;
          save_clustermap (out ++ "/" ++ group ++ "_clusters.png")%string
     else ret tt) w2
    = (Ok tt, {| heap := heap w2;
                 files := files w ++ (if save then diagnostic_files out group else []) |})).
  { destruct save.
    - unfold save_pharmacophore_to_pymol, save_clustermap, bind, get_frame,
        write_file, lift.
      rewrite Hg2. destruct (df_rows (clustered linkage gdf t)) eqn:E; [congruence|].
      unfold diagnostic_files. simpl. now rewrite <- app_assoc.
    - unfold ret, w2, w1. cbn [heap files]. now rewrite app_nil_r. }
  unfold bind at 1. rewrite Hsave.
  unfold bind at 1. unfold get_frame at 1. cbn [heap]. rewrite Hg2.
  unfold bind at 1. unfold lift at 1.
  cbn [column df_cluster clustered].
  unfold bind at 1. unfold lift at 1.
  destruct (for_each_pure _ _ (C, i)) as [[C1 i1]|e] eqn:Hloop; [|discriminate].
  unfold ret. intros E. inversion E; subst; clear E.
  apply reduce_loop_ok_inv in Hloop. destruct Hloop as (rows & Hred & -> & ->).
  exists t, rows. cbn [heap files]. repeat split; auto.
Qed.

(** ** The order of the groups *)

Lemma ascii_compare_lt_trans (a b c : Ascii.ascii) :
  Ascii.compare a b = Lt -> Ascii.compare b c = Lt -> Ascii.compare a c = Lt.
Proof.
  unfold Ascii.compare. rewrite !N.compare_lt_iff. apply N.lt_trans.
Qed.

Lemma string_compare_lt_trans (s1 : string) :
  forall s2 s3,
    String.compare s1 s2 = Lt -> String.compare s2 s3 = Lt ->
    String.compare s1 s3 = Lt.
Proof.
  induction s1 as [|c1 s1 IH]; intros [|c2 s2] [|c3 s3]; simpl;
    try discriminate; auto.
  destruct (Ascii.compare c1 c2) eqn:E12; try discriminate;
    destruct (Ascii.compare c2 c3) eqn:E23; try discriminate.
  - apply Ascii.compare_eq_iff in E12, E23. subst.
    replace (Ascii.compare c3 c3) with Eq
      by (symmetry; unfold Ascii.compare; apply N.compare_refl).
    apply IH.
  - apply Ascii.compare_eq_iff in E12. subst. now rewrite E23.
  - apply Ascii.compare_eq_iff in E23. subst. now rewrite E12.
  - now rewrite (ascii_compare_lt_trans _ _ _ E12 E23).
Qed.

Lemma string_leb_trans (s1 s2 s3 : string) :
  String.leb s1 s2 = true -> String.leb s2 s3 = true -> String.leb s1 s3 = true.
Proof.
  unfold String.leb.
  destruct (String.compare s1 s2) eqn:E12; try discriminate;
    destruct (String.compare s2 s3) eqn:E23; try discriminate; intros _ _.
  - apply String.compare_eq_iff in E12. subst. now rewrite E23.
  - apply String.compare_eq_iff in E12. subst. now rewrite E23.
  - apply String.compare_eq_iff in E23. subst. now rewrite E12.
  - now rewrite (string_compare_lt_trans _ _ _ E12 E23).
Qed.

Section SortedUnique.

Variable A : Type.
Variables eqb leb : A -> A -> bool.
Hypothesis eqb_spec : forall a b, eqb a b = true <-> a = b.
Hypothesis leb_total : forall a b, leb a b = true \/ leb b a = true.
Hypothesis leb_antisym : forall a b, leb a b = true -> leb b a = true -> a = b.
Hypothesis leb_trans : forall a b c, leb a b = true -> leb b c = true -> leb a c = true.

Lemma key_lt_trans (a b c : A) :
  key_lt leb a b -> key_lt leb b c -> key_lt leb a c.
Proof.
  intros [H1 N1] [H2 N2]. split; [eauto|].
  intros E. subst c. apply N1. now apply leb_antisym.
Qed.

Lemma insert_key_sorted (k : A) (l : list A) :
  StronglySorted (key_lt leb) l ->
  StronglySorted (key_lt leb) (insert_key eqb leb k l).
Proof.
  induction 1 as [|x l Hs IH Hall]; simpl.
  - repeat constructor.
  - destruct (eqb k x) eqn:E; [now constructor|].
    assert (Hne : k <> x).
    { intros Heq. apply eqb_spec in Heq. congruence. }
    destruct (leb k x) eqn:L.
    + constructor; [now constructor|].
      constructor; [split; auto|].
      eapply Forall_impl; [|exact Hall].
      intros y Hy. apply key_lt_trans with x; auto. split; auto.
    + constructor; auto.
      apply Forall_forall. intros y Hy.
      apply in_insert_key in Hy. destruct Hy as [->|Hy].
      * split; [|congruence]. destruct (leb_total k x); congruence.
      * rewrite Forall_forall in Hall. now apply Hall.
Qed.

Lemma sorted_unique_sorted (l : list A) :
  StronglySorted (key_lt leb) (sorted_unique eqb leb l).
Proof.
  unfold sorted_unique.
  assert (G : forall acc, StronglySorted (key_lt leb) acc ->
                          StronglySorted (key_lt leb)
                            (fold_left (fun acc k => insert_key eqb leb k acc) l acc)).
  { induction l as [|k l IH]; intros acc Hacc; simpl; auto.
    apply IH. now apply insert_key_sorted. }
  apply G. constructor.
Qed.

Lemma key_sorted_NoDup (l : list A) :
  StronglySorted (key_lt leb) l -> NoDup l.
Proof.
  induction 1 as [|x l Hs IH Hall]; constructor; auto.
  intros Hin. rewrite Forall_forall in Hall. destruct (Hall x Hin) as [_ N].
  now apply N.
Qed.

End SortedUnique.

Lemma groups_by_name_sorted {F} (df : DataFrame F) :
  StronglySorted (key_lt String.leb) (groups_by_name df).
Proof.
  unfold groups_by_name. apply sorted_unique_sorted.
  - intros a b. apply String.eqb_eq.
  - apply String.leb_total.
  - apply String.leb_antisym.
  - apply string_leb_trans.
Qed.

Lemma groups_by_name_NoDup {F} (df : DataFrame F) : NoDup (groups_by_name df).
Proof. eapply key_sorted_NoDup, groups_by_name_sorted. Qed.

Lemma groups_by_cluster_sorted (cl : list nat) :
  StronglySorted lt (groups_by_cluster cl).
Proof.
  assert (H : StronglySorted (key_lt Nat.leb) (groups_by_cluster cl)).
  { unfold groups_by_cluster. apply sorted_unique_sorted.
    - intros a b. apply Nat.eqb_eq.
    - intros a b. rewrite !Nat.leb_le. lia.
    - intros a b. rewrite !Nat.leb_le. lia.
    - intros a b c. rewrite !Nat.leb_le. lia. }
  induction H as [|x l Hs IH Hall]; constructor; auto.
  eapply Forall_impl; [|exact Hall].
  intros y [Hle Hne]. apply Nat.leb_le in Hle. lia.
Qed.

Lemma groups_by_cluster_NoDup (cl : list nat) : NoDup (groups_by_cluster cl).
Proof.
  unfold groups_by_cluster. apply key_sorted_NoDup with (leb := Nat.leb).
  apply sorted_unique_sorted.
  - intros a b. apply Nat.eqb_eq.
  - intros a b. rewrite !Nat.leb_le. lia.
  - intros a b. rewrite !Nat.leb_le. lia.
  - intros a b c. rewrite !Nat.leb_le. lia.
Qed.

Lemma in_groups_by_name {F} (df : DataFrame F) (g : string) :
  In g (groups_by_name df) <-> In g (map (@p_name F) (df_rows df)).
Proof.
  unfold groups_by_name. apply in_sorted_unique. intros a b. apply String.eqb_eq.
Qed.

Lemma in_groups_by_cluster (cl : list nat) (cg : nat) :
  In cg (groups_by_cluster cl) <-> In cg cl.
Proof.
  unfold groups_by_cluster. apply in_sorted_unique. intros a b. apply Nat.eqb_eq.
Qed.

(** ** The assembler: the loop over the feature types *)

Lemma dict_set_fresh {V} (d : list (string * V)) (k : string) (v : V) :
  ~ In k (map fst d) -> dict_set d k v = d ++ [(k, v)].
Proof.
  induction d as [|[k' v'] d IH]; cbn [dict_set map fst In app]; intros H; auto.
  destruct (String.eqb k' k) eqn:E.
  - apply String.eqb_eq in E. subst. tauto.
  - rewrite IH; tauto.
Qed.

Lemma links_fold {V} (entry : string -> V) (groups : list string) :
  NoDup groups ->
  forall L,
    (forall g, In g groups -> ~ In g (map fst L)) ->
    fold_left (fun L g => dict_set L g (entry g)) groups L
    = L ++ map (fun g => (g, entry g)) groups.
Proof.
  induction 1 as [|g groups Hg Hnd IH]; intros L HL; cbn [fold_left map].
  - now rewrite app_nil_r.
  - rewrite dict_set_fresh by (apply HL; now left).
    rewrite IH.
    + now rewrite <- app_assoc.
    + intros g' Hg'. rewrite map_app, in_app_iff. cbn [map fst In].
      intros [H|[H|[]]].
      * apply (HL g'); [now right|exact H].
      * congruence.
Qed.

Lemma groups_loop_ok_inv {F} {num : Number F}
      (linkage : list F -> Dendrogram F) (table : DataFrame F)
      (save : bool) (out : string) (groups : list string) :
  forall (C C' : list (ConsensusPoint F)) (L L' : list (string * LinkEntry F))
         (i i' : nat) (w w' : World F),
    for_each groups (process_group linkage table save out) (C, L, i) w
    = (Ok (C', L', i'), w') ->
    exists rows,
      assembled linkage table i groups rows /\
      C' = C ++ rows /\ i' = (i + List.length rows)%nat /\
      L' = fold_left (fun L g => dict_set L g (snd (link_entry_of linkage table g)))
                     groups L /\
      files w' = files w ++ (if save then flat_map (diagnostic_files out) groups else []).
Proof.
  induction groups as [|g groups IH]; intros C C' L L' i i' w w';
    cbn [for_each].
  - unfold ret. intros E. inversion E; subst. exists [].
    split; [constructor|]. rewrite !app_nil_r.
    repeat split; auto. destruct save; now rewrite app_nil_r.
  - unfold bind at 1.
    destruct (process_group linkage table save out (C, L, i) g w)
      as [[[[C1 L1] i1]|e] w1] eqn:E1; [|discriminate].
    intros E. apply process_group_ok_inv in E1.
    destruct E1 as (t & rows & Hn & Ht & Hlen & Hred & -> & -> & -> & Hheap & Hfiles).
    apply IH in E. destruct E as (more & Hasm & -> & -> & -> & Hfiles').
    exists (rows ++ more). split; [econstructor; eauto|].
    rewrite length_app, <- app_assoc. repeat split; auto; [lia|].
    rewrite Hfiles', Hfiles, <- app_assoc. f_equal.
    destruct save; reflexivity.
Qed.

(** What a normal return of [compute_concensus_pharmacophore] tells. *)
Lemma compute_concensus_ok_inv {F} {num : Number F}
      (linkage : list F -> Dendrogram F) (table : ref) (save : bool)
      (out : string) (h_dist : F) (w w' : World F)
      (C : list (ConsensusPoint F)) (L : list (string * LinkEntry F)) :
  compute_concensus_pharmacophore linkage table save out h_dist w
  = (Ok (C, L), w') ->
  exists df,
    nth_error (heap w) table = Some df /\
    assembled linkage df 1 (groups_by_name df) C /\
    L = map (link_entry_of linkage df) (groups_by_name df) /\
    files w' = files w
               ++ (if save then flat_map (diagnostic_files out) (groups_by_name df)
                   else []).
Proof.
  unfold compute_concensus_pharmacophore. unfold bind at 1. unfold get_frame at 1.
  destruct (nth_error (heap w) table) as [df|] eqn:Hdf; [|discriminate].
  unfold bind at 1.
  destruct (for_each _ _ _ w) as [[[[C1 L1] i1]|e] w1] eqn:E1; [|discriminate].
  unfold ret. intros E. inversion E; subst; clear E.
  apply groups_loop_ok_inv in E1.
  destruct E1 as (rows & Hasm & HC & _ & HL & Hfiles).
  exists df. cbn [app] in HC. subst C. repeat split; auto.
  rewrite HL.
  rewrite (@links_fold _ (fun g => snd (link_entry_of linkage df g))).
  - cbn [app]. apply map_ext. intros g. reflexivity.
  - apply groups_by_name_NoDup.
  - intros g _ [].
Qed.

(** ** The assembler: the rows of a normal return *)

Lemma reduced_index {F} {num : Number F} (group : string) (dc : DataFrame F)
      (cl : list nat) (i : nat) (keys : list nat) (rows : list (ConsensusPoint F)) :
  reduced group dc cl i keys rows ->
  map (@c_index F) rows = seq i (List.length rows).
Proof. induction 1; cbn [map List.length seq]; f_equal; auto. Qed.

Lemma reduced_names {F} {num : Number F} (group : string) (dc : DataFrame F)
      (cl : list nat) (i : nat) (keys : list nat) (rows : list (ConsensusPoint F)) :
  reduced group dc cl i keys rows ->
  Forall (fun c => c_name c = group) rows.
Proof. induction 1; constructor; auto. Qed.

Lemma reduced_clusters {F} {num : Number F} (group : string) (dc : DataFrame F)
      (cl : list nat) (i : nat) (keys : list nat) (rows : list (ConsensusPoint F)) :
  reduced group dc cl i keys rows ->
  map (@c_cluster F) rows = keys.
Proof. induction 1; cbn [map]; f_equal; auto. Qed.

Lemma reduced_weights {F} {num : Number F} (group : string) (dc : DataFrame F)
      (cl : list nat) (i : nat) (keys : list nat) (rows : list (ConsensusPoint F)) :
  reduced group dc cl i keys rows ->
  map (@c_weight F) rows
  = map (fun cg => List.length (df_rows (get_group_by_cluster dc cl cg))) keys.
Proof. induction 1; cbn [map]; f_equal; auto. Qed.

Lemma assembled_index {F} {num : Number F} (linkage : list F -> Dendrogram F)
      (table : DataFrame F) (i : nat) (groups : list string)
      (rows : list (ConsensusPoint F)) :
  assembled linkage table i groups rows ->
  map (@c_index F) rows = seq i (List.length rows).
Proof.
  induction 1 as [|i g groups t rows more Hn Ht Hlen Hred Hasm IH]; auto.
  rewrite map_app, length_app, seq_app, IH. f_equal.
  eapply reduced_index; eauto.
Qed.

(** *** Counting the rows of the groups *)

Section Partition.

Variables K A : Type.
Variable eqb : K -> K -> bool.
Hypothesis eqb_spec : forall a b, eqb a b = true <-> a = b.

Lemma list_sum_cons (x : nat) (l : list nat) :
  list_sum (x :: l) = x + list_sum l.
Proof. reflexivity. Qed.

Lemma count_key (keys : list K) (c : K) :
  NoDup keys -> In c keys ->
  list_sum (map (fun k => if eqb c k then 1 else 0) keys) = 1.
Proof.
  induction 1 as [|k keys Hk Hnd IH]; intros Hin; [destruct Hin|].
  cbn [map]. rewrite list_sum_cons.
  destruct (eqb c k) eqn:E.
  - apply eqb_spec in E. subst k.
    assert (Z : list_sum (map (fun k => if eqb c k then 1 else 0) keys) = 0).
    { clear IH Hnd Hin. induction keys as [|k keys IH]; auto.
      cbn [map]. rewrite list_sum_cons. destruct (eqb c k) eqn:E.
      - apply eqb_spec in E. subst. exfalso. apply Hk. now left.
      - rewrite IH; auto. intros H. apply Hk. now right. }
    lia.
  - destruct Hin as [->|Hin].
    + assert (eqb c c = true) by now apply eqb_spec. congruence.
    + rewrite IH; auto.
Qed.

Lemma list_sum_map_add {X} (f g : X -> nat) (l : list X) :
  list_sum (map (fun x => f x + g x) l) = list_sum (map f l) + list_sum (map g l).
Proof.
  induction l as [|x l IH]; auto. cbn [map]. rewrite !list_sum_cons. lia.
Qed.

(** The groups of a [groupby] share out the rows. *)
Lemma partition_lengths (keys : list K) :
  NoDup keys ->
  forall (ks : list K) (l : list A),
    List.length ks = List.length l ->
    (forall c, In c ks -> In c keys) ->
    list_sum (map (fun k => List.length (compress (map (fun c => eqb c k) ks) l)) keys)
    = List.length l.
Proof.
  intros Hnd. induction ks as [|c ks IH]; intros [|a l] Hlen Hin;
    try discriminate.
  - clear. induction keys; simpl; auto.
  - rewrite (map_ext _ (fun k => (if eqb c k then 1 else 0)
                                 + List.length (compress (map (fun c => eqb c k) ks) l))).
    + assert (Hlen' : List.length ks = List.length l) by (simpl in Hlen; lia).
      assert (Hin' : forall c', In c' ks -> In c' keys)
        by (intros c' H; apply Hin; now right).
      assert (Hc : In c keys) by (apply Hin; now left).
      rewrite list_sum_map_add, (@count_key keys c Hnd Hc), (IH l Hlen' Hin').
      reflexivity.
    + intros k. cbn [map compress]. destruct (eqb c k); reflexivity.
Qed.

Lemma in_compress (mask : list bool) (l : list A) (a : A) :
  In a (compress mask l) -> In a l.
Proof.
  revert mask. induction l as [|x l IH]; intros [|b mask]; simpl; try tauto.
  destruct b; simpl; intros H.
  - destruct H; eauto.
  - eauto.
Qed.

Lemma in_compress_map (f : A -> bool) (l : list A) (a : A) :
  In a (compress (map f l) l) <-> In a l /\ f a = true.
Proof.
  induction l as [|x l IH]; cbn [map compress In]; [tauto|].
  destruct (f x) eqn:E; cbn [In]; rewrite IH.
  - split.
    + intros [->|[H1 H2]]; auto.
    + intros [[->|H1] H2]; auto.
  - split.
    + intros [H1 H2]; auto.
    + intros [[->|H1] H2]; [congruence|auto].
Qed.

End Partition.

Lemma rows_of_group {F} (table : DataFrame F) (g : string) (p : Point F) :
  In p (df_rows (get_group_by_name table g))
  <-> In p (df_rows table) /\ p_name p = g.
Proof.
  unfold get_group_by_name, take_rows. cbn [df_rows].
  rewrite in_compress_map. now rewrite String.eqb_eq.
Qed.

Lemma groups_share_rows {F} (table : DataFrame F) :
  list_sum (map (fun g => List.length (df_rows (get_group_by_name table g)))
                (groups_by_name table))
  = List.length (df_rows table).
Proof.
  unfold get_group_by_name, take_rows. cbn [df_rows].
  rewrite <- (@partition_lengths string (Point F) String.eqb String.eqb_eq
                (groups_by_name table) (groups_by_name_NoDup table)
                (map (@p_name F) (df_rows table)) (df_rows table)).
  - apply f_equal, map_ext. intros g. now rewrite map_map.
  - apply length_map.
  - intros c Hc. now apply in_groups_by_name.
Qed.

Lemma clusters_share_rows {F} (dc : DataFrame F) (cl : list nat) :
  List.length cl = List.length (df_rows dc) ->
  list_sum (map (fun cg => List.length (df_rows (get_group_by_cluster dc cl cg)))
                (groups_by_cluster cl))
  = List.length (df_rows dc).
Proof.
  intros Hlen. unfold get_group_by_cluster, take_rows. cbn [df_rows].
  apply (@partition_lengths nat (Point F) Nat.eqb Nat.eqb_eq
           (groups_by_cluster cl) (groups_by_cluster_NoDup cl)); auto.
  intros c Hc. now apply in_groups_by_cluster.
Qed.

Lemma assembled_weights {F} {num : Number F} (linkage : list F -> Dendrogram F)
      (table : DataFrame F) (i : nat) (groups : list string)
      (rows : list (ConsensusPoint F)) :
  assembled linkage table i groups rows ->
  list_sum (map (@c_weight F) rows)
  = list_sum (map (fun g => List.length (df_rows (get_group_by_name table g))) groups).
Proof.
  induction 1 as [|i g groups t rows more Hn Ht Hlen Hred Hasm IH]; auto.
  rewrite map_app, list_sum_app, IH. cbn [map list_sum]. f_equal.
  rewrite (reduced_weights Hred).
  now rewrite clusters_share_rows.
Qed.

(** *** The order of the rows *)

Lemma StronglySorted_app {A} (R : A -> A -> Prop) (l l' : list A) :
  StronglySorted R l -> StronglySorted R l' ->
  (forall a b, In a l -> In b l' -> R a b) ->
  StronglySorted R (l ++ l').
Proof.
  induction 1 as [|x l Hs IH Hall]; intros Hs' Hcross; cbn [app]; auto.
  constructor.
  - apply IH; auto. intros a b Ha Hb. apply Hcross; auto. now right.
  - apply Forall_app. split; auto.
    apply Forall_forall. intros b Hb. apply Hcross; auto. now left.
Qed.

Lemma reduced_sorted {F} {num : Number F} (group : string) (dc : DataFrame F)
      (cl : list nat) (i : nat) (keys : list nat) (rows : list (ConsensusPoint F)) :
  reduced group dc cl i keys rows ->
  StronglySorted lt keys ->
  StronglySorted (@consensus_before F) rows.
Proof.
  induction 1 as [|i cg keys row rows com p rest H1 H2 H3 H4 H5 H6 H7 H8 H9 Hred IH];
    intros Hs; [constructor|].
  inversion Hs as [|? ? Hs' Hall]; subst. constructor; auto.
  pose proof (reduced_names Hred) as Hn.
  pose proof (reduced_clusters Hred) as Hc.
  apply Forall_forall. intros c Hin. right.
  rewrite Forall_forall in Hn, Hall. split.
  - now rewrite (Hn c Hin).
  - apply Hall. rewrite <- Hc. now apply in_map.
Qed.

Lemma assembled_names {F} {num : Number F} (linkage : list F -> Dendrogram F)
      (table : DataFrame F) (i : nat) (groups : list string)
      (rows : list (ConsensusPoint F)) :
  assembled linkage table i groups rows ->
  Forall (fun c => In (c_name c) groups) rows.
Proof.
  induction 1 as [|i g groups t rows more Hn Ht Hlen Hred Hasm IH]; [constructor|].
  apply Forall_app. split.
  - eapply Forall_impl; [|exact (reduced_names Hred)].
    intros c ->. now left.
  - eapply Forall_impl; [|exact IH]. intros c H. now right.
Qed.

Lemma assembled_sorted {F} {num : Number F} (linkage : list F -> Dendrogram F)
      (table : DataFrame F) (i : nat) (groups : list string)
      (rows : list (ConsensusPoint F)) :
  assembled linkage table i groups rows ->
  StronglySorted (key_lt String.leb) groups ->
  StronglySorted (@consensus_before F) rows.
Proof.
  induction 1 as [|i g groups t rows more Hn Ht Hlen Hred Hasm IH];
    intros Hs; [constructor|].
  inversion Hs as [|? ? Hs' Hall]; subst.
  apply StronglySorted_app; auto.
  - eapply reduced_sorted; eauto. apply groups_by_cluster_sorted.
  - intros a b Ha Hb. left.
    pose proof (reduced_names Hred) as Hna.
    pose proof (assembled_names Hasm) as Hnb.
    rewrite Forall_forall in Hna, Hnb, Hall.
    rewrite (Hna a Ha). apply Hall. now apply Hnb.
Qed.

(** *** Names and colours *)

Lemma reduced_colours {F} {num : Number F} (group : string) (dc : DataFrame F)
      (cl : list nat) (i : nat) (keys : list nat) (rows : list (ConsensusPoint F)) :
  reduced group dc cl i keys rows ->
  Forall (fun c => exists p, In p (df_rows dc) /\ c_color c = p_color p) rows.
Proof.
  induction 1 as [|i cg keys row rows com p rest H1 H2 H3 H4 H5 H6 H7 H8 H9 Hred IH];
    constructor; auto.
  exists p. split; auto.
  apply (@in_compress (Point F) (map (fun c => Nat.eqb c cg) cl)).
  unfold get_group_by_cluster, take_rows in H4. cbn [df_rows] in H4.
  rewrite H4. now left.
Qed.

Lemma assembled_colours {F} {num : Number F} (linkage : list F -> Dendrogram F)
      (table : DataFrame F) (i : nat) (groups : list string)
      (rows : list (ConsensusPoint F)) :
  assembled linkage table i groups rows ->
  Forall (fun c => exists p, In p (df_rows table) /\ p_name p = c_name c /\
                             p_color p = c_color c) rows.
Proof.
  induction 1 as [|i g groups t rows more Hn Ht Hlen Hred Hasm IH]; [constructor|].
  apply Forall_app. split; auto.
  pose proof (reduced_names Hred) as Hna.
  pose proof (reduced_colours Hred) as Hco.
  rewrite Forall_forall in *. intros c Hc.
  destruct (Hco c Hc) as (p & Hp & Hcol).
  unfold clustered in Hp. cbn [df_rows] in Hp.
  apply rows_of_group in Hp. destruct Hp as [Hp Hname].
  exists p. rewrite (Hna c Hc). auto.
Qed.

Lemma assembled_covers {F} {num : Number F} (linkage : list F -> Dendrogram F)
      (table : DataFrame F) (i : nat) (groups : list string)
      (rows : list (ConsensusPoint F)) :
  assembled linkage table i groups rows ->
  forall g, In g groups -> In g (map (@c_name F) rows).
Proof.
  induction 1 as [|i g groups t rows more Hn Ht Hlen Hred Hasm IH];
    intros g' Hg'; [destruct Hg'|].
  rewrite map_app, in_app_iff.
  destruct Hg' as [<-|Hg']; [left|right; auto].
  pose proof (reduced_names Hred) as Hna.
  pose proof (reduced_length Hred) as Hl.
  destruct rows as [|c rows].
  - exfalso.
    destruct (cluster_ids linkage (get_group_by_name table g) t) as [|k cl] eqn:E.
    + rewrite <- Hlen in Hn. cbn [List.length] in Hn. lia.
    + assert (Hk : In k (groups_by_cluster (k :: cl)))
        by (apply in_groups_by_cluster; now left).
      destruct (groups_by_cluster (k :: cl)); [destruct Hk|discriminate].
  - left. now inversion Hna.
Qed.

(** ** The assembler: properties of the returned table *)

(** X1: on a normal return the rows of [Concensus] carry the index labels
    1, 2, ..., one after the other, whatever the feature types. *)
Theorem X1_consensus_index_counts_from_one :
  forall {F} {num : Number F} (linkage : list F -> Dendrogram F) (table : ref)
         (save : bool) (out : string) (h_dist : F) (w w' : World F)
         (C : list (ConsensusPoint F)) (L : list (string * LinkEntry F)),
    compute_concensus_pharmacophore linkage table save out h_dist w
    = (Ok (C, L), w') ->
    map (@c_index F) C = seq 1 (List.length C).
Proof.
  intros F num linkage table save out h_dist w w' C L Hrun.
  apply compute_concensus_ok_inv in Hrun.
  destruct Hrun as (df & _ & Hasm & _).
  eapply assembled_index; eauto.
Qed.

Lemma X1_witness :
  exists C L w',
    Run.run_on Run.two_types = (Ok (C, L), w') /\
    map (@c_index float) C = seq 1 (List.length C).
Proof.
  eexists. eexists. eexists. split; [vm_compute; reflexivity|].
  eapply (@X1_consensus_index_counts_from_one float _ complete_linkage 0 true
            "out"%string default_h_dist {| heap := [Run.two_types]; files := [] |}).
  vm_compute. reflexivity.
Defined.

(** X2: on a normal return the [weight] column of [Concensus] adds up to
    the number of rows of the input table: every input point is counted
    in exactly one consensus row. *)
Theorem X2_consensus_weights_count_every_point :
  forall {F} {num : Number F} (linkage : list F -> Dendrogram F) (table : ref)
         (df : DataFrame F) (save : bool) (out : string) (h_dist : F)
         (w w' : World F)
         (C : list (ConsensusPoint F)) (L : list (string * LinkEntry F)),
    nth_error (heap w) table = Some df ->
    compute_concensus_pharmacophore linkage table save out h_dist w
    = (Ok (C, L), w') ->
    list_sum (map (@c_weight F) C) = List.length (df_rows df).
Proof.
  intros F num linkage table df save out h_dist w w' C L Hdf Hrun.
  apply compute_concensus_ok_inv in Hrun.
  destruct Hrun as (df' & Hdf' & Hasm & _).
  assert (df' = df) by congruence. subst df'.
  rewrite (assembled_weights Hasm). apply groups_share_rows.
Qed.

Lemma X2_witness :
  exists C L w',
    nth_error (heap {| heap := [Run.two_pairs]; files := [] |}) 0 = Some Run.two_pairs /\
    Run.run_on Run.two_pairs = (Ok (C, L), w') /\
    list_sum (map (@c_weight float) C) = List.length (df_rows Run.two_pairs).
Proof.
  eexists. eexists. eexists. split; [reflexivity|].
  split; [vm_compute; reflexivity|].
  eapply (@X2_consensus_weights_count_every_point float _ complete_linkage 0
            Run.two_pairs true "out"%string default_h_dist
            {| heap := [Run.two_pairs]; files := [] |}).
  - reflexivity.
  - vm_compute. reflexivity.
Defined.

(** X3: on a normal return the rows of [Concensus] are in strictly
    increasing order of (name, cluster): feature types in the sorted order
    of their names, and within a feature type the cluster ids increasing.
    In particular no (name, cluster) pair occurs twice. *)
Theorem X3_consensus_sorted_by_name_then_cluster :
  forall {F} {num : Number F} (linkage : list F -> Dendrogram F) (table : ref)
         (save : bool) (out : string) (h_dist : F) (w w' : World F)
         (C : list (ConsensusPoint F)) (L : list (string * LinkEntry F)),
    compute_concensus_pharmacophore linkage table save out h_dist w
    = (Ok (C, L), w') ->
    StronglySorted (@consensus_before F) C.
Proof.
  intros F num linkage table save out h_dist w w' C L Hrun.
  apply compute_concensus_ok_inv in Hrun.
  destruct Hrun as (df & _ & Hasm & _).
  eapply assembled_sorted; eauto. apply groups_by_name_sorted.
Qed.

Lemma X3_witness :
  exists C L w',
    Run.run_on Run.two_types = (Ok (C, L), w') /\
    StronglySorted (@consensus_before float) C.
Proof.
  eexists. eexists. eexists. split; [vm_compute; reflexivity|].
  eapply (@X3_consensus_sorted_by_name_then_cluster float _ complete_linkage 0 true
            "out"%string default_h_dist {| heap := [Run.two_types]; files := [] |}).
  vm_compute. reflexivity.
Defined.

(** X4: on a normal return the feature types of [Concensus] are exactly
    those of the input table: none is invented, none is lost. *)
Theorem X4_consensus_has_the_feature_types_of_the_table :
  forall {F} {num : Number F} (linkage : list F -> Dendrogram F) (table : ref)
         (df : DataFrame F) (save : bool) (out : string) (h_dist : F)
         (w w' : World F)
         (C : list (ConsensusPoint F)) (L : list (string * LinkEntry F)),
    nth_error (heap w) table = Some df ->
    compute_concensus_pharmacophore linkage table save out h_dist w
    = (Ok (C, L), w') ->
    forall g, In g (map (@c_name F) C) <-> In g (map (@p_name F) (df_rows df)).
Proof.
  intros F num linkage table df save out h_dist w w' C L Hdf Hrun g.
  apply compute_concensus_ok_inv in Hrun.
  destruct Hrun as (df' & Hdf' & Hasm & _).
  assert (df' = df) by congruence. subst df'.
  rewrite <- in_groups_by_name. split.
  - intros Hg. apply in_map_iff in Hg. destruct Hg as (c & <- & Hc).
    pose proof (assembled_names Hasm) as Hn. rewrite Forall_forall in Hn. auto.
  - eapply assembled_covers; eauto.
Qed.

Lemma X4_witness :
  exists C L w',
    nth_error (heap {| heap := [Run.two_types]; files := [] |}) 0 = Some Run.two_types /\
    Run.run_on Run.two_types = (Ok (C, L), w') /\
    forall g, In g (map (@c_name float) C)
              <-> In g (map (@p_name float) (df_rows Run.two_types)).
Proof.
  eexists. eexists. eexists. split; [reflexivity|].
  split; [vm_compute; reflexivity|].
  eapply (@X4_consensus_has_the_feature_types_of_the_table float _ complete_linkage 0
            Run.two_types true "out"%string default_h_dist
            {| heap := [Run.two_types]; files := [] |}).
  - reflexivity.
  - vm_compute. reflexivity.
Defined.

(** X5: on a normal return every consensus row takes its colour from an
    input point of its own feature type. *)
Theorem X5_consensus_colour_comes_from_a_point_of_the_type :
  forall {F} {num : Number F} (linkage : list F -> Dendrogram F) (table : ref)
         (df : DataFrame F) (save : bool) (out : string) (h_dist : F)
         (w w' : World F)
         (C : list (ConsensusPoint F)) (L : list (string * LinkEntry F)),
    nth_error (heap w) table = Some df ->
    compute_concensus_pharmacophore linkage table save out h_dist w
    = (Ok (C, L), w') ->
    forall c, In c C ->
              exists p, In p (df_rows df) /\ p_name p = c_name c /\
                        p_color p = c_color c.
Proof.
  intros F num linkage table df save out h_dist w w' C L Hdf Hrun c Hc.
  apply compute_concensus_ok_inv in Hrun.
  destruct Hrun as (df' & Hdf' & Hasm & _).
  assert (df' = df) by congruence. subst df'.
  pose proof (assembled_colours Hasm) as H. rewrite Forall_forall in H. auto.
Qed.

Lemma X5_witness :
  exists C L w',
    nth_error (heap {| heap := [Run.two_types]; files := [] |}) 0 = Some Run.two_types /\
    Run.run_on Run.two_types = (Ok (C, L), w') /\
    forall c, In c C ->
              exists p, In p (df_rows Run.two_types) /\ p_name p = c_name c /\
                        p_color p = c_color c.
Proof.
  eexists. eexists. eexists. split; [reflexivity|].
  split; [vm_compute; reflexivity|].
  eapply (@X5_consensus_colour_comes_from_a_point_of_the_type float _
            complete_linkage 0 Run.two_types true "out"%string default_h_dist
            {| heap := [Run.two_types]; files := [] |}).
  - reflexivity.
  - vm_compute. reflexivity.
Defined.

(** X6: on a normal return [Links] holds one entry per feature type, in
    the sorted order of the names: the matrix of the distances between the
    points of the type, and the linkage computed from [pdist] of that
    matrix. *)
Theorem X6_links_one_entry_per_feature_type :
  forall {F} {num : Number F} (linkage : list F -> Dendrogram F) (table : ref)
         (df : DataFrame F) (save : bool) (out : string) (h_dist : F)
         (w w' : World F)
         (C : list (ConsensusPoint F)) (L : list (string * LinkEntry F)),
    nth_error (heap w) table = Some df ->
    compute_concensus_pharmacophore linkage table save out h_dist w
    = (Ok (C, L), w') ->
    L = map (link_entry_of linkage df) (groups_by_name df).
Proof.
  intros F num linkage table df save out h_dist w w' C L Hdf Hrun.
  apply compute_concensus_ok_inv in Hrun.
  destruct Hrun as (df' & Hdf' & _ & HL & _).
  assert (df' = df) by congruence. now subst df'.
Qed.

Lemma X6_witness :
  exists C L w',
    nth_error (heap {| heap := [Run.two_types]; files := [] |}) 0 = Some Run.two_types /\
    Run.run_on Run.two_types = (Ok (C, L), w') /\
    L = map (link_entry_of complete_linkage Run.two_types)
            (groups_by_name Run.two_types).
Proof.
  eexists. eexists. eexists. split; [reflexivity|].
  split; [vm_compute; reflexivity|].
  eapply (@X6_links_one_entry_per_feature_type float _
            complete_linkage 0 Run.two_types true "out"%string default_h_dist
            {| heap := [Run.two_types]; files := [] |}).
  - reflexivity.
  - vm_compute. reflexivity.
Defined.

(** X7: on a normal return with [save_data_per_descriptor] set, the call
    has written, for each feature type in the sorted order of the names,
    [<out_folder>/<type>_clusters.pse] and then
    [<out_folder>/<type>_clusters.png], and nothing else; with the flag
    unset it has written nothing. *)
Theorem X7_diagnostic_files_of_a_normal_return :
  forall {F} {num : Number F} (linkage : list F -> Dendrogram F) (table : ref)
         (df : DataFrame F) (save : bool) (out : string) (h_dist : F)
         (w w' : World F)
         (C : list (ConsensusPoint F)) (L : list (string * LinkEntry F)),
    nth_error (heap w) table = Some df ->
    compute_concensus_pharmacophore linkage table save out h_dist w
    = (Ok (C, L), w') ->
    files w' = files w
               ++ (if save then flat_map (diagnostic_files out) (groups_by_name df)
                   else []).
Proof.
  intros F num linkage table df save out h_dist w w' C L Hdf Hrun.
  apply compute_concensus_ok_inv in Hrun.
  destruct Hrun as (df' & Hdf' & _ & _ & Hfiles).
  assert (df' = df) by congruence. now subst df'.
Qed.

Lemma X7_witness :
  exists C L w',
    nth_error (heap {| heap := [Run.two_types]; files := [] |}) 0 = Some Run.two_types /\
    Run.run_on Run.two_types = (Ok (C, L), w') /\
    files w' = [] ++ flat_map (diagnostic_files "out") (groups_by_name Run.two_types).
Proof.
  eexists. eexists. eexists. split; [reflexivity|].
  split; [vm_compute; reflexivity|].
  eapply (@X7_diagnostic_files_of_a_normal_return float _
            complete_linkage 0 Run.two_types true "out"%string default_h_dist
            {| heap := [Run.two_types]; files := [] |}).
  - reflexivity.
  - vm_compute. reflexivity.
Defined.

(** ** Computations that write no file *)

Lemma quiet_ret {F A} (a : A) : quiet (F:=F) (ret a).
Proof. intros w. reflexivity. Qed.

Lemma quiet_raise {F A} (e : exn) : quiet (F:=F) (A:=A) (raise e).
Proof. intros w. reflexivity. Qed.

Lemma quiet_lift {F A} (r : result A) : quiet (F:=F) (lift r).
Proof. intros w. reflexivity. Qed.

Lemma quiet_bind {F A B} (m : M F A) (k : A -> M F B) :
  quiet m -> (forall a, quiet (k a)) -> quiet (bind m k).
Proof.
  intros Hm Hk w. unfold bind. specialize (Hm w).
  destruct (m w) as [[a|e] w1]; simpl in *; auto.
  now rewrite Hk.
Qed.

Lemma quiet_get_frame {F} (r : ref) : quiet (F:=F) (get_frame r).
Proof. intros w. unfold get_frame. now destruct (nth_error (heap w) r). Qed.

Lemma quiet_put_frame {F} (r : ref) (df : DataFrame F) : quiet (put_frame r df).
Proof. intros w. reflexivity. Qed.

Lemma quiet_alloc {F} (df : DataFrame F) : quiet (alloc df).
Proof. intros w. reflexivity. Qed.

Lemma quiet_local {F A} (name : string) (v : option A) : quiet (F:=F) (local name v).
Proof. destruct v; [apply quiet_ret|apply quiet_raise]. Qed.

Lemma quiet_set_cluster {F} (r : ref) (v : list nat) : quiet (F:=F) (set_cluster r v).
Proof.
  unfold set_cluster. apply quiet_bind; [apply quiet_get_frame|]. intros df.
  destruct (Nat.eqb _ _); [apply quiet_put_frame|apply quiet_raise].
Qed.

Lemma quiet_set_weight {F} (r : ref) (v : list nat) : quiet (F:=F) (set_weight r v).
Proof.
  unfold set_weight. apply quiet_bind; [apply quiet_get_frame|]. intros df.
  destruct (Nat.eqb _ _); [apply quiet_put_frame|apply quiet_raise].
Qed.

Lemma quiet_set_balance {F} (r : ref) (v : list F) : quiet (set_balance r v).
Proof.
  unfold set_balance. apply quiet_bind; [apply quiet_get_frame|]. intros df.
  destruct (Nat.eqb _ _); [apply quiet_put_frame|apply quiet_raise].
Qed.

Lemma quiet_compute_cluster {F} {num : Number F}
      (linkage : list F -> Dendrogram F) (g : ref) :
  quiet (__compute_cluster linkage g).
Proof.
  unfold __compute_cluster.
  apply quiet_bind; [apply quiet_get_frame|]. intros df.
  apply quiet_bind.
  - destruct (Nat.ltb _ _); [|apply quiet_ret].
    apply quiet_bind; [apply quiet_lift|]. intros t.
    apply quiet_bind; [apply quiet_set_cluster|]. intros _.
    apply quiet_bind; [apply quiet_set_weight|]. intros _.
    apply quiet_bind; [apply quiet_set_balance|]. intros _.
    apply quiet_ret.
  - intros [l m].
    apply quiet_bind; [apply quiet_local|]. intros l'.
    apply quiet_bind; [apply quiet_local|]. intros m'.
    apply quiet_ret.
Qed.

Lemma quiet_for_each {F A S} (xs : list A) (body : S -> A -> M F S) (s : S) :
  (forall s x, quiet (body s x)) -> quiet (for_each xs body s).
Proof.
  intros Hb. revert s. induction xs as [|x xs IH]; intros s; cbn [for_each].
  - apply quiet_ret.
  - apply quiet_bind; auto.
Qed.

Lemma quiet_process_group {F} {num : Number F}
      (linkage : list F -> Dendrogram F) (table : DataFrame F)
      (out : string) acc (group : string) :
  quiet (process_group linkage table false out acc group).
Proof.
  unfold process_group. destruct acc as [[Concensus Links] index].
  apply quiet_bind; [apply quiet_alloc|]. intros g.
  apply quiet_bind; [apply quiet_compute_cluster|]. intros [[l m] dc].
  apply quiet_bind; [apply quiet_ret|]. intros _.
  apply quiet_bind; [apply quiet_get_frame|]. intros dc'.
  apply quiet_bind; [apply quiet_lift|]. intros cc.
  apply quiet_bind; [apply quiet_lift|]. intros [C i].
  apply quiet_ret.
Qed.

(** X8: with [save_data_per_descriptor=False] the call writes no file,
    whether it returns or raises, for every number type. *)
Theorem X8_no_file_without_save_data_per_descriptor :
  forall {F} {num : Number F} (linkage : list F -> Dendrogram F) (table : ref)
         (out : string) (h_dist : F) (w : World F),
    files (snd (compute_concensus_pharmacophore linkage table false out h_dist w))
    = files w.
Proof.
  intros F num linkage table out h_dist.
  change (quiet (compute_concensus_pharmacophore linkage table false out h_dist)).
  unfold compute_concensus_pharmacophore.
  apply quiet_bind; [apply quiet_get_frame|]. intros df.
  apply quiet_bind.
  - apply quiet_for_each. intros s x. apply quiet_process_group.
  - intros [[C L] i]. apply quiet_ret.
Qed.

(** ** The assembler: when it returns, and with which radii and cluster ids *)



Lemma reducer_radius_inv {F} {num : Number F} (table : DataFrame F)
      (com : list F) (r : F) :
  __compute_center_of_mass_and_radius table = Ok (com, r) ->
  exists raw, r = clamp_radius (map (@p_name F) (df_rows table)) raw.
Proof.
  unfold __compute_center_of_mass_and_radius.
  destruct (column "weight" (df_weight table)) as [W|e]; [|discriminate].
  cbn [result_bind].
  destruct (np_average _ _) as [c|e]; [|discriminate].
  cbn [result_bind].
  destruct (raw_radius c (df_rows table)) as [raw|e]; [|discriminate].
  cbn [result_bind]. intros E. inversion E; subst. eauto.
Qed.

Lemma reduced_radius (group : string) (dc : DataFrame R)
      (cl : list nat) (i : nat) (keys : list nat) (rows : list (ConsensusPoint R)) :
  reduced group dc cl i keys rows ->
  Forall (fun p => p_name p = group) (df_rows dc) ->
  Forall (fun c => (0.5 <= c_radius c)%R /\
                   (group = "Hydrophobic"%string -> (1 <= c_radius c)%R)) rows.
Proof.
  intros Hred Hall.
  induction Hred as [|i cg keys row rows com p rest H1 H2 H3 H4 H5 H6 H7 H8 H9 Hred IH];
    constructor; auto.
  destruct (reducer_radius_inv _ H7) as (raw & ->).
  set (clus := get_group_by_cluster dc cl cg) in *.
  assert (Hu : has_hydrophobic (map (@p_name R) (df_rows clus))
               = String.eqb "Hydrophobic" group).
  { apply has_hydrophobic_uniform; [rewrite H4; discriminate|].
    unfold clus, get_group_by_cluster, take_rows. cbn [df_rows].
    now apply compress_Forall. }
  destruct (clamp_radius_floor (map (@p_name R) (df_rows clus)) raw) as [Hh Hn].
  rewrite Hu in Hh, Hn.
  destruct (String.eqb "Hydrophobic" group) eqn:E.
  - specialize (Hh eq_refl). split; [lra|auto].
  - specialize (Hn eq_refl). split; [exact Hn|].
    intros ->. rewrite String.eqb_refl in E. discriminate.
Qed.

Lemma assembled_radius (linkage : list R -> Dendrogram R)
      (table : DataFrame R) (i : nat) (groups : list string)
      (rows : list (ConsensusPoint R)) :
  assembled linkage table i groups rows ->
  Forall (fun c => (0.5 <= c_radius c)%R /\
                   (c_name c = "Hydrophobic"%string -> (1 <= c_radius c)%R)) rows.
Proof.
  induction 1 as [|i g groups t rows more Hn Ht Hlen Hred Hasm IH]; [constructor|].
  apply Forall_app. split; auto.
  pose proof (reduced_names Hred) as Hna.
  assert (Hr : Forall (fun c => (0.5 <= c_radius c)%R /\
                     (g = "Hydrophobic"%string -> (1 <= c_radius c)%R)) rows).
  { apply (@reduced_radius g _ _ i _ rows Hred).
    unfold clustered. cbn [df_rows]. apply Forall_forall. intros p Hp.
    now apply rows_of_group in Hp. }
  rewrite Forall_forall in *. intros c Hc.
  rewrite (Hna c Hc). now apply Hr.
Qed.

(** X10: over the reals, every row of a returned [Concensus] table has a
    radius of at least 0.5, and of at least 1 when its feature type is
    Hydrophobic. *)
Theorem X10_every_consensus_radius_at_least_the_floor :
  forall (linkage : list R -> Dendrogram R) (table : ref)
         (save : bool) (out : string) (h_dist : R) (w w' : World R)
         (C : list (ConsensusPoint R)) (L : list (string * LinkEntry R)),
    compute_concensus_pharmacophore linkage table save out h_dist w
    = (Ok (C, L), w') ->
    forall c, In c C ->
              (0.5 <= c_radius c)%R /\
              (c_name c = "Hydrophobic"%string -> (1 <= c_radius c)%R).
Proof.
  intros linkage table save out h_dist w w' C L Hrun.
  apply compute_concensus_ok_inv in Hrun.
  destruct Hrun as (df & _ & Hasm & _).
  apply Forall_forall. eapply assembled_radius; eauto.
Qed.

Lemma X10_witness :
  exists C L w',
    compute_concensus_pharmacophore complete_linkage 0 true "out" 0.17%R
      three_points_world = (Ok (C, L), w') /\
    forall c, In c C ->
              (0.5 <= c_radius c)%R /\
              (c_name c = "Hydrophobic"%string -> (1 <= c_radius c)%R).
Proof.
  destruct (@large_groups_return complete_linkage three_points_world 0
              (new_frame three_points) true "out"%string 0.17%R
              complete_linkage_contract eq_refl) as (C & L & w' & E).
  - intros p [<-|[<-|[<-|[]]]]; simpl; lia.
  - exists C, L, w'. split; [exact E|].
    exact (@X10_every_consensus_radius_at_least_the_floor complete_linkage 0 true
             "out"%string 0.17%R three_points_world w' C L E).
Defined.

(** *** The cluster ids of one feature type *)

Lemma sorted_interval (l : list nat) :
  StronglySorted lt l ->
  forall a n, (forall x, In x l <-> a <= x < a + n) -> l = seq a n.
Proof.
  induction 1 as [|x l Hs IH Hall]; intros a n Hin.
  - destruct n as [|n]; [reflexivity|].
    exfalso. apply (proj2 (Hin a)). lia.
  - rewrite Forall_forall in Hall.
    assert (Hx : a <= x < a + n) by (apply Hin; now left).
    assert (Ha : In a (x :: l)) by (apply Hin; lia).
    assert (x = a).
    { destruct Ha as [E|Ha]; [exact E|]. apply Hall in Ha. lia. }
    subst x. destruct n as [|n]; [lia|].
    cbn [seq]. f_equal. apply IH. intros y. split.
    + intros Hy. pose proof (Hall y Hy).
      assert (a <= y < a + S n) by (apply Hin; now right). lia.
    + intros Hy. assert (H : In y (a :: l)) by (apply Hin; lia).
      destruct H as [E|H]; [lia|exact H].
Qed.

Lemma filter_none {A} (f : A -> bool) (l : list A) :
  (forall a, In a l -> f a = false) -> filter f l = [].
Proof.
  induction l as [|a l IH]; intros H; cbn [filter]; auto.
  rewrite (H a) by now left. apply IH. intros b Hb. apply H. now right.
Qed.

Lemma filter_all {A} (f : A -> bool) (l : list A) :
  (forall a, In a l -> f a = true) -> filter f l = l.
Proof.
  induction l as [|a l IH]; intros H; cbn [filter]; auto.
  rewrite (H a) by now left. f_equal. apply IH. intros b Hb. apply H. now right.
Qed.

(** The rows of one feature type in the assembled table. *)
Lemma assembled_group {F} {num : Number F} (linkage : list F -> Dendrogram F)
      (table : DataFrame F) (i : nat) (groups : list string)
      (rows : list (ConsensusPoint F)) :
  assembled linkage table i groups rows ->
  NoDup groups ->
  forall g, In g groups ->
    exists t,
      (2 < List.length (df_rows (get_group_by_name table g)))%nat /\
      map (@c_cluster F) (filter (fun c => String.eqb (c_name c) g) rows)
      = groups_by_cluster (cluster_ids linkage (get_group_by_name table g) t).
Proof.
  induction 1 as [|i g0 groups t rows more Hn Ht Hlen Hred Hasm IH];
    intros Hnd g Hg; [destruct Hg|].
  inversion Hnd as [|? ? Hnotin Hnd']; subst.
  pose proof (reduced_names Hred) as Hna.
  pose proof (assembled_names Hasm) as Hnb.
  rewrite Forall_forall in Hna, Hnb.
  rewrite filter_app, map_app.
  destruct Hg as [->|Hg].
  - exists t. split; [exact Hn|].
    rewrite filter_all, filter_none.
    + rewrite app_nil_r. eapply reduced_clusters; eauto.
    + intros c Hc. apply String.eqb_neq. intros E.
      apply Hnotin. rewrite <- E. now apply Hnb.
    + intros c Hc. apply String.eqb_eq. now apply Hna.
  - destruct (IH Hnd' g Hg) as (t' & Hn' & E). exists t'. split; [exact Hn'|].
    rewrite filter_none; [exact E|].
    intros c Hc. apply String.eqb_neq. rewrite (Hna c Hc). intros ->. contradiction.
Qed.

(** X11: for a linkage that meets its contract, on a normal return the
    consensus rows of each feature type of the table carry the cluster ids
    1, 2, ..., k in this order, for some k >= 1: the numbering starts
    again at 1 in every feature type and has no gap. *)
Theorem X11_cluster_ids_count_from_one_in_every_type :
  forall {F} {num : Number F} (linkage : list F -> Dendrogram F) (table : ref)
         (df : DataFrame F) (save : bool) (out : string) (h_dist : F)
         (w w' : World F)
         (C : list (ConsensusPoint F)) (L : list (string * LinkEntry F)),
    linkage_contract linkage ->
    nth_error (heap w) table = Some df ->
    compute_concensus_pharmacophore linkage table save out h_dist w
    = (Ok (C, L), w') ->
    forall g, In g (map (@p_name F) (df_rows df)) ->
      exists k,
        (1 <= k)%nat /\
        map (@c_cluster F) (filter (fun c => String.eqb (c_name c) g) C) = seq 1 k.
Proof.
  intros F num linkage table df save out h_dist w w' C L Hc Hdf Hrun g Hg.
  apply compute_concensus_ok_inv in Hrun.
  destruct Hrun as (df' & Hdf' & Hasm & _).
  assert (df' = df) by congruence. subst df'.
  apply in_groups_by_name in Hg.
  destruct (assembled_group Hasm (groups_by_name_NoDup df) g Hg) as (t & Hn & E).
  rewrite E. unfold cluster_ids.
  set (gdf := get_group_by_name df g) in *.
  set (matrix := distance_matrix (map (@xyz F) (df_rows gdf))
                                 (map (@xyz F) (df_rows gdf))).
  set (n := List.length (df_rows gdf)) in *.
  assert (Hdm : (2 * List.length (pdist matrix) = n * (n - 1))%nat).
  { rewrite length_pdist. unfold matrix.
    now rewrite length_distance_matrix, length_map. }
  destruct (@fcluster_spec F num (linkage (pdist matrix)) t n ltac:(lia)
              (Hc n (pdist matrix) ltac:(lia) Hdm))
    as (Hlen & k & Hk & Hra & Hsu & _).
  exists k. split; [exact Hk|].
  apply sorted_interval; [apply groups_by_cluster_sorted|].
  intros x. rewrite in_groups_by_cluster. split.
  - intros Hin. destruct (In_nth _ _ 0%nat Hin) as (j & Hj & <-).
    rewrite Hlen in Hj. specialize (Hra j Hj). lia.
  - intros Hx. destruct (Hsu x ltac:(lia)) as (j & Hj & <-).
    apply nth_In. now rewrite Hlen.
Qed.

Lemma X11_witness :
  exists C L w',
    (linkage_contract (F:=float) complete_linkage /\
     nth_error (heap {| heap := [Run.two_pairs]; files := [] |}) 0 = Some Run.two_pairs /\
     Run.run_on Run.two_pairs = (Ok (C, L), w')) /\
    forall g, In g (map (@p_name float) (df_rows Run.two_pairs)) ->
      exists k,
        (1 <= k)%nat /\
        map (@c_cluster float) (filter (fun c => String.eqb (c_name c) g) C) = seq 1 k.
Proof.
  eexists. eexists. eexists.
  split; [split; [apply complete_linkage_contract|split; [reflexivity|vm_compute; reflexivity]]|].
  eapply (@X11_cluster_ids_count_from_one_in_every_type float _ complete_linkage 0
            Run.two_pairs true "out"%string default_h_dist
            {| heap := [Run.two_pairs]; files := [] |}).
  - apply complete_linkage_contract.
  - reflexivity.
  - vm_compute. reflexivity.
Defined.

(** ** [save_pharmacophore_to_pymol] *)








(** X15: on a table with rows but without the added columns, as
    [parse_json_pharmacophore] returns it, [select='cluster'] raises
    [KeyError] for [cluster] and [select='concensus'] raises [KeyError]
    for [weight]; in both cases no [cmd] call has been made: nothing is
    saved and the session is not cleared. *)
Theorem X15_pymol_grouped_export_needs_the_added_columns :
  forall {F} (table : DataFrame F) (out_file : string) (s : PyMOL.Session),
    df_rows table <> [] ->
    (df_cluster table = None ->
     PyMOL.save_pharmacophore_to_pymol table out_file "cluster" s
     = (Raise (KeyError "cluster"), s)) /\
    (df_weight table = None ->
     PyMOL.save_pharmacophore_to_pymol table out_file "concensus" s
     = (Raise (KeyError "weight"), s)).
Proof.
  intros F table out_file s Hne.
  destruct (df_rows table) as [|p rows] eqn:E; [congruence|].
  unfold PyMOL.save_pharmacophore_to_pymol. split; intros Hnone.
  - change (String.eqb "cluster" "cluster") with true. cbn iota. rewrite E.
    cbn [PyMOL.export_rows]. unfold PyMOL.atom_cluster, PyMOL.loc.
    now rewrite Hnone.
  - change (String.eqb "concensus" "cluster") with false.
    change (String.eqb "concensus" "concensus") with true. cbn iota. rewrite E.
    cbn [PyMOL.export_rows]. unfold PyMOL.atom_concensus, PyMOL.loc.
    now rewrite Hnone.
Qed.

Lemma X15_witness :
  df_rows Run.two_pairs <> [] /\
  (df_cluster Run.two_pairs = None ->
   PyMOL.save_pharmacophore_to_pymol Run.two_pairs "out.pse" "cluster"
     {| PyMOL.commands := []; PyMOL.printed := [] |}
   = (Raise (KeyError "cluster"), {| PyMOL.commands := []; PyMOL.printed := [] |})) /\
  (df_weight Run.two_pairs = None ->
   PyMOL.save_pharmacophore_to_pymol Run.two_pairs "out.pse" "concensus"
     {| PyMOL.commands := []; PyMOL.printed := [] |}
   = (Raise (KeyError "weight"), {| PyMOL.commands := []; PyMOL.printed := [] |})).
Proof.
  assert (Hne : df_rows Run.two_pairs <> []) by discriminate.
  split; [exact Hne|].
  exact (@X15_pymol_grouped_export_needs_the_added_columns float Run.two_pairs
           "out.pse"%string {| PyMOL.commands := []; PyMOL.printed := [] |} Hne).
Defined.




(** ** [show_pharmacophoric_descriptors] *)

Lemma enabled_is_spec {F} (b : bool) (d : Show.Descriptor (F:=F)) :
  Show.enabled_is b d = true <-> Show.d_enabled d = Some b.
Proof.
  unfold Show.enabled_is. destruct (Show.d_enabled d) as [e|].
  - rewrite Bool.eqb_true_iff. split; congruence.
  - split; discriminate.
Qed.

(** X17: [selection='enabled'] shows the rows whose [enabled] cell is
    True and [selection='disabled'] those whose cell is False, so a row
    with a missing cell is shown by neither; every other value of
    [selection], 'all' or not, shows the whole table. *)
Theorem X17_show_selection_by_the_enabled_column :
  forall {F} (table : list (Show.Descriptor (F:=F))) (d : Show.Descriptor (F:=F)),
    (In d (Show.selected table "enabled")
     <-> In d table /\ Show.d_enabled d = Some true) /\
    (In d (Show.selected table "disabled")
     <-> In d table /\ Show.d_enabled d = Some false) /\
    (forall selection : string,
        selection <> "enabled"%string -> selection <> "disabled"%string ->
        Show.selected table selection = table).
Proof.
  intros F table d.
  assert (E1 : Show.selected table "enabled" = filter (Show.enabled_is true) table)
    by reflexivity.
  assert (E2 : Show.selected table "disabled" = filter (Show.enabled_is false) table)
    by reflexivity.
  rewrite E1, E2, !filter_In, !enabled_is_spec.
  split; [tauto|]. split; [tauto|].
  intros selection H1 H2. unfold Show.selected.
  apply String.eqb_neq in H1, H2.
  rewrite H1, H2. now destruct (String.eqb selection "all").
Qed.

Lemma components_clean {F} (key : string)
      (get : option F * option F * option F -> option F)
      (table : list (Show.Descriptor (F:=F))) :
  (forall x y z, exists c, get (Some x, Some y, Some z) = Some c) ->
  Show.clean_svectors table ->
  exists l,
    Show.components key get table = Ok l /\
    List.length l = List.length (Show.dropna_svector table).
Proof.
  intros Hget. unfold Show.clean_svectors, Show.dropna_svector.
  induction 1 as [|d table Hd Hall IH]; cbn [Show.components filter].
  - exists []. auto.
  - destruct IH as (l & El & Hl).
    destruct (Show.d_svector d) as [|[x|] [y|] [z|]|]; try contradiction.
    + exists l. auto.
    + destruct (Hget x y z) as (c & Ec). rewrite Ec, El. cbn [result_bind].
      exists (c :: l). split; auto. cbn [List.length]. now rewrite Hl.
Qed.

(** X18: when every [svector] cell is missing or a dict with the keys x,
    y and z, the arguments of [go.Cone] are well formed: the three lists
    of vector components are as long as the three lists of positions, one
    entry per row that has a vector. *)
Theorem X18_cone_components_match_positions :
  forall {F} (table : list (Show.Descriptor (F:=F))),
    Show.clean_svectors table ->
    exists c,
      Show.cone table = Ok c /\
      List.length (Show.cone_u c) = List.length (Show.cone_x c) /\
      List.length (Show.cone_v c) = List.length (Show.cone_y c) /\
      List.length (Show.cone_w c) = List.length (Show.cone_z c) /\
      List.length (Show.cone_x c) = List.length (Show.dropna_svector table).
Proof.
  intros F table Hclean. unfold Show.cone.
  destruct (@components_clean F "x" (fun c => fst (fst c)) table) as (u & Eu & Hu);
    [intros; cbn [fst]; eauto|exact Hclean|].
  destruct (@components_clean F "y" (fun c => snd (fst c)) table) as (v & Ev & Hv);
    [intros; cbn [fst snd]; eauto|exact Hclean|].
  destruct (@components_clean F "z" (fun c => snd c) table) as (w & Ew & Hw);
    [intros; cbn [snd]; eauto|exact Hclean|].
  rewrite Eu, Ev, Ew. cbn [result_bind].
  eexists. split; [reflexivity|].
  cbn [Show.cone_u Show.cone_v Show.cone_w Show.cone_x Show.cone_y Show.cone_z].
  rewrite !length_map. auto.
Qed.

Lemma X18_witness :
  Show.clean_svectors
    [ {| Show.d_point := Run.pt 0 "Aromatic" 0 0 0; Show.d_enabled := Some true;
         Show.d_svector := Show.SvDict (Some 1%float) (Some 0%float) (Some 0%float) |};
      {| Show.d_point := Run.pt 1 "Hydrophobic" 1 0 0; Show.d_enabled := Some true;
         Show.d_svector := Show.SvMissing |} ] /\
  exists c,
    Show.cone
      [ {| Show.d_point := Run.pt 0 "Aromatic" 0 0 0; Show.d_enabled := Some true;
           Show.d_svector := Show.SvDict (Some 1%float) (Some 0%float) (Some 0%float) |};
        {| Show.d_point := Run.pt 1 "Hydrophobic" 1 0 0; Show.d_enabled := Some true;
           Show.d_svector := Show.SvMissing |} ] = Ok c /\
    List.length (Show.cone_u c) = List.length (Show.cone_x c) /\
    List.length (Show.cone_v c) = List.length (Show.cone_y c) /\
    List.length (Show.cone_w c) = List.length (Show.cone_z c) /\
    List.length (Show.cone_x c)
    = List.length
        (Show.dropna_svector
           [ {| Show.d_point := Run.pt 0 "Aromatic" 0 0 0; Show.d_enabled := Some true;
                Show.d_svector := Show.SvDict (Some 1%float) (Some 0%float) (Some 0%float) |};
             {| Show.d_point := Run.pt 1 "Hydrophobic" 1 0 0; Show.d_enabled := Some true;
                Show.d_svector := Show.SvMissing |} ]).
Proof.
  assert (H : Show.clean_svectors
    [ {| Show.d_point := Run.pt 0 "Aromatic" 0 0 0; Show.d_enabled := Some true;
         Show.d_svector := Show.SvDict (Some 1%float) (Some 0%float) (Some 0%float) |};
      {| Show.d_point := Run.pt 1 "Hydrophobic" 1 0 0; Show.d_enabled := Some true;
         Show.d_svector := Show.SvMissing |} ]).
  { repeat constructor. }
  split; [exact H|].
  exact (@X18_cone_components_match_positions float _ H).
Defined.

(** ** [parse_json_pharmacophore] *)



(** ** The Cluster Reducer: further properties *)

Lemma np_average_zero (a : list (list R)) (W : list nat) :
  list_sum W = 0%nat -> np_average a (map (@of_nat R _) W) = Raise ZeroDivisionError.
Proof.
  intros Hz. unfold np_average.
  rewrite np_sum_Rsum. Rnum. rewrite Rsum_map_INR, Hz. simpl INR.
  assert (E : Reqb 0 0 = true) by now apply Reqb_true.
  now rewrite E.
Qed.

Lemma reducer_ok_inv (table : DataFrame R) (com : list R) (r : R) :
  __compute_center_of_mass_and_radius table = Ok (com, r) ->
  exists W raw,
    df_weight table = Some W /\ (0 < list_sum W)%nat /\
    com = [weighted_mean (map (@p_x R) (df_rows table)) W;
           weighted_mean (map (@p_y R) (df_rows table)) W;
           weighted_mean (map (@p_z R) (df_rows table)) W] /\
    raw_radius com (df_rows table) = Ok raw /\
    r = clamp_radius (map (@p_name R) (df_rows table)) raw.
Proof.
  unfold __compute_center_of_mass_and_radius.
  destruct (df_weight table) as [W|] eqn:HW; [|discriminate].
  cbn [column result_bind].
  destruct (Nat.eq_dec (list_sum W) 0) as [Hz|Hnz].
  - rewrite np_average_zero by exact Hz. discriminate.
  - rewrite np_average_weighted_mean by lia. cbn [result_bind].
    destruct (raw_radius _ (df_rows table)) as [raw|e] eqn:Hraw; [|discriminate].
    cbn [result_bind]. intros E. inversion E; subst.
    exists W, raw. repeat split; auto. lia.
Qed.

Lemma clamp_radius_ge (names : list string) (radius : R) :
  (radius <= clamp_radius names radius)%R.
Proof.
  unfold clamp_radius. Rnum.
  destruct (has_hydrophobic names); cbn [negb];
    rewrite ?andb_true_r, ?andb_false_r.
  - destruct (Rltb radius 1) eqn:L1; [apply Rltb_true in L1|]; lra.
  - destruct (Rltb radius 0.5) eqn:L2; [apply Rltb_true in L2|]; lra.
Qed.

(** X20: over the reals, when the Cluster Reducer returns a centre and a
    radius, every point of the cluster lies within twice that radius of
    the centre. *)
Theorem X20_cluster_within_twice_the_radius :
  forall (table : DataFrame R) (cx cy cz radius : R),
    __compute_center_of_mass_and_radius table = Ok ([cx; cy; cz], radius) ->
    forall p, In p (df_rows table) ->
              (distance_to cx cy cz p <= 2 * radius)%R.
Proof.
  intros table cx cy cz radius Hred p Hp.
  apply reducer_ok_inv in Hred.
  destruct Hred as (W & raw & _ & _ & _ & Hraw & ->).
  assert (Hne : df_rows table <> []) by (intros E; rewrite E in Hp; destruct Hp).
  destruct (raw_radius_spec cx cy cz Hne) as (raw' & Hraw' & Hub & _).
  assert (E : Ok raw = Ok raw') by (rewrite <- Hraw; exact Hraw').
  inversion E; subst raw'.
  pose proof (Hub p Hp).
  pose proof (clamp_radius_ge (map (@p_name R) (df_rows table)) raw). lra.
Qed.

Lemma X20_witness :
  exists cx cy cz radius,
    __compute_center_of_mass_and_radius small_cluster = Ok ([cx; cy; cz], radius) /\
    forall p, In p (df_rows small_cluster) ->
              (distance_to cx cy cz p <= 2 * radius)%R.
Proof.
  destruct (@reducer_returns small_cluster [2; 1]%nat eq_refl) as (raw & _ & E).
  - discriminate.
  - simpl. lia.
  - do 4 eexists. split; [exact E|].
    exact (@X20_cluster_within_twice_the_radius small_cluster _ _ _ _ E).
Defined.

Lemma weighted_sum_bounds (lo hi : R) (vals : list R) :
  Forall (fun v => lo <= v <= hi)%R vals ->
  forall W : list nat,
    List.length W = List.length vals ->
    (lo * INR (list_sum W)
     <= Rsum (map (fun vw => fst vw * INR (snd vw)) (combine vals W))
     <= hi * INR (list_sum W))%R.
Proof.
  induction 1 as [|v vals Hv Hall IH]; intros [|k W] Hlen; try discriminate.
  - simpl. lra.
  - cbn [combine map Rsum fold_right fst snd]. rewrite list_sum_cons, plus_INR.
    assert (Hlen' : List.length W = List.length vals) by (simpl in Hlen; lia).
    specialize (IH W Hlen'). fold (Rsum (map (fun vw => fst vw * INR (snd vw))%R
                                              (combine vals W))).
    pose proof (pos_INR k). nra.
Qed.

Lemma weighted_mean_bounds (lo hi : R) (vals : list R) (W : list nat) :
  Forall (fun v => lo <= v <= hi)%R vals ->
  List.length W = List.length vals ->
  (0 < list_sum W)%nat ->
  (lo <= weighted_mean vals W <= hi)%R.
Proof.
  intros Hall Hlen Hpos. unfold weighted_mean.
  pose proof (weighted_sum_bounds Hall W Hlen) as [H1 H2].
  assert (HT : (0 < INR (list_sum W))%R) by (apply lt_0_INR; exact Hpos).
  split.
  - apply Rmult_le_reg_r with (INR (list_sum W)); [exact HT|].
    unfold Rdiv. rewrite Rmult_assoc, Rinv_l by lra. lra.
  - apply Rmult_le_reg_r with (INR (list_sum W)); [exact HT|].
    unfold Rdiv. rewrite Rmult_assoc, Rinv_l by lra. lra.
Qed.

(** X21: over the reals, for a cluster with one weight per point, the
    centre that the Cluster Reducer returns lies in every axis-parallel
    box that holds the points of the cluster. *)
Theorem X21_centre_within_the_box_of_the_cluster :
  forall (table : DataFrame R) (W : list nat) (cx cy cz radius : R)
         (xlo xhi ylo yhi zlo zhi : R),
    df_weight table = Some W ->
    List.length W = List.length (df_rows table) ->
    __compute_center_of_mass_and_radius table = Ok ([cx; cy; cz], radius) ->
    (forall p, In p (df_rows table) ->
               xlo <= p_x p <= xhi /\ ylo <= p_y p <= yhi /\ zlo <= p_z p <= zhi)%R ->
    (xlo <= cx <= xhi /\ ylo <= cy <= yhi /\ zlo <= cz <= zhi)%R.
Proof.
  intros table W cx cy cz radius xlo xhi ylo yhi zlo zhi HW Hlen Hred Hbox.
  apply reducer_ok_inv in Hred.
  destruct Hred as (W' & raw & HW' & Hpos & Hcom & _ & _).
  assert (W' = W) by congruence. subst W'.
  inversion Hcom; subst; clear Hcom.
  split; [|split]; apply weighted_mean_bounds; auto;
    try (now rewrite length_map);
    apply Forall_forall; intros v Hv; apply in_map_iff in Hv;
    destruct Hv as (p & <- & Hp); destruct (Hbox p Hp) as (? & ? & ?); lra.
Qed.

Lemma X21_witness :
  exists cx cy cz radius,
    (df_weight small_cluster = Some [2; 1]%nat /\
     List.length [2; 1]%nat = List.length (df_rows small_cluster) /\
     __compute_center_of_mass_and_radius small_cluster = Ok ([cx; cy; cz], radius) /\
     (forall p, In p (df_rows small_cluster) ->
                0 <= p_x p <= 3 /\ 0 <= p_y p <= 0 /\ 0 <= p_z p <= 0)%R) /\
    (0 <= cx <= 3 /\ 0 <= cy <= 0 /\ 0 <= cz <= 0)%R.
Proof.
  assert (Hbox : forall p, In p (df_rows small_cluster) ->
                   (0 <= p_x p <= 3 /\ 0 <= p_y p <= 0 /\ 0 <= p_z p <= 0)%R).
  { intros p [<-|[<-|[]]]; simpl; lra. }
  destruct (@reducer_returns small_cluster [2; 1]%nat eq_refl) as (raw & _ & E).
  - discriminate.
  - simpl. lia.
  - do 4 eexists. split; [split; [reflexivity|split; [reflexivity|split; [exact E|exact Hbox]]]|].
    exact (@X21_centre_within_the_box_of_the_cluster small_cluster [2; 1]%nat
             _ _ _ _ 0 3 0 0 0 0 eq_refl eq_refl E Hbox).
Defined.



(** X23: over the reals, a cluster of a single point with a weight that
    is not zero reduces to that point: the centre is the point itself and
    the radius is the floor of its feature type, 1 for Hydrophobic and 0.5
    otherwise. *)
Theorem X23_single_point_cluster_reduces_to_the_point :
  forall (table : DataFrame R) (p : Point R) (k : nat),
    df_rows table = [p] ->
    df_weight table = Some [k] ->
    (0 < k)%nat ->
    __compute_center_of_mass_and_radius table
    = Ok ([p_x p; p_y p; p_z p],
          if String.eqb "Hydrophobic" (p_name p) then 1%R else 0.5%R).
Proof.
  intros table p k Hrows HW Hk.
  assert (Hne : df_rows table <> []) by (rewrite Hrows; discriminate).
  assert (Hpos : (0 < list_sum [k])%nat) by (simpl; lia).
  destruct (@reducer_returns table [k] HW Hne Hpos) as (raw & Hraw & E).
  rewrite E. rewrite Hrows in *. clear E.
  assert (HK : INR k <> 0%R) by (apply not_0_INR; lia).
  assert (Hm : forall v, weighted_mean [v] [k] = v).
  { intros v. unfold weighted_mean. cbn [combine map Rsum fold_right fst snd list_sum].
    rewrite Nat.add_0_r. field. exact HK. }
  cbn [map] in *. rewrite !Hm in *.
  assert (Hz : raw = 0%R).
  { destruct (raw_radius_spec (p_x p) (p_y p) (p_z p) (rows:=[p])) as (raw' & Hraw' & _ & Hex);
      [discriminate|].
    assert (Er : Ok raw = Ok raw') by (rewrite <- Hraw; exact Hraw').
    inversion Er; subst raw'.
    destruct Hex as (q & [<-|[]] & ->).
    unfold distance_to.
    replace ((p_x p - p_x p) * (p_x p - p_x p) + (p_y p - p_y p) * (p_y p - p_y p)
             + (p_z p - p_z p) * (p_z p - p_z p))%R with 0%R by ring.
    rewrite sqrt_0. lra. }
  subst raw. f_equal. f_equal.
  unfold clamp_radius, has_hydrophobic. cbn [existsb]. rewrite orb_false_r. Rnum.
  assert (L1 : Rltb 0 1 = true) by (apply Rltb_true; lra).
  assert (L2 : Rltb 0 0.5 = true) by (apply Rltb_true; lra).
  rewrite L1, L2. now destruct (String.eqb "Hydrophobic" (p_name p)).
Qed.

Lemma X23_witness :
  (df_rows {| df_rows := [hydrophobic 0 1 2 3]; df_cluster := Some [1%nat];
              df_weight := Some [1%nat]; df_balance := Some [1%R] |}
   = [hydrophobic 0 1 2 3] /\
   df_weight {| df_rows := [hydrophobic 0 1 2 3]; df_cluster := Some [1%nat];
                df_weight := Some [1%nat]; df_balance := Some [1%R] |}
   = Some [1%nat] /\
   (0 < 1)%nat) /\
  __compute_center_of_mass_and_radius
    {| df_rows := [hydrophobic 0 1 2 3]; df_cluster := Some [1%nat];
       df_weight := Some [1%nat]; df_balance := Some [1%R] |}
  = Ok ([p_x (hydrophobic 0 1 2 3); p_y (hydrophobic 0 1 2 3);
         p_z (hydrophobic 0 1 2 3)],
        if String.eqb "Hydrophobic" (p_name (hydrophobic 0 1 2 3)) then 1%R else 0.5%R).
Proof.
  split; [repeat split; lia|].
  exact (@X23_single_point_cluster_reduces_to_the_point
           {| df_rows := [hydrophobic 0 1 2 3]; df_cluster := Some [1%nat];
              df_weight := Some [1%nat]; df_balance := Some [1%R] |}
           (hydrophobic 0 1 2 3) 1 eq_refl eq_refl (Nat.lt_0_succ 0)).
Defined.

(** ** The assembler: what the returned value depends on *)





(** ** The assembler: weight and balance of the consensus rows *)

(** The rows of one feature type in the assembled table, in full. *)
Lemma assembled_group_rows {F} {num : Number F} (linkage : list F -> Dendrogram F)
      (table : DataFrame F) (i : nat) (groups : list string)
      (rows : list (ConsensusPoint F)) :
  assembled linkage table i groups rows ->
  NoDup groups ->
  forall g, In g groups ->
    exists t i',
      (2 < List.length (df_rows (get_group_by_name table g)))%nat /\
      cut_threshold
        (pdist (distance_matrix
                  (map (@xyz F) (df_rows (get_group_by_name table g)))
                  (map (@xyz F) (df_rows (get_group_by_name table g))))) = Ok t /\
      List.length (cluster_ids linkage (get_group_by_name table g) t)
      = List.length (df_rows (get_group_by_name table g)) /\
      reduced g (clustered linkage (get_group_by_name table g) t)
              (cluster_ids linkage (get_group_by_name table g) t) i'
              (groups_by_cluster (cluster_ids linkage (get_group_by_name table g) t))
              (filter (fun c => String.eqb (c_name c) g) rows).
Proof.
  induction 1 as [|i g0 groups t rows more Hn Ht Hlen Hred Hasm IH];
    intros Hnd g Hg; [destruct Hg|].
  inversion Hnd as [|? ? Hnotin Hnd']; subst.
  pose proof (reduced_names Hred) as Hna.
  pose proof (assembled_names Hasm) as Hnb.
  rewrite Forall_forall in Hna, Hnb.
  rewrite filter_app.
  destruct Hg as [->|Hg].
  - exists t, i. split; [exact Hn|]. split; [exact Ht|]. split; [exact Hlen|].
    rewrite filter_all, filter_none.
    + now rewrite app_nil_r.
    + intros c Hc. apply String.eqb_neq. intros E.
      apply Hnotin. rewrite <- E. now apply Hnb.
    + intros c Hc. apply String.eqb_eq. now apply Hna.
  - destruct (IH Hnd' g Hg) as (t' & i' & Hn' & Ht' & Hlen' & Hred').
    exists t', i'. split; [exact Hn'|]. split; [exact Ht'|]. split; [exact Hlen'|].
    rewrite filter_none; [exact Hred'|].
    intros c Hc. apply String.eqb_neq. rewrite (Hna c Hc). intros ->. contradiction.
Qed.

Lemma Rsum_cons (x : R) (l : list R) : Rsum (x :: l) = (x + Rsum l)%R.
Proof. reflexivity. Qed.

Lemma Rsum_map_add {X} (f g : X -> R) (l : list X) :
  Rsum (map (fun x => f x + g x)%R l) = (Rsum (map f l) + Rsum (map g l))%R.
Proof.
  induction l as [|x l IH]; cbn [map]; rewrite ?Rsum_cons.
  - unfold Rsum. simpl. lra.
  - rewrite IH. lra.
Qed.

Lemma Rsum_count_key (keys : list nat) (c : nat) (v : R) :
  NoDup keys -> In c keys ->
  Rsum (map (fun k => if Nat.eqb c k then v else 0%R) keys) = v.
Proof.
  induction 1 as [|k keys Hk Hnd IH]; intros Hin; [destruct Hin|].
  cbn [map]. rewrite Rsum_cons.
  destruct (Nat.eqb c k) eqn:E.
  - apply Nat.eqb_eq in E. subst k.
    assert (Z : Rsum (map (fun k => if Nat.eqb c k then v else 0%R) keys) = 0%R).
    { clear IH Hnd Hin. induction keys as [|k keys IH]; [reflexivity|].
      cbn [map]. rewrite Rsum_cons. destruct (Nat.eqb c k) eqn:E.
      - apply Nat.eqb_eq in E. subst. exfalso. apply Hk. now left.
      - rewrite IH; [lra|]. intros H. apply Hk. now right. }
    lra.
  - destruct Hin as [->|Hin].
    + rewrite Nat.eqb_refl in E. discriminate.
    + rewrite IH by exact Hin. lra.
Qed.

(** The groups of a [groupby] share out the sum of a column. *)
Lemma partition_Rsum (keys : list nat) :
  NoDup keys ->
  forall (ks : list nat) (l : list R),
    List.length ks = List.length l ->
    (forall c, In c ks -> In c keys) ->
    Rsum (map (fun k => Rsum (compress (map (fun c => Nat.eqb c k) ks) l)) keys)
    = Rsum l.
Proof.
  intros Hnd. induction ks as [|c ks IH]; intros [|a l] Hlen Hin;
    try discriminate.
  - cbn [map compress]. clear. induction keys as [|k keys IH]; [reflexivity|].
    cbn [map]. rewrite Rsum_cons, IH. unfold Rsum. simpl. lra.
  - rewrite (map_ext _ (fun k => ((if Nat.eqb c k then a else 0)
                                  + Rsum (compress (map (fun c => Nat.eqb c k) ks) l))%R)).
    + assert (Hlen' : List.length ks = List.length l) by (simpl in Hlen; lia).
      assert (Hin' : forall c', In c' ks -> In c' keys)
        by (intros c' H; apply Hin; now right).
      assert (Hc : In c keys) by (apply Hin; now left).
      rewrite Rsum_map_add, (@Rsum_count_key keys c a Hnd Hc), (IH l Hlen' Hin').
      now rewrite Rsum_cons.
    + intros k. cbn [map compress]. destruct (Nat.eqb c k).
      * now rewrite Rsum_cons.
      * lra.
Qed.

Lemma length_compress_same {A B} (mask : list bool) :
  forall (l : list A) (l' : list B),
    List.length l = List.length l' ->
    List.length (compress mask l) = List.length (compress mask l').
Proof.
  induction mask as [|b mask IH]; intros [|a l] [|a' l'] Hlen;
    try discriminate; auto.
  cbn [compress]. destruct b; cbn [List.length]; auto.
Qed.

Lemma reduced_balance (group : string) (dc : DataFrame R) (B : list R)
      (cl : list nat) (i : nat) (keys : list nat) (rows : list (ConsensusPoint R)) :
  reduced group dc cl i keys rows ->
  df_balance dc = Some B ->
  List.length B = List.length (df_rows dc) ->
  Rsum (map (fun c => INR (c_weight c) * c_balance c)%R rows)
  = Rsum (map (fun k => Rsum (compress (map (fun c => Nat.eqb c k) cl) B)) keys).
Proof.
  intros Hred HB HlenB.
  induction Hred as [|i cg keys row rows com p rest H1 H2 H3 H4 H5 H6 H7 H8 H9 Hred IH];
    [reflexivity|].
  cbn [map]. rewrite !Rsum_cons, IH. f_equal.
  destruct H9 as (b & Hb & Hbal).
  unfold get_group_by_cluster, take_rows in Hb, H4, H6.
  cbn [df_rows df_balance] in Hb, H4, H6.
  rewrite HB in Hb. cbn [option_map] in Hb. inversion Hb; subst b; clear Hb.
  set (mask := map (fun c => Nat.eqb c cg) cl) in *.
  assert (Hl : List.length (compress mask B) = c_weight row).
  { rewrite H6. now apply length_compress_same. }
  rewrite Hbal. unfold series_mean. rewrite np_sum_Rsum. Rnum. rewrite Hl.
  assert (Hne : INR (c_weight row) <> 0%R).
  { apply not_0_INR. rewrite H6, H4. discriminate. }
  field. exact Hne.
Qed.

(** X25: over the reals, in a returned [Concensus] table the rows of each
    feature type satisfy: the products of [weight] and [balance], added
    up, give 1.  The balance of a row is the mean of the balances of the
    points of its cluster, its weight their number, and the balances of
    the points of a feature type add up to 1. *)
Theorem X25_weighted_balances_of_a_type_add_up_to_one :
  forall (linkage : list R -> Dendrogram R) (table : ref) (df : DataFrame R)
         (save : bool) (out : string) (h_dist : R) (w w' : World R)
         (C : list (ConsensusPoint R)) (L : list (string * LinkEntry R)),
    nth_error (heap w) table = Some df ->
    compute_concensus_pharmacophore linkage table save out h_dist w
    = (Ok (C, L), w') ->
    forall g, In g (map (@p_name R) (df_rows df)) ->
      Rsum (map (fun c => INR (c_weight c) * c_balance c)%R
                (filter (fun c => String.eqb (c_name c) g) C)) = 1%R.
Proof.
  intros linkage table df save out h_dist w w' C L Hdf Hrun g Hg.
  apply compute_concensus_ok_inv in Hrun.
  destruct Hrun as (df' & Hdf' & Hasm & _).
  assert (df' = df) by congruence. subst df'.
  apply in_groups_by_name in Hg.
  destruct (assembled_group_rows Hasm (groups_by_name_NoDup df) g Hg)
    as (t & i' & Hn & _ & Hlen & Hred).
  set (gdf := get_group_by_name df g) in *.
  set (W := weights_of (distance_matrix (map (@xyz R) (df_rows gdf))
                                        (map (@xyz R) (df_rows gdf)))).
  assert (HlenW : List.length W = List.length (df_rows gdf)).
  { unfold W. now rewrite length_weights_of, length_distance_matrix, length_map. }
  assert (Hpos : (0 < list_sum W)%nat).
  { apply list_sum_positive.
    - intros E. assert (Hz : List.length W = 0%nat) by (now rewrite E). lia.
    - unfold W. rewrite distance_matrix_points. apply weights_positive. }
  assert (HB : df_balance (clustered linkage gdf t)
               = Some (map (fun k => INR k / INR (list_sum W))%R W)).
  { unfold clustered. cbn [df_balance]. fold W.
    now rewrite normalize_l1_counts by exact Hpos. }
  rewrite (reduced_balance Hred HB)
    by (unfold clustered; cbn [df_rows]; now rewrite length_map).
  rewrite partition_Rsum.
  - rewrite Rsum_map_div. apply Rdiv_diag. apply not_0_INR. lia.
  - apply groups_by_cluster_NoDup.
  - rewrite length_map. congruence.
  - intros c Hc. now apply in_groups_by_cluster.
Qed.

Lemma X25_witness :
  exists C L w',
    (nth_error (heap three_points_world) 0 = Some (new_frame three_points) /\
     compute_concensus_pharmacophore complete_linkage 0 true "out" 0.17%R
       three_points_world = (Ok (C, L), w')) /\
    forall g, In g (map (@p_name R) (df_rows (new_frame three_points))) ->
      Rsum (map (fun c => INR (c_weight c) * c_balance c)%R
                (filter (fun c => String.eqb (c_name c) g) C)) = 1%R.
Proof.
  destruct (@large_groups_return complete_linkage three_points_world 0
              (new_frame three_points) true "out"%string 0.17%R
              complete_linkage_contract eq_refl) as (C & L & w' & E).
  - intros p [<-|[<-|[<-|[]]]]; simpl; lia.
  - exists C, L, w'. split; [split; [reflexivity|exact E]|].
    exact (@X25_weighted_balances_of_a_type_add_up_to_one complete_linkage 0
             (new_frame three_points) true "out"%string 0.17%R
             three_points_world w' C L eq_refl E).
Defined.

(** ** Complete linkage ends at the greatest distance *)

Lemma max_of_ge (l : list R) (v : R) : In v l -> (v <= max_of l)%R.
Proof.
  destruct l as [|a l]; [intros []|]. intros Hin. unfold max_of. Rnum.
  destruct (fold_max_spec l a) as (H1 & H2 & _).
  destruct Hin as [<-|Hin]; [exact H1|].
  rewrite Forall_forall in H2. now apply H2.
Qed.

Lemma condensed_get_sym (n : nat) (y : list R) (a b : nat) :
  condensed_get n y a b = condensed_get n y b a.
Proof.
  unfold condensed_get.
  destruct (Nat.ltb a b) eqn:E1; destruct (Nat.ltb b a) eqn:E2; auto.
  apply Nat.ltb_lt in E1, E2. lia.
Qed.

Lemma complete_distance_ge (n : nat) (y : list R) (A B : Dendrogram R) (a b : nat) :
  In a (leaves A) -> In b (leaves B) ->
  (condensed_get n y a b <= complete_distance n y A B)%R.
Proof.
  intros Ha Hb. unfold complete_distance. apply max_of_ge.
  apply in_map_iff. exists (a, b). split; [reflexivity|].
  now apply in_prod.
Qed.

Lemma max_dist_merge (d : R) (l r : Dendrogram R) :
  exists m,
    max_dist (Merge d l r) = Some m /\ (d <= m)%R /\
    (forall ml, max_dist l = Some ml -> (ml <= m)%R) /\
    (forall mr, max_dist r = Some mr -> (mr <= m)%R).
Proof.
  cbn [max_dist]. Rnum.
  set (m1 := match max_dist l with
             | Some ml => if Rltb d ml then ml else d
             | None => d
             end).
  assert (H1 : (d <= m1)%R /\ forall ml, max_dist l = Some ml -> (ml <= m1)%R).
  { unfold m1. destruct (max_dist l) as [ml|].
    - destruct (Rltb d ml) eqn:E;
        [apply Rltb_true in E|apply Rltb_false in E];
        (split; [lra|intros m' Hm'; inversion Hm'; subst; lra]).
    - split; [lra|discriminate]. }
  destruct H1 as [H1 H2].
  destruct (max_dist r) as [mr|].
  - destruct (Rltb m1 mr) eqn:E;
      [apply Rltb_true in E|apply Rltb_false in E];
      eexists; (split; [reflexivity|]);
      (split; [lra|split; intros m' Hm';
                   [specialize (H2 m' Hm')|inversion Hm'; subst]; lra]).
  - exists m1. split; [reflexivity|]. split; [exact H1|].
    split; [exact H2|discriminate].
Qed.

Lemma covered_merge (n : nat) (y : list R) (d : R) (A B : Dendrogram R) :
  covered n y A -> covered n y B ->
  (forall a b, In a (leaves A) -> In b (leaves B) ->
               (condensed_get n y a b <= d)%R) ->
  covered n y (Merge d A B).
Proof.
  intros HA HB Hd a b Ha Hb Hab.
  destruct (max_dist_merge d A B) as (m & Em & Hdm & Hml & Hmr).
  exists m. split; [exact Em|].
  cbn [leaves] in Ha, Hb. apply in_app_or in Ha, Hb.
  destruct Ha as [Ha|Ha]; destruct Hb as [Hb|Hb].
  - destruct (HA a b Ha Hb Hab) as (ml & Eml & Hle).
    specialize (Hml ml Eml). lra.
  - specialize (Hd a b Ha Hb). lra.
  - specialize (Hd b a Hb Ha). rewrite condensed_get_sym. lra.
  - destruct (HB a b Ha Hb Hab) as (mr & Emr & Hle).
    specialize (Hmr mr Emr). lra.
Qed.

Lemma covered_merge_clusters (n : nat) (y : list R) (id : nat)
      (a b : nat * Dendrogram R) :
  covered n y (snd a) -> covered n y (snd b) ->
  covered n y (snd (merge_clusters n y id a b)).
Proof.
  intros Ha Hb. unfold merge_clusters.
  destruct (Nat.ltb (fst a) (fst b)); cbn [snd]; apply covered_merge; auto.
  - intros; now apply complete_distance_ge.
  - intros x x' Hx Hx'. rewrite condensed_get_sym. now apply complete_distance_ge.
Qed.

Lemma agglomerate_covered (steps n : nat) (y : list R) :
  forall (id : nat) (active : list (nat * Dendrogram R)),
    Forall (fun c => covered n y (snd c)) active ->
    Forall (fun c => covered n y (snd c)) (agglomerate steps n y id active).
Proof.
  induction steps as [|steps IH]; intros id active Hall; cbn [agglomerate]; auto.
  destruct (closest n y (pairs active)) as [[[a b] rest]|] eqn:E; auto.
  apply closest_in, pairs_permutation in E.
  assert (Hall' : Forall (fun c => covered n y (snd c)) (a :: b :: rest)).
  { eapply Permutation_Forall; [apply Permutation_sym; exact E|exact Hall]. }
  inversion Hall' as [|? ? Ha Hall'']; subst.
  inversion Hall'' as [|? ? Hb Hrest]; subst.
  apply IH. apply Forall_app. split; auto.
  constructor; auto. now apply covered_merge_clusters.
Qed.

(** The positions of a condensed vector are those of the pairs. *)
Lemma triangle_double (a : nat) : (2 * (a * (a + 1) / 2) = a * (a + 1))%nat.
Proof.
  induction a as [|a IH]; [reflexivity|].
  replace (S a * (S a + 1))%nat with (a * (a + 1) + (a + 1) * 2)%nat by lia.
  rewrite Nat.div_add by lia. lia.
Qed.

Lemma condensed_index_onto (n k : nat) :
  (2 * k < n * (n - 1))%nat ->
  exists a b, (a < b < n)%nat /\ condensed_index n a b = k.
Proof.
  intros Hk.
  assert (G : forall a, (a <= n - 1)%nat ->
                        (2 * k < 2 * n * a - a * (a + 1))%nat ->
                        exists a' b, (a' < b < n)%nat /\ condensed_index n a' b = k).
  { induction a as [|a IH]; intros Ha Hlt; [simpl in Hlt; lia|].
    destruct (Nat.lt_ge_cases (2 * k) (2 * n * a - a * (a + 1))) as [Hin|Hout].
    - apply IH; [lia|exact Hin].
    - pose proof (triangle_double a) as Ht.
      exists a, (a + 1 + (k - (n * a - a * (a + 1) / 2)))%nat.
      unfold condensed_index. split; nia. }
  apply (G (n - 1)%nat); [lia|].
  destruct n as [|n]; [simpl in Hk; lia|].
  replace (S n - 1)%nat with n in * by lia. nia.
Qed.

Lemma covered_singletons (n : nat) (y : list R) (l : list nat) :
  Forall (fun c => covered n y (snd c)) (map (fun i => (i, @Leaf R i)) l).
Proof.
  apply Forall_forall. intros c Hc. apply in_map_iff in Hc.
  destruct Hc as (i & <- & _). cbn [snd].
  intros a b Ha Hb Hab. cbn [leaves] in Ha, Hb.
  destruct Ha as [<-|[]]. destruct Hb as [<-|[]]. congruence.
Qed.

Lemma complete_linkage_covered (n : nat) (y : list R) :
  (2 <= n)%nat -> (2 * List.length y = n * (n - 1))%nat ->
  covered n y (complete_linkage y).
Proof.
  intros Hn Hy. unfold complete_linkage.
  rewrite (@num_obs_y_condensed n (List.length y) Hn Hy).
  pose proof (@agglomerate_covered (n - 1) n y n
                (map (fun i => (i, Leaf i)) (seq 0 n))
                (covered_singletons n y (seq 0 n))) as Hall.
  destruct (agglomerate (n - 1) n y n (map (fun i => (i, Leaf i)) (seq 0 n)))
    as [|c [|c' rest]].
  - intros a b [<-|[]] [<-|[]]. congruence.
  - now inversion Hall.
  - intros a b [<-|[]] [<-|[]]. congruence.
Qed.

Lemma complete_linkage_reaches_max : linkage_reaches_max complete_linkage.
Proof.
  intros n y Hn Hy.
  pose proof (@complete_linkage_covered n y Hn Hy) as Hcov.
  pose proof (@complete_linkage_leaves R _ n y Hn Hy) as Hperm.
  assert (Hin : forall a, (a < n)%nat -> In a (leaves (complete_linkage y))).
  { intros a Ha. eapply Permutation_in; [apply Permutation_sym; exact Hperm|].
    apply in_seq. lia. }
  destruct (Hcov 0%nat 1%nat (Hin 0%nat ltac:(lia)) (Hin 1%nat ltac:(lia))
              ltac:(lia)) as (m & Em & _).
  exists m. split; [exact Em|].
  apply Forall_forall. intros v Hv.
  destruct (In_nth _ _ 0%R Hv) as (k & Hk & <-).
  destruct (@condensed_index_onto n k ltac:(lia)) as (a & b & Hab & <-).
  destruct (Hcov a b (Hin a ltac:(lia)) (Hin b ltac:(lia)) ltac:(lia))
    as (m' & Em' & Hle).
  assert (m' = m) by congruence. subst m'.
  unfold condensed_get in Hle.
  assert (E : Nat.ltb a b = true) by (apply Nat.ltb_lt; lia).
  rewrite E in Hle. exact Hle.
Qed.

(** ** A group is never merged whole *)

(** A tree whose greatest merge distance is above the cutoff is cut into
    at least two flat clusters. *)
Lemma fcluster_splits (Z : Dendrogram R) (t m : R) (n : nat) :
  (2 <= n)%nat ->
  Permutation (leaves Z) (seq 0 n) ->
  max_dist Z = Some m -> (t < m)%R ->
  exists i j, (i < n)%nat /\ (j < n)%nat /\
              nth i (fcluster Z t) 0%nat <> nth j (fcluster Z t) 0%nat.
Proof.
  intros Hn Hperm Hm Htm.
  destruct (@fcluster_spec R _ Z t n Hn Hperm) as (_ & _ & _ & _ & _ & Hsame).
  assert (Hnd : NoDup (leaves Z)).
  { eapply Permutation_NoDup; [apply Permutation_sym; exact Hperm|].
    apply seq_NoDup. }
  assert (Hlt : forall a, In a (leaves Z) -> (a < n)%nat).
  { intros a Ha. apply (Permutation_in _ Hperm) in Ha. apply in_seq in Ha. lia. }
  destruct Z as [k|d l r]; [discriminate|].
  destruct (leaves l) as [|i li] eqn:El; [now apply leaves_nonempty in El|].
  destruct (leaves r) as [|j lj] eqn:Er; [now apply leaves_nonempty in Er|].
  assert (Hi : In i (leaves l)) by (rewrite El; now left).
  assert (Hj : In j (leaves r)) by (rewrite Er; now left).
  assert (Hdisj : forall a, In a (leaves l) -> In a (leaves r) -> False).
  { cbn [leaves] in Hnd. clear - Hnd.
    induction (leaves l) as [|x xs IH]; intros a Ha Hb; [destruct Ha|].
    cbn [app] in Hnd. inversion Hnd as [|? ? Hx Hnd']; subst.
    destruct Ha as [->|Ha]; [apply Hx, in_or_app; now right|eauto]. }
  exists i, j.
  assert (Hin : (i < n)%nat) by (apply Hlt; cbn [leaves]; apply in_or_app; auto).
  assert (Hjn : (j < n)%nat) by (apply Hlt; cbn [leaves]; apply in_or_app; auto).
  split; [exact Hin|]. split; [exact Hjn|].
  intros E. apply (Hsame i j Hin Hjn) in E.
  destruct E as [->|J]; [now apply (Hdisj j)|].
  cbn [joined] in J. destruct J as [(Hb & _)|[J|J]].
  - unfold below in Hb. rewrite Hm in Hb. Rnum. apply Rleb_true in Hb. lra.
  - apply joined_leaves in J. destruct J as [_ J]. now apply (Hdisj j).
  - apply joined_leaves in J. destruct J as [J _]. now apply (Hdisj i).
Qed.

Lemma point_distance_sym (p q : Point R) : point_distance p q = point_distance q p.
Proof. unfold point_distance. f_equal. ring. Qed.

Lemma Rsum_ge_term {X} (f : X -> R) (l : list X) (s : X) :
  (forall x, In x l -> 0 <= f x)%R -> In s l -> (f s <= Rsum (map f l))%R.
Proof.
  induction l as [|x l IH]; intros Hpos Hin; [destruct Hin|].
  cbn [map]. rewrite Rsum_cons.
  assert (H0 : (0 <= Rsum (map f l))%R).
  { clear IH Hin. induction l as [|z l IH]; [unfold Rsum; simpl; lra|].
    cbn [map]. rewrite Rsum_cons.
    assert (0 <= f z)%R by (apply Hpos; right; now left).
    assert (0 <= Rsum (map f l))%R.
    { apply IH. intros u [->|Hu]; apply Hpos; [now left|right; now right]. }
    lra. }
  destruct Hin as [->|Hin].
  - lra.
  - assert (0 <= f x)%R by (apply Hpos; now left).
    assert (f s <= Rsum (map f l))%R
      by (apply IH; auto; intros u Hu; apply Hpos; now right).
    lra.
Qed.

Lemma profile_distance_pos (rows : list (Point R)) (p q : Point R) :
  In p rows -> point_distance p q <> 0%R ->
  (0 < profile_distance rows p q)%R.
Proof.
  intros Hp Hd. unfold profile_distance. apply sqrt_lt_R0.
  set (f := fun s => ((point_distance p s - point_distance q s)
                      * (point_distance p s - point_distance q s))%R).
  assert (Hpos : forall x, In x rows -> (0 <= f x)%R).
  { intros x _. unfold f. apply Rle_0_sqr. }
  pose proof (@Rsum_ge_term _ f rows p Hpos Hp) as Hge.
  assert (Hfp : (0 < f p)%R).
  { unfold f. rewrite point_distance_self, (point_distance_sym q p).
    replace ((0 - point_distance p q) * (0 - point_distance p q))%R
      with (Rsqr (point_distance p q)) by (unfold Rsqr; ring).
    now apply Rsqr_pos_lt. }
  fold f. lra.
Qed.

Lemma pairwise_in {A B} (d : A -> A -> B) (l : list A) (p q : A) :
  In p l -> In q l -> p <> q ->
  In (d p q) (pairwise d l) \/ In (d q p) (pairwise d l).
Proof.
  induction l as [|a l IH]; intros Hp Hq Hne; [destruct Hp|].
  cbn [pairwise]. destruct Hp as [->|Hp]; destruct Hq as [->|Hq].
  - congruence.
  - left. apply in_or_app. left. now apply in_map.
  - right. apply in_or_app. left. now apply in_map.
  - destruct (IH Hp Hq Hne); [left|right]; apply in_or_app; now right.
Qed.

Lemma two_distinct_length {A} (l : list A) (a b : A) :
  In a l -> In b l -> a <> b -> (2 <= List.length l)%nat.
Proof.
  destruct l as [|x [|z l]]; cbn [In List.length]; try tauto; try lia.
  intros [->|[]] [->|[]]. congruence.
Qed.

(** X26: over the reals, for a linkage of the 'complete' method, a
    feature type with two points that do not coincide always gives at
    least two consensus points, however close its points are: the cut is
    at 0.17 times the greatest distance that the linkage was given, and
    the last merge of a complete linkage is as high as that distance, so
    the last merge is never kept. *)
Theorem X26_a_feature_type_is_never_merged_whole :
  forall (linkage : list R -> Dendrogram R) (table : ref) (df : DataFrame R)
         (save : bool) (out : string) (h_dist : R) (w w' : World R)
         (C : list (ConsensusPoint R)) (L : list (string * LinkEntry R))
         (p q : Point R),
    linkage_contract linkage ->
    linkage_reaches_max linkage ->
    nth_error (heap w) table = Some df ->
    compute_concensus_pharmacophore linkage table save out h_dist w
    = (Ok (C, L), w') ->
    In p (df_rows df) -> In q (df_rows df) ->
    p_name p = p_name q ->
    point_distance p q <> 0%R ->
    (2 <= List.length (filter (fun c => String.eqb (c_name c) (p_name p)) C))%nat.
Proof.
  intros linkage table df save out h_dist w w' C L p q Hc Hmax Hdf Hrun
         Hp Hq Hname Hd.
  apply compute_concensus_ok_inv in Hrun.
  destruct Hrun as (df' & Hdf' & Hasm & _).
  assert (df' = df) by congruence. subst df'.
  set (g := p_name p) in *.
  assert (Hg : In g (groups_by_name df))
    by (apply in_groups_by_name; now apply in_map).
  destruct (assembled_group_rows Hasm (groups_by_name_NoDup df) g Hg)
    as (t & i' & Hn & Ht & Hlen & Hred).
  rewrite (reduced_length Hred).
  set (gdf := get_group_by_name df g) in *.
  assert (Hpg : In p (df_rows gdf)) by (apply rows_of_group; auto).
  assert (Hqg : In q (df_rows gdf)) by (apply rows_of_group; auto).
  unfold cluster_ids in *.
  set (matrix := distance_matrix (map (@xyz R) (df_rows gdf))
                                 (map (@xyz R) (df_rows gdf))) in *.
  set (n := List.length (df_rows gdf)) in *.
  assert (Hdm : (2 * List.length (pdist matrix) = n * (n - 1))%nat).
  { rewrite length_pdist. unfold matrix.
    now rewrite length_distance_matrix, length_map. }
  destruct (Hmax n (pdist matrix) ltac:(lia) Hdm) as (m & Em & Hall).
  (* the threshold is below the greatest distance *)
  assert (Htm : (t < m)%R).
  { unfold cut_threshold in Ht.
    assert (Hne : pdist matrix <> []).
    { intros E. rewrite E in Hdm. simpl in Hdm. nia. }
    destruct (np_max_spec Hne) as (M & EM & HinM & HallM).
    rewrite EM in Ht. cbn [result_bind] in Ht. inversion Ht; subst t. Rnum.
    rewrite Forall_forall in Hall, HallM.
    assert (HMm : (M <= m)%R) by now apply Hall.
    assert (HM : (0 < M)%R).
    { assert (Hpq : p <> q).
      { intros ->. apply Hd. apply point_distance_self. }
      unfold matrix in HallM. rewrite distance_matrix_points, pdist_point_distances in HallM.
      destruct (pairwise_in (profile_distance (df_rows gdf)) (df_rows gdf) Hpg Hqg Hpq)
        as [Hin|Hin]; apply HallM in Hin.
      - pose proof (@profile_distance_pos (df_rows gdf) p q Hpg Hd). lra.
      - assert (Hd' : point_distance q p <> 0%R)
          by (now rewrite point_distance_sym).
        pose proof (@profile_distance_pos (df_rows gdf) q p Hqg Hd'). lra. }
    lra. }
  destruct (@fcluster_splits (linkage (pdist matrix)) t m n ltac:(lia)
              (Hc n (pdist matrix) ltac:(lia) Hdm) Em Htm)
    as (i & j & Hi & Hj & Hne).
  apply two_distinct_length
    with (a := nth i (fcluster (linkage (pdist matrix)) t) 0%nat)
         (b := nth j (fcluster (linkage (pdist matrix)) t) 0%nat); auto;
    apply in_groups_by_cluster, nth_In; lia.
Qed.

Lemma X26_witness :
  exists C L w',
    (linkage_contract (F:=R) complete_linkage /\
     linkage_reaches_max complete_linkage /\
     nth_error (heap three_points_world) 0 = Some (new_frame three_points) /\
     compute_concensus_pharmacophore complete_linkage 0 true "out" 0.17%R
       three_points_world = (Ok (C, L), w') /\
     In (hydrophobic 0 0 0 0) (df_rows (new_frame three_points)) /\
     In (hydrophobic 2 1 0 0) (df_rows (new_frame three_points)) /\
     p_name (hydrophobic 0 0 0 0) = p_name (hydrophobic 2 1 0 0) /\
     point_distance (hydrophobic 0 0 0 0) (hydrophobic 2 1 0 0) <> 0%R) /\
    (2 <= List.length
            (filter (fun c => String.eqb (c_name c) (p_name (hydrophobic 0 0 0 0)))
                    C))%nat.
Proof.
  assert (Hd : point_distance (hydrophobic 0 0 0 0) (hydrophobic 2 1 0 0) <> 0%R).
  { unfold point_distance, hydrophobic. cbn [p_x p_y p_z].
    replace ((0 - 1) * (0 - 1) + (0 - 0) * (0 - 0) + (0 - 0) * (0 - 0))%R
      with 1%R by ring.
    rewrite sqrt_1. lra. }
  assert (Hp : In (hydrophobic 0 0 0 0) (df_rows (new_frame three_points)))
    by (simpl; auto).
  assert (Hq : In (hydrophobic 2 1 0 0) (df_rows (new_frame three_points)))
    by (simpl; auto).
  destruct (@large_groups_return complete_linkage three_points_world 0
              (new_frame three_points) true "out"%string 0.17%R
              complete_linkage_contract eq_refl) as (C & L & w' & E).
  - intros p [<-|[<-|[<-|[]]]]; simpl; lia.
  - exists C, L, w'.
    split; [split; [apply complete_linkage_contract|
            split; [apply complete_linkage_reaches_max|
            split; [reflexivity|
            split; [exact E|
            split; [exact Hp|
            split; [exact Hq|
            split; [reflexivity|exact Hd]]]]]]]|].
    exact (@X26_a_feature_type_is_never_merged_whole complete_linkage 0
             (new_frame three_points) true "out"%string 0.17%R
             three_points_world w' C L (hydrophobic 0 0 0 0) (hydrophobic 2 1 0 0)
             complete_linkage_contract complete_linkage_reaches_max
             eq_refl E Hp Hq eq_refl Hd).
Defined.

(** ** What a failing call leaves behind *)



